(** * go.model-orchestrator: discovery registry, MCP client, mediator, HTTP adapters

    A shallow embedding of the parts of the repository that decide the
    behaviour of request admission, tool-roster construction, TXT metadata
    handling, URL construction and the HTTP status mapping, with the
    properties proved about them.

    Go strings are byte sequences: they are modelled as [string] (a list of
    8-bit [ascii] values).  Go maps are [gmap]s; where the order in which
    [range] visits a map matters, the visited entries are passed as a list
    and the theorems quantify over every such list. *)

From Stdlib Require Import ZArith Ascii.
From stdpp Require Import base decidable option list numbers strings pretty
  gmap fin_maps sorting.

Local Open Scope Z_scope.
Set Warnings "-register-all".

(** ** Go's [strings] package

    [ToLower] and [TrimSpace] are modelled on bytes: the letters [A]..[Z] are
    lowered and the six ASCII white-space bytes are trimmed, which is what
    Go's implementations do on their single-byte path.  Bytes from 0x80
    upwards are left alone (Go consults the Unicode tables there, which are
    not part of this repository). *)
Module GoStrings.

(** [strings.Map] with a byte-to-byte mapping. *)
Fixpoint Map (mapping : ascii → ascii) (s : string) : string :=
  match s with
  | EmptyString => EmptyString
  | String a s' => String (mapping a) (Map mapping s')
  end.

Definition lower_byte (a : ascii) : ascii :=
  let n := N_of_ascii a in
  if ((65 <=? n) && (n <=? 90))%N then ascii_of_N (n + 32) else a.

Definition ToLower (s : string) : string := Map lower_byte s.

Definition upper_byte (a : ascii) : ascii :=
  let n := N_of_ascii a in
  if ((97 <=? n) && (n <=? 122))%N then ascii_of_N (n - 32) else a.

Definition ToUpper (s : string) : string := Map upper_byte s.

(** The cut set of [TrimSpace]: ['\t'], ['\n'], ['\v'], ['\f'], ['\r'], [' ']. *)
Definition isSpace (a : ascii) : bool :=
  match a with
  | "009" | "010" | "011" | "012" | "013" | " " => true
  | _ => false
  end%char.

Fixpoint TrimLeftSpace (s : string) : string :=
  match s with
  | EmptyString => EmptyString
  | String a s' => if isSpace a then TrimLeftSpace s' else s
  end.

Fixpoint TrimRightSpace (s : string) : string :=
  match s with
  | EmptyString => EmptyString
  | String a s' =>
      match TrimRightSpace s' with
      | EmptyString => if isSpace a then EmptyString else String a EmptyString
      | t => String a t
      end
  end.

(** [strings.TrimSpace]: the start index moves right over white space,
    then the stop index moves left over white space. *)
Definition TrimSpace (s : string) : string := TrimRightSpace (TrimLeftSpace s).

Definition HasPrefix (s pre : string) : bool :=
  bool_decide (String.prefix pre s = true).

(** [strings.NewReplacer] with single-byte old and new strings (Go then
    builds a byte table; the first pair for a byte wins). *)
Definition Replacer := list (ascii * ascii).

Fixpoint replace_byte (r : Replacer) (a : ascii) : ascii :=
  match r with
  | [] => a
  | (old, new) :: r' => if decide (a = old) then new else replace_byte r' a
  end.

Definition Replace (r : Replacer) (s : string) : string := Map (replace_byte r) s.

(** [strings.Join]. *)
Fixpoint Join (elems : list string) (sep : string) : string :=
  match elems with
  | [] => EmptyString
  | [a] => a
  | a :: rest => a +:+ sep +:+ Join rest sep
  end.

(** [strings.IndexByte(s, c) >= 0]. *)
Fixpoint ContainsByte (s : string) (c : ascii) : bool :=
  match s with
  | EmptyString => false
  | String a s' => if decide (a = c) then true else ContainsByte s' c
  end.

(** A string that [TrimSpace] leaves alone: no white space at either end. *)
Definition lead_ok (s : string) : bool :=
  match s with
  | EmptyString => true
  | String a _ => negb (isSpace a)
  end.

End GoStrings.

Import GoStrings.

(** ** Go runtime values shared by the packages *)

(** Go [error] values.  A package-level [var ErrX = errors.New(msg)] is one
    value that [errors.Is] recognises by identity ([Sentinel]); an error made
    at the failure site by [errors.New] or by [fmt.Errorf] without [%w], or
    handed back by a library, is [Fresh]; [fmt.Errorf] with [%w] keeps the
    wrapped error next to the formatted message ([Wrap]). *)
Inductive error : Type :=
| Sentinel (msg : string)
| Fresh (msg : string)
| Wrap (msg : string) (err : error).

Global Instance error_eq_dec : EqDecision error.
Proof. solve_decision. Defined.

(** [err.Error()]. *)
Definition Error (e : error) : string :=
  match e with Sentinel m | Fresh m | Wrap m _ => m end.

(** [errors.Is]: [err] or an error it wraps is the target. *)
Fixpoint errors_Is (err target : error) : bool :=
  if decide (err = target) then true
  else match err with
       | Wrap _ inner => errors_Is inner target
       | _ => false
       end.

(** A function result [(value, error)]. *)
Definition result (A : Type) : Type := error + A.
Abbreviation Ok a := (inr a) (only parsing).
Abbreviation Err e := (inl e) (only parsing).

(** Go's [any] holding a decoded JSON value.  Objects keep their members as
    an association list; numbers keep their literal. *)
Inductive any : Type :=
| JNull
| JBool (b : bool)
| JNumber (literal : string)
| JString (s : string)
| JArray (items : list any)
| JObject (members : list (string * any)).

(** [map[string]any]; [None] is the nil map. *)
Definition object : Type := option (list (string * any)).

(** [fmt.Sprint] / [%d] of an [int]. *)
Definition itoa (i : Z) : string := pretty i.

(** A Go [int] is 64 bits wide; arithmetic wraps around. *)
Definition int_wrap (z : Z) : Z := (z + 2 ^ 63) `mod` 2 ^ 64 - 2 ^ 63.

(** [net/http] status codes used by the handlers and their [http.StatusText]. *)
Definition StatusOK : Z := 200.
Definition StatusBadRequest : Z := 400.
Definition StatusNotFound : Z := 404.
Definition StatusInternalServerError : Z := 500.

Definition StatusText (code : Z) : string :=
  if decide (code = 200) then "OK"
  else if decide (code = 400) then "Bad Request"
  else if decide (code = 404) then "Not Found"
  else if decide (code = 500) then "Internal Server Error"
  else "".

(** [net.JoinHostPort]: a host with a colon (a literal IPv6 address) is
    bracketed. *)
Definition JoinHostPort (host port : string) : string :=
  if ContainsByte host ":"
  then "[" +:+ host +:+ "]:" +:+ port
  else host +:+ ":" +:+ port.

(** ** Package [types] (the chat-completion request and response shapes) *)
Module types.

Module ChatMessage.
Record t : Type := mk { Role : string; Content : string; Name : string }.
End ChatMessage.

Module ToolFunction.
Record t : Type := mk { Name : string; Description : string; Parameters : object }.
End ToolFunction.

Module Tool.
Record t : Type := mk { Type_ : string; Function : ToolFunction.t }.
End Tool.

(** The optional sampling fields ([temperature], [top_p], [max_tokens])
    are never read by the code below; they are kept as their JSON literal. *)
Module ChatCompletionRequest.
Record t : Type := mk {
  Model : string;
  Messages : list ChatMessage.t;
  Temperature : option string;
  Stream : bool;
  TopP : option string;
  MaxTokens : option Z;
  Tools : list Tool.t;
  User : string
}.
End ChatCompletionRequest.

Module AssistantMessage.
Record t : Type := mk { Role : string; Content : string }.
End AssistantMessage.

Module Choice.
Record t : Type := mk {
  Index : Z;
  FinishReason : string;
  Message : AssistantMessage.t
}.
End Choice.

Module Usage.
Record t : Type := mk {
  PromptTokens : Z;
  CompletionTokens : Z;
  TotalTokens : Z
}.
End Usage.

Module ChatCompletionResponse.
Record t : Type := mk {
  ID : string;
  Object : string;
  Created : Z;
  Model : string;
  Choices : list Choice.t;
  Usage : Usage.t
}.
End ChatCompletionResponse.

(** The loop of [Validate] over the messages, [i] being the index. *)
Fixpoint validateMessages (i : Z) (msgs : list ChatMessage.t) : option error :=
  match msgs with
  | [] => None
  | msg :: rest =>
      if decide (ChatMessage.Role msg = "")
      then Some (Fresh ("message " +:+ itoa i +:+ " missing role"))
      else validateMessages (i + 1) rest
  end.

(** [Validate] of a chat-completion request; [None] is the nil error. *)
Definition Validate (r : ChatCompletionRequest.t) : option error :=
  if decide (ChatCompletionRequest.Model r = "")
  then Some (Fresh "model is required")
  else if decide (length (ChatCompletionRequest.Messages r) = 0%nat)
  then Some (Fresh "at least one message is required")
  else validateMessages 0 (ChatCompletionRequest.Messages r).

End types.

(** ** Package [discovery] (registry records, TXT metadata, announcer) *)
Module discovery.

Module ServerInfo.
Record t : Type := mk {
  Instance : string;
  Host : string;
  Port : Z;
  Address : string;
  Kind : string;
  LastSeen : Z;
  Text : gmap string string
}.
End ServerInfo.

Definition ServerKindTool : string := "tool".
Definition ServerKindAgentWrapper : string := "agent-wrapper".
Definition ServerKindOrchestrator : string := "orchestrator".
Definition ServerKindUnknown : string := "unknown".

(** What the mDNS library hands to [observe]; addresses are given in their
    printed form. *)
Module ServiceEntry.
Record t : Type := mk {
  Instance : string;
  HostName : string;
  Port : Z;
  AddrIPv4 : list string;
  AddrIPv6 : list string;
  Text : list string
}.
End ServiceEntry.

(** [parseTxtRecord]: split at the first ['='], or nil when there is none. *)
Fixpoint parseTxtRecord (txt : string) : list string :=
  match txt with
  | EmptyString => []
  | String c rest =>
      if decide (c = "="%char) then [EmptyString; rest]
      else match parseTxtRecord rest with
           | [k; v] => [String c k; v]
           | _ => []
           end
  end.

(** The loop of [observe] that fills [textMap] from the TXT records. *)
Definition textMap (records : list string) : gmap string string :=
  foldl (λ m txt,
           match parseTxtRecord txt with
           | [k; v] => <[k := v]> m
           | _ => m
           end) ∅ records.

(** [classifyKind].  A Go nil map reads like the empty map, and a missing
    key reads as the empty string. *)
Definition classifyKind (text : gmap string string) : string :=
  let role := ToLower (TrimSpace (default "" (text !! "role"))) in
  if decide (role = "") then ServerKindTool
  else if decide (role = ServerKindTool) then ServerKindTool
  else if decide (role = ServerKindAgentWrapper) then ServerKindAgentWrapper
  else if decide (role = ServerKindOrchestrator) then ServerKindOrchestrator
  else role.

(** The record [observe] publishes for a browse entry seen at time [now]. *)
Definition observe (now : Z) (entry : ServiceEntry.t) : ServerInfo.t :=
  let host := ServiceEntry.HostName entry in
  let port := itoa (ServiceEntry.Port entry) in
  let address :=
    match ServiceEntry.AddrIPv4 entry, ServiceEntry.AddrIPv6 entry with
    | ip :: _, _ => JoinHostPort ip port
    | [], ip :: _ => JoinHostPort ip port
    | [], [] => JoinHostPort host port
    end in
  let text := textMap (ServiceEntry.Text entry) in
  ServerInfo.mk (ServiceEntry.Instance entry) host (ServiceEntry.Port entry)
    address (classifyKind text) now text.

(** The loop of [NewAnnouncer] that turns the text map into TXT records;
    [entries] are the pairs of the map in the order [range] visits them. *)
Fixpoint txtRecords (entries : list (string * string)) : list string :=
  match entries with
  | [] => []
  | (k, v) :: rest =>
      let key := TrimSpace k in
      if decide (key = "") then txtRecords rest
      else (key +:+ "=" +:+ TrimSpace v) :: txtRecords rest
  end.

Module AnnounceOptions.
Record t : Type := mk {
  Instance : string;
  Service : string;
  Domain : string;
  Port : Z;
  Text : gmap string string
}.
End AnnounceOptions.

(** [NewAnnouncer] up to the call of the mDNS library: the port check and
    the TXT records that are registered.  The order of [range] is taken to be
    that of [map_to_list]; a map of one pair has one order only. *)
Definition NewAnnouncer (opts : AnnounceOptions.t) : result (list string) :=
  if decide (AnnounceOptions.Port opts ≤ 0)
  then Err (Fresh ("invalid port " +:+ itoa (AnnounceOptions.Port opts)))
  else Ok (txtRecords (map_to_list (AnnounceOptions.Text opts))).

(** What the registry reads back from the TXT records the announcer
    publishes for [text]. *)
Definition announceThenObserve (text : gmap string string) : gmap string string :=
  textMap (txtRecords (map_to_list text)).

End discovery.

(** ** Package [mcp] (the peer client) *)
Module mcp.
Import discovery.

Module ToolDefinition.
Record t : Type := mk { Name : string; Description : string; Parameters : object }.
End ToolDefinition.

Module CallResult.
Record t : Type := mk { Tool : string; Result : object }.
End CallResult.

(** The client holds an HTTP client with a timeout (in nanoseconds). *)
Module Client.
Record t : Type := mk { Timeout : Z }.
End Client.

Module Options.
Record t : Type := mk { Timeout : Z }.
End Options.

Definition Second : Z := 1000000000.

Definition NewClient (opts : Options.t) : Client.t :=
  let timeout := Options.Timeout opts in
  Client.mk (if decide (timeout ≤ 0) then 30 * Second else timeout).

(** The fields of [url.URL] that [url.Parse] fills. *)
Module URL.
Record t : Type := mk {
  Scheme : string;
  Opaque : string;
  User : option string;
  Host : string;
  Path : string;
  RawPath : string;
  RawQuery : string;
  Fragment : string
}.

(** The assignment [base.Path = path]. *)
Definition with_Path (u : t) (path : string) : t :=
  mk (Scheme u) (Opaque u) (User u) (Host u) path (RawPath u) (RawQuery u)
    (Fragment u).
End URL.

Section BuildURL.
(** Go's [net/url] and [strconv] are libraries outside the repository:
    [url.Parse], the [String] method of a URL and the quoting of [%q] are parameters. *)
Variable url_Parse : string → result URL.t.
Variable URL_String : URL.t → string.
Variable Quote : string → string.

(** [buildURL]; [None] is the nil server. *)
Definition buildURL (server : option ServerInfo.t) (path : string) : result string :=
  match server with
  | None => Err (Fresh "nil server")
  | Some server =>
      let path := if HasPrefix path "/" then path else "/" +:+ path in
      let target := default "" (ServerInfo.Text server !! "url") in
      if decide (TrimSpace target ≠ "") then
        match url_Parse target with
        | Err err =>
            Err (Wrap ("invalid server url " +:+ Quote target +:+ ": " +:+ Error err) err)
        | Ok base => Ok (URL_String (URL.with_Path base path))
        end
      else
        let host := ServerInfo.Host server in
        let host := if decide (host = "") then ServerInfo.Instance server else host in
        let address := ServerInfo.Address server in
        let address :=
          if decide (address = "" ∧ host ≠ "")
          then JoinHostPort host (itoa (ServerInfo.Port server))
          else address in
        if decide (TrimSpace address = "")
        then Err (Fresh ("server " +:+ ServerInfo.Instance server +:+ " missing address"))
        else
          let scheme := TrimSpace (default "" (ServerInfo.Text server !! "scheme")) in
          let scheme := if decide (scheme = "") then "http" else scheme in
          Ok (scheme +:+ "://" +:+ address +:+ path)
  end.

(** The endpoint path after the leading-slash fix. *)
Definition endpointPath (path : string) : string :=
  if HasPrefix path "/" then path else "/" +:+ path.

(** The address the constructed URL uses. *)
Definition endpointAddress (server : ServerInfo.t) : string :=
  let host := ServerInfo.Host server in
  let host := if decide (host = "") then ServerInfo.Instance server else host in
  if decide (ServerInfo.Address server = "" ∧ host ≠ "")
  then JoinHostPort host (itoa (ServerInfo.Port server))
  else ServerInfo.Address server.

(** The scheme of the constructed URL, as the specification words it
    once trimming is taken into account. *)
Definition endpointScheme (server : ServerInfo.t) : string :=
  let scheme := TrimSpace (default "" (ServerInfo.Text server !! "scheme")) in
  if decide (scheme = "") then "http" else scheme.

End BuildURL.

End mcp.

(** ** The shapes of the upstream client library the mediator touches *)
Module openai.

Module Client.
Record t : Type := mk { BaseURL : string; APIKey : string }.
End Client.

Module FunctionDefinitionParam.
Record t : Type := mk { Name : string; Description : string; Parameters : object }.
End FunctionDefinitionParam.

Module ChatCompletionToolParam.
Record t : Type := mk { Type_ : string; Function : FunctionDefinitionParam.t }.
End ChatCompletionToolParam.

Module ToolCallFunction.
Record t : Type := mk { Name : string; Arguments : string }.
End ToolCallFunction.

Module ToolCall.
Record t : Type := mk { ID : string; Function : ToolCallFunction.t }.
End ToolCall.

Module ChatCompletionMessage.
Record t : Type := mk {
  Role : string;
  Content : string;
  ToolCalls : list ToolCall.t
}.
End ChatCompletionMessage.

Module Choice.
Record t : Type := mk {
  Index : Z;
  FinishReason : string;
  Message : ChatCompletionMessage.t
}.
End Choice.

Module CompletionUsage.
Record t : Type := mk {
  PromptTokens : Z;
  CompletionTokens : Z;
  TotalTokens : Z
}.
End CompletionUsage.

Module ChatCompletion.
Record t : Type := mk {
  ID : string;
  Object : string;
  Created : Z;
  Model : string;
  Choices : list Choice.t;
  Usage : CompletionUsage.t
}.
End ChatCompletion.

(** A message of the conversation sent upstream. *)
Inductive MessageParam : Type :=
| SystemMessage (content : string)
| UserMessage (content : string)
| AssistantMessage (content : string) (calls : list ToolCall.t)
| ToolMessage (content : string) (toolCallID : string).

(** [ChatCompletionMessage.ToParam]. *)
Definition ToParam (msg : ChatCompletionMessage.t) : MessageParam :=
  AssistantMessage (ChatCompletionMessage.Content msg)
    (ChatCompletionMessage.ToolCalls msg).

(** The request of a completion; [Tools = None] is the field left unset,
    which the library leaves out of the JSON body. *)
Module ChatCompletionNewParams.
Record t : Type := mk {
  Model : string;
  Messages : list MessageParam;
  Tools : option (list ChatCompletionToolParam.t)
}.
End ChatCompletionNewParams.

End openai.

(** A computation of the model: it returns, panics, or is cut off by the
    bound the model puts on an unbounded Go loop. *)
Inductive run (A : Type) : Type :=
| Done (a : A)
| Panic
| OutOfFuel.
Arguments Done {A} a.
Arguments Panic {A}.
Arguments OutOfFuel {A}.

(** [sort.Slice] with the order [less] induces on a string key.  The keys
    sorted below are pairwise distinct, so that the sorted order is unique and
    does not depend on the sorting algorithm. *)
Definition key_le {A : Type} (key : A → string) (x y : A) : Prop :=
  String.le (key x) (key y).

Global Instance key_le_dec {A : Type} (key : A → string) : RelDecision (key_le key).
Proof. intros x y. unfold key_le. apply _. Defined.

Definition sortByKey {A : Type} (key : A → string) (l : list A) : list A :=
  merge_sort (key_le key) l.

(** Go's [<] on strings: byte-wise lexicographic. *)
Definition string_lt (a b : string) : Prop := String.ltb a b = true.

(** ** Package [mediator] *)
Module mediator.
Import discovery.

Definition ErrModelUnsupported : error := Sentinel "model not supported".
Definition ErrStreamingUnsupported : error := Sentinel "streaming is not supported".

Module Options.
Record t : Type := mk {
  ModelName : string;
  ProviderModel : string;
  AllowedKinds : list string;
  ToolClient : option mcp.Client.t;
  OpenAIClient : option openai.Client.t
}.
End Options.

Module ToolServerRef.
Record t : Type := mk {
  Instance : string;
  Address : string;
  Kind : string;
  Metadata : gmap string string
}.
End ToolServerRef.

Module ToolDescriptor.
Record t : Type := mk {
  Name : string;
  Description : string;
  Parameters : object;
  Server : ToolServerRef.t;
  Original : string
}.
End ToolDescriptor.

Module toolMeta.
Record t : Type := mk {
  Server : ServerInfo.t;
  ToolName : string;
  Description : string;
  OriginalName : string
}.
End toolMeta.

(** The mediator's fields; its registry handle is read through the snapshot
    that is passed to [collectTools] and [HandleChat].  A nil [allowedKinds]
    is the empty set. *)
Module Mediator.
Record t : Type := mk {
  openaiClient : option openai.Client.t;
  providerModel : string;
  modelName : string;
  allowedKinds : gset string;
  toolClient : option mcp.Client.t
}.
End Mediator.

Definition New (opts : Options.t) : Mediator.t :=
  let modelName :=
    if decide (Options.ModelName opts = "") then "go-agent-1"
    else Options.ModelName opts in
  let kindSet :=
    foldl (λ (set : gset string) k,
             let k := ToLower (TrimSpace k) in
             if decide (k ≠ "") then {[ k ]} ∪ set else set)
      ∅ (Options.AllowedKinds opts) in
  let client :=
    match Options.ToolClient opts with
    | None => mcp.NewClient (mcp.Options.mk 0)
    | Some c => c
    end in
  Mediator.mk (Options.OpenAIClient opts) (Options.ProviderModel opts) modelName
    kindSet (Some client).

Definition SupportedModels (m : Mediator.t) : list string := [Mediator.modelName m].

Definition supportsModel (m : Mediator.t) (model : string) : bool :=
  bool_decide (model = Mediator.modelName m).

Definition providerModelOrDefault (m : Mediator.t) : string :=
  if decide (TrimSpace (Mediator.providerModel m) ≠ "")
  then Mediator.providerModel m
  else Mediator.modelName m.

Definition convertMessage (msg : types.ChatMessage.t) : openai.MessageParam :=
  let role := ToLower (types.ChatMessage.Role msg) in
  let content := types.ChatMessage.Content msg in
  if decide (role = "system") then openai.SystemMessage content
  else if decide (role = "assistant") then openai.AssistantMessage content []
  else if decide (role = "user") then openai.UserMessage content
  else openai.UserMessage content.

Definition convertMessages (msgs : list types.ChatMessage.t) : list openai.MessageParam :=
  convertMessage <$> msgs.

Definition replacer : Replacer :=
  [(" ", "_"); ("-", "_"); (".", "_"); ("/", "_"); (":", "_")]%char.

Definition slugify (input : string) : string :=
  let s := ToLower (TrimSpace input) in
  if decide (s = "") then "tool"
  else Replace replacer s.

(** The loop of [buildFunctionName]: [name] is the candidate under test and
    [i] the next suffix.  The Go loop has no bound; [fuel] bounds the model's
    iterations, and [None] is the bound reached. *)
Fixpoint buildFunctionName_loop (fuel : nat) (base name : string) (i : Z)
    (existing : gmap string toolMeta.t) : option string :=
  match existing !! name with
  | None => Some name
  | Some _ =>
      match fuel with
      | O => None
      | S fuel' =>
          buildFunctionName_loop fuel' base (base +:+ "__" +:+ itoa i)
            (int_wrap (i + 1)) existing
      end
  end.

(** [buildFunctionName].  A map of [n] names can reject at most [n]
    candidates, so [n] further iterations are enough
    (see [buildFunctionName_returns]). *)
Definition buildFunctionName (instance toolName : string)
    (existing : gmap string toolMeta.t) : option string :=
  let base := slugify instance +:+ "__" +:+ slugify toolName in
  buildFunctionName_loop (size existing) base base 2 existing.

(** [buildToolDescription]; the servers of a snapshot are never nil. *)
Definition buildToolDescription (toolDescription : string) (srv : ServerInfo.t) : string :=
  let parts :=
    if decide (TrimSpace toolDescription ≠ "") then [TrimSpace toolDescription] else [] in
  let serverInfo :=
    "Provided by " +:+ ServerInfo.Instance srv +:+ " (" +:+ ServerInfo.Kind srv +:+ ")" in
  let serverInfo :=
    match ServerInfo.Text srv !! "description" with
    | Some desc =>
        if decide (TrimSpace desc ≠ "") then serverInfo +:+ " - " +:+ desc else serverInfo
    | None => serverInfo
    end in
  let parts := parts ++ [serverInfo] in
  if decide (length parts = 0%nat) then "No description provided."
  else Join parts " | ".

Definition isToolHost (info : ServerInfo.t) : bool :=
  let kind := ToLower (TrimSpace (ServerInfo.Kind info)) in
  bool_decide (kind = ToLower ServerKindTool) ||
  bool_decide (kind = ToLower ServerKindAgentWrapper).

Definition cloneMetadata (meta : gmap string string) : gmap string string := meta.

(** The variables of [collectTools] while it ranges over the servers. *)
Module roster.
Record t : Type := mk {
  toolParams : list openai.ChatCompletionToolParam.t;
  meta : gmap string toolMeta.t;
  descriptors : list ToolDescriptor.t;
  lastErr : option error
}.
End roster.

Definition paramName (p : openai.ChatCompletionToolParam.t) : string :=
  openai.FunctionDefinitionParam.Name (openai.ChatCompletionToolParam.Function p).

Definition functionNames (ps : list openai.ChatCompletionToolParam.t) : list string :=
  paramName <$> ps.

(** The body of the inner loop of [collectTools] for one tool of [srv]. *)
Definition addTool (srv : ServerInfo.t) (st : roster.t) (tool : mcp.ToolDefinition.t)
    : option roster.t :=
  match buildFunctionName (ServerInfo.Instance srv) (mcp.ToolDefinition.Name tool)
          (roster.meta st) with
  | None => None
  | Some functionName =>
      let description := buildToolDescription (mcp.ToolDefinition.Description tool) srv in
      let fn :=
        openai.FunctionDefinitionParam.mk functionName description
          (mcp.ToolDefinition.Parameters tool) in
      Some (roster.mk
        (roster.toolParams st ++ [openai.ChatCompletionToolParam.mk "function" fn])
        (<[functionName :=
             toolMeta.mk srv (mcp.ToolDefinition.Name tool) description
               (mcp.ToolDefinition.Name tool)]> (roster.meta st))
        (roster.descriptors st ++
           [ToolDescriptor.mk functionName description
              (mcp.ToolDefinition.Parameters tool)
              (ToolServerRef.mk (ServerInfo.Instance srv) (ServerInfo.Address srv)
                 (ServerInfo.Kind srv) (cloneMetadata (ServerInfo.Text srv)))
              (mcp.ToolDefinition.Name tool)])
        (roster.lastErr st))
  end.

Fixpoint addTools (srv : ServerInfo.t) (st : roster.t) (tools : list mcp.ToolDefinition.t)
    : option roster.t :=
  match tools with
  | [] => Some st
  | tool :: rest =>
      match addTool srv st tool with
      | None => None
      | Some st' => addTools srv st' rest
      end
  end.

Section Aggregation.
(** [m.toolClient.ListTools]: the outcome of the exchange with the peer. *)
Variable ListTools : mcp.Client.t → ServerInfo.t → result (list mcp.ToolDefinition.t).

(** The body of the outer loop of [collectTools] for one server. *)
Definition visitServer (m : Mediator.t) (client : mcp.Client.t) (st : roster.t)
    (srv : ServerInfo.t) : option roster.t :=
  if decide ((0 < size (Mediator.allowedKinds m))%nat ∧
             ToLower (TrimSpace (ServerInfo.Kind srv)) ∉ Mediator.allowedKinds m)
  then Some st
  else if negb (isToolHost srv) then Some st
  else match ListTools client srv with
       | Err err =>
           Some (roster.mk (roster.toolParams st) (roster.meta st)
                   (roster.descriptors st) (Some err))
       | Ok tools => addTools srv st tools
       end.

Fixpoint visitServers (m : Mediator.t) (client : mcp.Client.t) (st : roster.t)
    (servers : list ServerInfo.t) : option roster.t :=
  match servers with
  | [] => Some st
  | srv :: rest =>
      match visitServer m client st srv with
      | None => None
      | Some st' => visitServers m client st' rest
      end
  end.

(** [collectTools]; [servers] are the records of the snapshot in the order
    [range] visits them.  [None] is a name search cut off by its bound. *)
Definition collectTools (m : Mediator.t) (servers : list ServerInfo.t)
    : option (list openai.ChatCompletionToolParam.t * gmap string toolMeta.t *
              list ToolDescriptor.t * option error) :=
  if decide (length servers = 0%nat) then Some ([], ∅, [], None)
  else match Mediator.toolClient m with
       | None => Some ([], ∅, [], Some (Fresh "tool client not configured"))
       | Some client =>
           match visitServers m client (roster.mk [] ∅ [] None) servers with
           | None => None
           | Some st =>
               let toolParams := sortByKey paramName (roster.toolParams st) in
               let descriptors := sortByKey ToolDescriptor.Name (roster.descriptors st) in
               if decide (length toolParams = 0%nat ∧ roster.lastErr st ≠ None)
               then Some ([], roster.meta st, descriptors, roster.lastErr st)
               else Some (toolParams, roster.meta st, descriptors, roster.lastErr st)
           end
       end.

(** [ListTools] of the mediator; the descriptors and the error. *)
Definition ListToolDescriptors (m : Mediator.t) (servers : list ServerInfo.t)
    : option (list ToolDescriptor.t * option error) :=
  match collectTools m servers with
  | None => None
  | Some (_, _, descriptors, err) => Some (descriptors, err)
  end.

End Aggregation.

(** [buildOpenAIResponse]; indexing the first choice of a completion
    without choices panics ([None]). *)
Definition buildOpenAIResponse (model : string) (resp : openai.ChatCompletion.t)
    : option types.ChatCompletionResponse.t :=
  match openai.ChatCompletion.Choices resp with
  | [] => None
  | choice :: _ =>
      let content := openai.ChatCompletionMessage.Content (openai.Choice.Message choice) in
      let usage := openai.ChatCompletion.Usage resp in
      Some (types.ChatCompletionResponse.mk
        (openai.ChatCompletion.ID resp)
        (openai.ChatCompletion.Object resp)
        (openai.ChatCompletion.Created resp)
        model
        [types.Choice.mk (openai.Choice.Index choice) (openai.Choice.FinishReason choice)
           (types.AssistantMessage.mk "assistant" content)]
        (types.Usage.mk (openai.CompletionUsage.PromptTokens usage)
           (openai.CompletionUsage.CompletionTokens usage)
           (openai.CompletionUsage.TotalTokens usage)))
  end.

(** The payload of a tool-result message. *)
Module toolPayload.
Record t : Type := mk {
  tool : string;
  server : string;
  description : string;
  result : object
}.
End toolPayload.

Section Turn.
(** The peers and the upstream provider are reached over the network; their
    answers, and the JSON codec of the standard library, are parameters.
    [Completions_New n] is the answer to the completion requested after [n]
    earlier ones of the same turn. *)
Variable ListTools : mcp.Client.t → ServerInfo.t → result (list mcp.ToolDefinition.t).
Variable CallTool :
  mcp.Client.t → ServerInfo.t → string → object → result mcp.CallResult.t.
Variable Completions_New :
  nat → openai.ChatCompletionNewParams.t → result (option openai.ChatCompletion.t).
Variable json_Unmarshal : string → result object.
Variable json_Marshal : toolPayload.t → string.

(** The loop of [HandleChat] over the tool calls of one completion.  Calling
    through a nil tool client panics. *)
Fixpoint dispatchToolCalls (m : Mediator.t) (meta : gmap string toolMeta.t)
    (conversation : list openai.MessageParam) (calls : list openai.ToolCall.t)
    : run (result (list openai.MessageParam)) :=
  match calls with
  | [] => Done (Ok conversation)
  | call :: rest =>
      let name := openai.ToolCallFunction.Name (openai.ToolCall.Function call) in
      let arguments := openai.ToolCallFunction.Arguments (openai.ToolCall.Function call) in
      match meta !! name with
      | None => Done (Err (Fresh ("unknown tool '" +:+ name +:+ "'")))
      | Some metaEntry =>
          let parsed :=
            if decide (arguments ≠ "") then json_Unmarshal arguments else Ok None in
          match parsed with
          | Err err =>
              Done (Err (Wrap ("invalid tool arguments for " +:+ name +:+ ": " +:+ Error err) err))
          | Ok args =>
              match Mediator.toolClient m with
              | None => Panic
              | Some client =>
                  match CallTool client (toolMeta.Server metaEntry)
                          (toolMeta.ToolName metaEntry) args with
                  | Err err =>
                      Done (Err (Wrap ("tool " +:+ name +:+ " failed: " +:+ Error err) err))
                  | Ok result =>
                      let payload :=
                        toolPayload.mk (toolMeta.ToolName metaEntry)
                          (ServerInfo.Instance (toolMeta.Server metaEntry))
                          (toolMeta.Description metaEntry)
                          (mcp.CallResult.Result result) in
                      dispatchToolCalls m meta
                        (conversation ++
                           [openai.ToolMessage (json_Marshal payload) (openai.ToolCall.ID call)])
                        rest
                  end
              end
          end
      end
  end.

(** The request one iteration of the turn loop submits. *)
Definition completionParams (m : Mediator.t)
    (toolParams : list openai.ChatCompletionToolParam.t)
    (conversation : list openai.MessageParam) : openai.ChatCompletionNewParams.t :=
  openai.ChatCompletionNewParams.mk (providerModelOrDefault m) conversation
    (if decide (0 < length toolParams)%nat then Some toolParams else None).

(** The [for] loop of [HandleChat]: [n] completions were requested before.
    It returns the requests it submitted, in order, next to its outcome. *)
Fixpoint turnLoop (fuel : nat) (m : Mediator.t)
    (toolParams : list openai.ChatCompletionToolParam.t)
    (meta : gmap string toolMeta.t) (n : nat)
    (conversation : list openai.MessageParam)
    : list openai.ChatCompletionNewParams.t * run (result types.ChatCompletionResponse.t) :=
  match fuel with
  | O => ([], OutOfFuel)
  | S fuel' =>
      let params := completionParams m toolParams conversation in
      match Completions_New n params with
      | Err err => ([params], Done (Err err))
      | Ok None => ([params], Done (Err (Fresh "empty completion response")))
      | Ok (Some resp) =>
          match openai.ChatCompletion.Choices resp with
          | [] => ([params], Done (Err (Fresh "empty completion response")))
          | choice :: _ =>
              let message := openai.Choice.Message choice in
              let conversation := conversation ++ [openai.ToParam message] in
              if decide (length (openai.ChatCompletionMessage.ToolCalls message) = 0%nat)
              then
                match buildOpenAIResponse (Mediator.modelName m) resp with
                | Some r => ([params], Done (Ok r))
                | None => ([params], Panic)
                end
              else
                match dispatchToolCalls m meta conversation
                        (openai.ChatCompletionMessage.ToolCalls message) with
                | Done (Ok conversation') =>
                    let (trace, outcome) :=
                      turnLoop fuel' m toolParams meta (S n) conversation' in
                    (params :: trace, outcome)
                | Done (Err err) => ([params], Done (Err err))
                | Panic => ([params], Panic)
                | OutOfFuel => ([params], OutOfFuel)
                end
          end
      end
  end.

(** [HandleChat]: the requests submitted upstream and the outcome.  [fuel]
    bounds the number of completions of the turn. *)
Definition HandleChat (fuel : nat) (m : Mediator.t) (servers : list ServerInfo.t)
    (req : types.ChatCompletionRequest.t)
    : list openai.ChatCompletionNewParams.t * run (result types.ChatCompletionResponse.t) :=
  match types.Validate req with
  | Some err => ([], Done (Err err))
  | None =>
      if types.ChatCompletionRequest.Stream req
      then ([], Done (Err ErrStreamingUnsupported))
      else if bool_decide (types.ChatCompletionRequest.Model req ≠ "") &&
              negb (supportsModel m (types.ChatCompletionRequest.Model req))
      then ([], Done (Err (Wrap (Error ErrModelUnsupported +:+ ": " +:+
                                   types.ChatCompletionRequest.Model req)
                             ErrModelUnsupported)))
      else match Mediator.openaiClient m with
           | None => ([], Done (Err (Fresh "openai client not configured")))
           | Some _ =>
               let messages := convertMessages (types.ChatCompletionRequest.Messages req) in
               match collectTools ListTools m servers with
               | None => ([], OutOfFuel)
               | Some (toolParams, meta, _, err) =>
                   let messages :=
                     match err with
                     | Some err =>
                         messages ++
                           [openai.SystemMessage
                              ("Warning: tool discovery error: " +:+ Error err)]
                     | None => messages
                     end in
                   turnLoop fuel m toolParams meta 0 messages
               end
           end
  end.

End Turn.

(** The four admission checks of [HandleChat], in its order; [None] is a
    request that is admitted. *)
Definition admission (m : Mediator.t) (req : types.ChatCompletionRequest.t) : option error :=
  match types.Validate req with
  | Some err => Some err
  | None =>
      if types.ChatCompletionRequest.Stream req then Some ErrStreamingUnsupported
      else if bool_decide (types.ChatCompletionRequest.Model req ≠ "") &&
              negb (supportsModel m (types.ChatCompletionRequest.Model req))
      then Some (Wrap (Error ErrModelUnsupported +:+ ": " +:+
                         types.ChatCompletionRequest.Model req) ErrModelUnsupported)
      else match Mediator.openaiClient m with
           | None => Some (Fresh "openai client not configured")
           | Some _ => None
           end
  end.

(** *** The naming rule of the roster, in the specification's words *)

(** [slug(instance) ++ "__" ++ slug(tool_name)]. *)
Definition functionBase (instance toolName : string) : string :=
  slugify instance +:+ "__" +:+ slugify toolName.

(** The names a base can take: the base itself, then the base with the
    suffixes [__2], [__3], ... *)
Definition candidate (base : string) (k : nat) : string :=
  match k with
  | O => base
  | S _ => base +:+ "__" +:+ itoa (Z.of_nat k + 1)
  end.

Section RosterSpec.
Variable ListTools : mcp.Client.t → ServerInfo.t → result (list mcp.ToolDefinition.t).

(** The tools a server hands to the mediator when asked. *)
Definition offered (m : Mediator.t) (srv : ServerInfo.t) : list mcp.ToolDefinition.t :=
  match Mediator.toolClient m with
  | None => []
  | Some client =>
      match ListTools client srv with
      | Ok tools => tools
      | Err _ => []
      end
  end.

Definition toolCount (m : Mediator.t) (servers : list ServerInfo.t) : nat :=
  sum_list ((λ srv, length (offered m srv)) <$> servers).

(** [name] is the namespaced name of a tool some server of the snapshot
    offers, with the smallest suffix that does not collide within [names]. *)
Definition namespaced (m : Mediator.t) (servers : list ServerInfo.t)
    (names : list string) (name : string) : Prop :=
  ∃ srv tool k,
    srv ∈ servers ∧ tool ∈ offered m srv ∧
    name = candidate
             (functionBase (ServerInfo.Instance srv) (mcp.ToolDefinition.Name tool)) k ∧
    ∀ i, (i < k)%nat →
      candidate (functionBase (ServerInfo.Instance srv) (mcp.ToolDefinition.Name tool)) i
        ∈ names.

(** What [collectTools] maintains while it ranges over the servers. *)
Definition rosterInv (m : Mediator.t) (servers : list ServerInfo.t) (st : roster.t) : Prop :=
  NoDup (functionNames (roster.toolParams st))
  ∧ (∀ name, name ∈ functionNames (roster.toolParams st) ↔ is_Some (roster.meta st !! name))
  ∧ length (roster.toolParams st) = size (roster.meta st)
  ∧ (∀ name, name ∈ functionNames (roster.toolParams st) →
       namespaced m servers (functionNames (roster.toolParams st)) name).

End RosterSpec.

End mediator.

(** ** Package [api] (the external chat adapter) *)
Module api.
Import discovery.

(** What a handler writes: the status and the JSON payload. *)
Module openAIErrorDetails.
Record t : Type := mk { Message : string; Type_ : string }.
End openAIErrorDetails.

Inductive payload : Type :=
| openAIError (err : openAIErrorDetails.t)
| chatCompletion (resp : types.ChatCompletionResponse.t).

Module Response.
Record t : Type := mk { Status : Z; Body : payload }.
End Response.

Definition writeJSON (resp : types.ChatCompletionResponse.t) (status : Z) : Response.t :=
  Response.mk status (chatCompletion resp).

Definition writeError (status : Z) (err : error) : Response.t :=
  Response.mk status (openAIError (openAIErrorDetails.mk (Error err) (StatusText status))).

Section Server.
Variable ListTools : mcp.Client.t → ServerInfo.t → result (list mcp.ToolDefinition.t).
Variable CallTool :
  mcp.Client.t → ServerInfo.t → string → object → result mcp.CallResult.t.
Variable Completions_New :
  nat → openai.ChatCompletionNewParams.t → result (option openai.ChatCompletion.t).
Variable json_Unmarshal : string → result object.
Variable json_Marshal : mediator.toolPayload.t → string.

(** [handleChatCompletions]; [body] is what decoding the request body gave. *)
Definition handleChatCompletions (fuel : nat) (med : mediator.Mediator.t)
    (servers : list ServerInfo.t) (body : result types.ChatCompletionRequest.t)
    : run Response.t :=
  match body with
  | Err err => Done (writeError StatusBadRequest err)
  | Ok req =>
      match (mediator.HandleChat ListTools CallTool Completions_New json_Unmarshal
               json_Marshal fuel med servers req).2 with
      | Done (Err err) =>
          if errors_Is err mediator.ErrModelUnsupported
          then Done (writeError StatusNotFound err)
          else if errors_Is err mediator.ErrStreamingUnsupported
          then Done (writeError StatusBadRequest err)
          else Done (writeError StatusInternalServerError err)
      | Done (Ok resp) => Done (writeJSON resp StatusOK)
      | Panic => Panic
      | OutOfFuel => OutOfFuel
      end
  end.

End Server.

End api.

(** ** The reference HTTP-methods tool server (command [mcp-http-tools]) *)
Module httptools.

Module toolDefinition.
Record t : Type := mk {
  Name : string;
  Description : string;
  Method : string;
  Parameters : any
}.
End toolDefinition.

Module toolCallRequest.
Record t : Type := mk { Name : string; Arguments : object }.
End toolCallRequest.

Module httpToolResult.
Record t : Type := mk {
  Status : Z;
  StatusText : string;
  Headers : list (string * list string);
  Body : string
}.
End httpToolResult.

(** The server's tool table (its logger and HTTP client carry no state the
    handlers read). *)
Module toolServer.
Record t : Type := mk { tools : list toolDefinition.t }.
End toolServer.

Definition MethodGet : string := "GET".
Definition MethodPost : string := "POST".
Definition MethodPut : string := "PUT".
Definition MethodPatch : string := "PATCH".
Definition MethodDelete : string := "DELETE".

Definition makeToolDefinition (method : string) : toolDefinition.t :=
  let description :=
    "Performs an HTTP " +:+ ToUpper method +:+ " request to a target URL." in
  toolDefinition.mk ("http_" +:+ ToLower method) description method
    (JObject
       [("type", JString "object");
        ("properties",
          JObject
            [("url",
               JObject [("type", JString "string");
                        ("description", JString "Fully qualified URL to request.")]);
             ("headers",
               JObject [("type", JString "object");
                        ("description", JString "Optional HTTP headers.");
                        ("additionalProperties", JObject [("type", JString "string")])]);
             ("body",
               JObject [("type", JString "string");
                        ("description",
                          JString "Optional request body (ignored for GET/DELETE).")])]);
        ("required", JArray [JString "url"])]).

Definition newToolServer : toolServer.t :=
  toolServer.mk
    [makeToolDefinition MethodGet; makeToolDefinition MethodPost;
     makeToolDefinition MethodPut; makeToolDefinition MethodPatch;
     makeToolDefinition MethodDelete].

Definition toolNames (s : toolServer.t) : list string :=
  toolDefinition.Name <$> toolServer.tools s.

(** The payload a handler writes. *)
Inductive payload : Type :=
| errorBody (message : string) (code : Z)
| statusBody (status : string)
| toolsBody (tools : list toolDefinition.t)
| callBody (tool : string) (result : httpToolResult.t).

Module Response.
Record t : Type := mk { Status : Z; Body : payload }.
End Response.

Definition writeJSON (body : payload) (status : Z) : Response.t := Response.mk status body.

Definition writeError (status : Z) (err : error) : Response.t :=
  writeJSON (errorBody (Error err) status) status.

(** Reading a key of a [map[string]any]. *)
Fixpoint lookupMember (members : list (string * any)) (key : string) : option any :=
  match members with
  | [] => None
  | (k, v) :: rest => if decide (k = key) then Some v else lookupMember rest key
  end.

Definition extractString (args : object) (key : string) : result string :=
  match args with
  | None => Err (Fresh ("missing " +:+ key))
  | Some members =>
      match lookupMember members key with
      | None => Err (Fresh ("missing " +:+ key))
      | Some (JString str) =>
          if decide (TrimSpace str = "")
          then Err (Fresh (key +:+ " must be a non-empty string"))
          else Ok str
      | Some _ => Err (Fresh (key +:+ " must be a non-empty string"))
      end
  end.

Definition extractOptionalString (args : object) (key : string) : string :=
  match args with
  | None => ""
  | Some members =>
      match lookupMember members key with
      | Some (JString str) => str
      | _ => ""
      end
  end.

Definition extractStringMap (args : object) (key : string) : list (string * string) :=
  match args with
  | None => []
  | Some members =>
      match lookupMember members key with
      | Some (JObject rawMap) =>
          omap (λ kv, match kv.2 with JString str => Some (kv.1, str) | _ => None end) rawMap
      | _ => []
      end
  end.

Section Handlers.
(** The standard library and the network: [url.ParseRequestURI], building
    the request, the round trip with the bounded read of the body, and the
    quoting of [%q]. *)
Variable url_ParseRequestURI : string → option error.
Variable http_NewRequest : string → string → option error.
Variable httpClient_Do :
  string → string → list (string * string) → option string → result httpToolResult.t.
Variable Quote : string → string.

Fixpoint lookupIn (tools : list toolDefinition.t) (name : string) : option toolDefinition.t :=
  match tools with
  | [] => None
  | tool :: rest =>
      if decide (toolDefinition.Name tool = name) then Some tool else lookupIn rest name
  end.

Definition lookupTool (s : toolServer.t) (name : string) : result toolDefinition.t :=
  match lookupIn (toolServer.tools s) name with
  | Some tool => Ok tool
  | None => Err (Fresh ("tool " +:+ Quote name +:+ " not found"))
  end.

Definition executeHTTPRequest (method target : string) (args : object)
    : result httpToolResult.t :=
  match url_ParseRequestURI target with
  | Some err => Err (Wrap ("invalid url: " +:+ Error err) err)
  | None =>
      let headers := extractStringMap args "headers" in
      let body := extractOptionalString args "body" in
      let bodyReader :=
        if decide (body ≠ "" ∧ method ≠ MethodGet ∧ method ≠ MethodDelete)
        then Some body else None in
      match http_NewRequest method target with
      | Some err => Err (Wrap ("build request: " +:+ Error err) err)
      | None =>
          match httpClient_Do method target headers bodyReader with
          | Err err => Err (Wrap ("http " +:+ method +:+ " request failed: " +:+ Error err) err)
          | Ok res => Ok res
          end
      end
  end.

Definition handleListTools (s : toolServer.t) : Response.t :=
  writeJSON (toolsBody (toolServer.tools s)) StatusOK.

(** [handleCallTool]; [body] is what decoding the request body gave. *)
Definition handleCallTool (s : toolServer.t) (body : result toolCallRequest.t)
    : Response.t :=
  match body with
  | Err err => writeError StatusBadRequest err
  | Ok req =>
      match lookupTool s (toolCallRequest.Name req) with
      | Err err => writeError StatusNotFound err
      | Ok def =>
          match extractString (toolCallRequest.Arguments req) "url" with
          | Err err => writeError StatusBadRequest err
          | Ok target =>
              match executeHTTPRequest (toolDefinition.Method def) target
                      (toolCallRequest.Arguments req) with
              | Err err => writeError StatusBadRequest err
              | Ok res => writeJSON (callBody (toolCallRequest.Name req) res) StatusOK
              end
          end
      end
  end.

End Handlers.

End httptools.

(** ** Sample peers and library stand-ins used by the examples *)
Module Samples.
Import discovery.

Definition peer (text : gmap string string) : ServerInfo.t :=
  ServerInfo.mk "alpha" "alpha.local." 8080 "10.0.0.5:8080" "tool" 0 text.

Definition peer_https : ServerInfo.t := peer {[ "scheme" := "https" ]}.
Definition peer_blank_scheme : ServerInfo.t := peer {[ "scheme" := "  " ]}.
Definition peer_padded_scheme : ServerInfo.t := peer {[ "scheme" := " https " ]}.
Definition peer_url : ServerInfo.t :=
  peer {[ "url" := "https://peer.example:9443/base?tenant=a" ]}.

(** What [url.Parse] gives for the URL of [peer_url]. *)
Definition sample_base : mcp.URL.t :=
  mcp.URL.mk "https" "" None "peer.example:9443" "/base" "" "tenant=a" "".

(** A parser that knows the URL of [peer_url] only, and a printer for URLs
    with a scheme, a host, a path and a query. *)
Definition sample_Parse (s : string) : result mcp.URL.t :=
  if decide (s = "https://peer.example:9443/base?tenant=a") then Ok sample_base
  else Err (Fresh "parse error").

Definition sample_String (u : mcp.URL.t) : string :=
  mcp.URL.Scheme u +:+ "://" +:+ mcp.URL.Host u +:+ mcp.URL.Path u +:+
  (if decide (mcp.URL.RawQuery u = "") then "" else "?" +:+ mcp.URL.RawQuery u).

Definition sample_Quote (s : string) : string := "'" +:+ s +:+ "'".

(** Three peers: [alpha] lists [ping] twice, [Alpha ] (same slug as [alpha])
    lists [ping] and [run], and the agent wrapper [beta] lists [run]. *)
Definition ping : mcp.ToolDefinition.t := mcp.ToolDefinition.mk "ping" "Replies pong." None.
Definition run_job : mcp.ToolDefinition.t := mcp.ToolDefinition.mk "run" "Runs a job." None.

Definition peer_alpha : ServerInfo.t :=
  ServerInfo.mk "alpha" "alpha.local." 8080 "10.0.0.5:8080" "tool" 0 ∅.
Definition peer_Alpha : ServerInfo.t :=
  ServerInfo.mk "Alpha " "alpha2.local." 8080 "10.0.0.6:8080" "tool" 0 ∅.
Definition peer_beta : ServerInfo.t :=
  ServerInfo.mk "beta" "beta.local." 8081 "10.0.0.7:8081" "agent-wrapper" 0 ∅.

Definition sample_servers : list ServerInfo.t := [peer_beta; peer_Alpha; peer_alpha].

Definition sample_ListTools (client : mcp.Client.t) (srv : ServerInfo.t)
    : result (list mcp.ToolDefinition.t) :=
  if decide (ServerInfo.Instance srv = "alpha") then Ok [ping; ping]
  else if decide (ServerInfo.Instance srv = "Alpha ") then Ok [ping; run_job]
  else if decide (ServerInfo.Instance srv = "beta") then Ok [run_job]
  else Err (Fresh "list tools: connection refused").

(** The orchestrator's mediator, as its command builds it. *)
Definition sample_mediator : mediator.Mediator.t :=
  mediator.New
    (mediator.Options.mk "" "llama3" [ServerKindTool; ServerKindAgentWrapper] None
       (Some (openai.Client.mk "http://ollama:11434/v1" "ollama"))).

(** A request without a model, and a well-formed one. *)
Definition request_no_model : types.ChatCompletionRequest.t :=
  types.ChatCompletionRequest.mk "" [types.ChatMessage.mk "user" "hi" ""]
    None false None None [] "".

Definition request_hi : types.ChatCompletionRequest.t :=
  types.ChatCompletionRequest.mk "go-agent-1" [types.ChatMessage.mk "user" "hi" ""]
    None false None None [] "".

(** An upstream that first calls [alpha__ping__2] and then answers [done]
    with a second choice and its own model label. *)
Definition completion_call : openai.ChatCompletion.t :=
  openai.ChatCompletion.mk "cmpl-1" "chat.completion" 1700000000 "llama3:8b"
    [openai.Choice.mk 0 "tool_calls"
       (openai.ChatCompletionMessage.mk "assistant" ""
          [openai.ToolCall.mk "call-1" (openai.ToolCallFunction.mk "alpha__ping__2" "")])]
    (openai.CompletionUsage.mk 10 2 12).

Definition completion_done : openai.ChatCompletion.t :=
  openai.ChatCompletion.mk "cmpl-2" "chat.completion" 1700000001 "llama3:8b"
    [openai.Choice.mk 0 "stop" (openai.ChatCompletionMessage.mk "assistant" "done" []);
     openai.Choice.mk 1 "stop" (openai.ChatCompletionMessage.mk "assistant" "other" [])]
    (openai.CompletionUsage.mk 20 1 21).

Definition sample_Completions (n : nat) (params : openai.ChatCompletionNewParams.t)
    : result (option openai.ChatCompletion.t) :=
  match n with
  | O => Ok (Some completion_call)
  | _ => Ok (Some completion_done)
  end.

Definition sample_CallTool (client : mcp.Client.t) (srv : ServerInfo.t) (tool : string)
    (args : object) : result mcp.CallResult.t :=
  Ok (mcp.CallResult.mk tool (Some [("pong", JBool true)])).

Definition sample_Unmarshal (s : string) : result object :=
  Err (Fresh "unexpected end of JSON input").

Definition sample_Marshal (p : mediator.toolPayload.t) : string :=
  "{tool:" +:+ mediator.toolPayload.tool p +:+ ",server:" +:+
  mediator.toolPayload.server p +:+ "}".

(** The turn of [request_hi] against the sample snapshot and upstream, and
    the response it ends with. *)
Definition sample_turn :
    list openai.ChatCompletionNewParams.t * run (result types.ChatCompletionResponse.t) :=
  mediator.HandleChat sample_ListTools sample_CallTool sample_Completions
    sample_Unmarshal sample_Marshal 5 sample_mediator sample_servers request_hi.

Definition sample_response : types.ChatCompletionResponse.t :=
  types.ChatCompletionResponse.mk "cmpl-2" "chat.completion" 1700000001 "go-agent-1"
    [types.Choice.mk 0 "stop" (types.AssistantMessage.mk "assistant" "done")]
    (types.Usage.mk 20 1 21).

(** An upstream that answers [hello] at once, and requests for another
    model and for a stream. *)
Definition completion_hello : openai.ChatCompletion.t :=
  openai.ChatCompletion.mk "cmpl-0" "chat.completion" 1700000000 "llama3:8b"
    [openai.Choice.mk 0 "stop" (openai.ChatCompletionMessage.mk "assistant" "hello" [])]
    (openai.CompletionUsage.mk 1 1 2).

Definition hello_Completions (n : nat) (params : openai.ChatCompletionNewParams.t)
    : result (option openai.ChatCompletion.t) :=
  Ok (Some completion_hello).

Definition request_other_model : types.ChatCompletionRequest.t :=
  types.ChatCompletionRequest.mk "other" [types.ChatMessage.mk "user" "hi" ""]
    None false None None [] "".

Definition request_stream : types.ChatCompletionRequest.t :=
  types.ChatCompletionRequest.mk "go-agent-1" [types.ChatMessage.mk "user" "hi" ""]
    None true None None [] "".

(** Stand-ins for the libraries of the tool server: every URL parses, every
    request can be built, and the target answers 200. *)
Definition sample_ParseRequestURI (target : string) : option error := None.
Definition sample_NewRequest (method target : string) : option error := None.
Definition sample_Do (method target : string) (headers : list (string * string))
    (body : option string) : result httptools.httpToolResult.t :=
  Ok (httptools.httpToolResult.mk 200 "200 OK" [] "ok").

(** A call of a tool the server does not register. *)
Definition call_http_head : httptools.toolCallRequest.t :=
  httptools.toolCallRequest.mk "http_head" (Some [("url", JString "http://example.com/")]).

End Samples.
Import Samples.

(** ** The registry of package [discovery]: snapshot, subscribers, events *)
Module registry.
Import discovery.

Definition EventAdded : string := "added".
Definition EventUpdated : string := "updated".
Definition EventRemoved : string := "removed".

(** An event; [Server = None] is the nil record. *)
Module Event.
Record t : Type := mk { Type_ : string; Server : option ServerInfo.t }.
End Event.

Module Options.
Record t : Type := mk {
  Service : string;
  Domain : string;
  EntryTTL : Z;
  PruneInterval : Z
}.
End Options.

Definition Second : Z := 1000000000.
Definition defaultService : string := "_mcp-http._tcp".
Definition defaultDomain : string := "local.".
Definition defaultEntryTTL : Z := 45 * Second.
Definition defaultPruneInterval : Z := 15 * Second.

Definition withDefaults (o : Options.t) : Options.t :=
  Options.mk
    (if decide (Options.Service o = "") then defaultService else Options.Service o)
    (if decide (Options.Domain o = "") then defaultDomain else Options.Domain o)
    (if decide (Options.EntryTTL o = 0) then defaultEntryTTL else Options.EntryTTL o)
    (if decide (Options.PruneInterval o = 0) then defaultPruneInterval
     else Options.PruneInterval o).

(** A subscriber channel: its buffer size and the events not yet read. *)
Module Chan.
Record t : Type := mk { cap : nat; queue : list Event.t }.
End Chan.

(** The registry: the current snapshot and the subscriber channels, keyed by
    the identity of the channel.  Instants and durations are in nanoseconds. *)
Module Discovery.
Record t : Type := mk {
  opts : Options.t;
  snapshot : gmap string ServerInfo.t;
  subscribers : gmap positive Chan.t
}.
End Discovery.

Definition New (opts : Options.t) : Discovery.t :=
  Discovery.mk (withDefaults opts) ∅ ∅.

(** [cloneServerInfo] and [cloneServers] copy records; values are their
    own copies here. *)
Definition ServersSnapshot (d : Discovery.t) : gmap string ServerInfo.t :=
  Discovery.snapshot d.

(** [Subscribe]: a channel of [buffer] slots, one when [buffer] is not
    positive; it returns the new channel. *)
Definition Subscribe (buffer : Z) (d : Discovery.t) : positive * Discovery.t :=
  let buffer := if decide (buffer ≤ 0) then 1 else buffer in
  let ch := fresh (dom (Discovery.subscribers d)) in
  (ch, Discovery.mk (Discovery.opts d) (Discovery.snapshot d)
         (<[ch := Chan.mk (Z.to_nat buffer) []]> (Discovery.subscribers d))).

Definition Unsubscribe (ch : positive) (d : Discovery.t) : Discovery.t :=
  Discovery.mk (Discovery.opts d) (Discovery.snapshot d)
    (delete ch (Discovery.subscribers d)).

(** The [select] of [broadcast] on one channel: the event is queued when a
    slot is free and dropped otherwise. *)
Definition trySend (event : Event.t) (c : Chan.t) : Chan.t :=
  if decide (length (Chan.queue c) < Chan.cap c)%nat
  then Chan.mk (Chan.cap c) (Chan.queue c ++ [event])
  else c.

Definition broadcast (event : Event.t) (subscribers : gmap positive Chan.t)
    : gmap positive Chan.t :=
  match Event.Server event with
  | None => subscribers
  | Some _ => trySend event <$> subscribers
  end.

(** [observe] of a browse entry at time [now], through [updateSnapshot]. *)
Definition observeEntry (now : Z) (entry : ServiceEntry.t) (d : Discovery.t) : Discovery.t :=
  let srv := observe now entry in
  let current := Discovery.snapshot d in
  let clone := <[ServiceEntry.Instance entry := srv]> current in
  let subscribers :=
    match current !! ServiceEntry.Instance entry with
    | Some _ => broadcast (Event.mk EventUpdated (Some srv)) (Discovery.subscribers d)
    | None => broadcast (Event.mk EventAdded (Some srv)) (Discovery.subscribers d)
    end in
  Discovery.mk (Discovery.opts d) clone subscribers.

(** [consumeEntries] for one received entry; a nil entry is skipped. *)
Definition consumeEntry (now : Z) (entry : option ServiceEntry.t) (d : Discovery.t)
    : Discovery.t :=
  match entry with
  | None => d
  | Some entry => observeEntry now entry d
  end.

(** The loop of [pruneStale] over the entries of the clone, in the order
    [range] visits them. *)
Fixpoint pruneLoop (threshold : Z) (entries : list (string * ServerInfo.t))
    (clone : gmap string ServerInfo.t) (subscribers : gmap positive Chan.t)
    : gmap string ServerInfo.t * gmap positive Chan.t :=
  match entries with
  | [] => (clone, subscribers)
  | (key, info) :: rest =>
      if decide (ServerInfo.LastSeen info < threshold)
      then pruneLoop threshold rest (delete key clone)
             (broadcast (Event.mk EventRemoved (Some info)) subscribers)
      else pruneLoop threshold rest clone subscribers
  end.

(** [pruneStale] at time [now]; the order of [range] is taken to be that of
    [map_to_list]. *)
Definition pruneStale (now : Z) (d : Discovery.t) : Discovery.t :=
  let threshold := now - Options.EntryTTL (Discovery.opts d) in
  let current := Discovery.snapshot d in
  if decide (size current = 0%nat) then d
  else
    let '(clone, subscribers) :=
      pruneLoop threshold (map_to_list current) current (Discovery.subscribers d) in
    Discovery.mk (Discovery.opts d) clone subscribers.

(** The records [pruneStale] removes at [threshold], in visiting order. *)
Definition staleEntries (threshold : Z) (snapshot : gmap string ServerInfo.t)
    : list (string * ServerInfo.t) :=
  filter (λ kv, ServerInfo.LastSeen kv.2 < threshold) (map_to_list snapshot).

(** Every record is stored under its own instance name. *)
Definition wellKeyed (snapshot : gmap string ServerInfo.t) : Prop :=
  ∀ key info, snapshot !! key = Some info → ServerInfo.Instance info = key.

(** *** A subscriber's view (the event handlers of the orchestrator) *)

Definition handleAgentWrapperEvent (state : gmap string ServerInfo.t)
    (eventType : string) (info : ServerInfo.t) : gmap string ServerInfo.t :=
  if decide (eventType = EventAdded) then <[ServerInfo.Instance info := info]> state
  else if decide (eventType = EventUpdated) then <[ServerInfo.Instance info := info]> state
  else if decide (eventType = EventRemoved) then delete (ServerInfo.Instance info) state
  else state.

(** The state change of [handleToolEvent]; listing the tools of a new server
    leaves the state alone. *)
Definition handleToolEvent (state : gmap string ServerInfo.t)
    (eventType : string) (info : ServerInfo.t) : gmap string ServerInfo.t :=
  if decide (eventType = EventAdded) then <[ServerInfo.Instance info := info]> state
  else if decide (eventType = EventUpdated) then <[ServerInfo.Instance info := info]> state
  else if decide (eventType = EventRemoved) then delete (ServerInfo.Instance info) state
  else state.

Definition handleGenericEvent (state : gmap string ServerInfo.t)
    (eventType : string) (info : ServerInfo.t) : gmap string ServerInfo.t :=
  if decide (eventType = EventAdded) then <[ServerInfo.Instance info := info]> state
  else if decide (eventType = EventUpdated) then <[ServerInfo.Instance info := info]> state
  else if decide (eventType = EventRemoved) then delete (ServerInfo.Instance info) state
  else state.

Definition handleEvent (state : gmap string ServerInfo.t) (evt : Event.t)
    : gmap string ServerInfo.t :=
  match Event.Server evt with
  | None => state
  | Some info =>
      if decide (ServerInfo.Kind info = ServerKindAgentWrapper)
      then handleAgentWrapperEvent state (Event.Type_ evt) info
      else if decide (ServerInfo.Kind info = ServerKindTool)
      then handleToolEvent state (Event.Type_ evt) info
      else handleGenericEvent state (Event.Type_ evt) info
  end.

(** The counters of [logSummary]; [infos] are the records of the state in
    the order [range] visits them. *)
Fixpoint summaryCounts (infos : list ServerInfo.t) (agentWrappers tools other : Z)
    : Z * Z * Z :=
  match infos with
  | [] => (agentWrappers, tools, other)
  | info :: rest =>
      if decide (ServerInfo.Kind info = ServerKindAgentWrapper)
      then summaryCounts rest (int_wrap (agentWrappers + 1)) tools other
      else if decide (ServerInfo.Kind info = ServerKindTool)
      then summaryCounts rest agentWrappers (int_wrap (tools + 1)) other
      else summaryCounts rest agentWrappers tools (int_wrap (other + 1))
  end.

Definition logSummary (state : gmap string ServerInfo.t) : Z * Z * Z * Z :=
  if decide (size state = 0%nat) then (0, 0, 0, 0)
  else
    let '(agentWrappers, tools, other) :=
      summaryCounts ((map_to_list state).*2) 0 0 0 in
    (Z.of_nat (size state), agentWrappers, tools, other).

(** A subscriber that has drained its channel holds the snapshot. *)
Definition synced (d : Discovery.t) (ch : positive) (state : gmap string ServerInfo.t) : Prop :=
  ∃ c, Discovery.subscribers d !! ch = Some c
       ∧ foldl handleEvent state (Chan.queue c) = Discovery.snapshot d.

(** What happens to a registry: a received browse entry, a tick of the prune
    timer, a subscription, an unsubscription. *)
Inductive action : Type :=
| Observe (now : Z) (entry : option ServiceEntry.t)
| Prune (now : Z)
| DoSubscribe (buffer : Z)
| DoUnsubscribe (ch : positive).

Definition step (d : Discovery.t) (a : action) : Discovery.t :=
  match a with
  | Observe now entry => consumeEntry now entry d
  | Prune now => pruneStale now d
  | DoSubscribe buffer => (Subscribe buffer d).2
  | DoUnsubscribe ch => Unsubscribe ch d
  end.

Definition steps (d : Discovery.t) (actions : list action) : Discovery.t :=
  foldl step d actions.

(** The number of events an action broadcasts. *)
Definition emitted (d : Discovery.t) (a : action) : nat :=
  match a with
  | Observe _ (Some _) => 1
  | Prune now =>
      length (staleEntries (now - Options.EntryTTL (Discovery.opts d))
                (Discovery.snapshot d))
  | _ => 0
  end.

(** A well-formed event: it carries a record and one of the three types. *)
Definition eventOk (evt : Event.t) : Prop :=
  is_Some (Event.Server evt)
  ∧ (Event.Type_ evt = EventAdded ∨ Event.Type_ evt = EventUpdated
     ∨ Event.Type_ evt = EventRemoved).

(** What every reachable registry satisfies. *)
Definition registryInv (d : Discovery.t) : Prop :=
  wellKeyed (Discovery.snapshot d)
  ∧ ∀ ch c, Discovery.subscribers d !! ch = Some c →
      (1 ≤ Chan.cap c)%nat ∧ (length (Chan.queue c) ≤ Chan.cap c)%nat
      ∧ Forall eventOk (Chan.queue c).

End registry.

(** ** Predicates on strings used to state properties *)
Module StringSpec.

(** Some byte of the string is not white space. *)
Fixpoint hasNonSpace (s : string) : bool :=
  match s with
  | EmptyString => false
  | String a s' => negb (isSpace a) || hasNonSpace s'
  end.

(** A key-value pair the TXT wire format carries unchanged: the key has no
    white space at its ends, is not empty and holds no ['=']; the value has no
    white space at its ends. *)
Definition wireSafe (k v : string) : Prop :=
  TrimSpace k = k ∧ k ≠ "" ∧ ContainsByte k "=" = false ∧ TrimSpace v = v.

End StringSpec.
Import StringSpec.

(** ** Samples used by the examples on the registry *)
Module RegistrySamples.
Import discovery registry.

Definition entry_alpha : ServiceEntry.t :=
  ServiceEntry.mk "alpha" "alpha.local." 8080 ["10.0.0.5"] [] ["role=tool"; "scheme=http"].

(** A new registry with one subscriber of two slots. *)
Definition registry_one_subscriber : Discovery.t :=
  (Subscribe 2 (New (Options.mk "" "" 0 0))).2.

Definition channel_one : positive := (Subscribe 2 (New (Options.mk "" "" 0 0))).1.

End RegistrySamples.
Import RegistrySamples.

(** ** Package [mcp]: the two exchanges of the client *)
Module mcpclient.
Import discovery mcp.

(** An HTTP request as the client builds it; [ContentType] is empty when the
    header is not set, [Body = None] is the nil body. *)
Module Request.
Record t : Type := mk {
  Method : string;
  URL : string;
  ContentType : string;
  Body : option string
}.
End Request.

Module Response.
Record t : Type := mk { StatusCode : Z; Status : string; Body : string }.
End Response.

(** [io.ReadAll(io.LimitReader(body, n))]: the first [n] bytes. *)
Fixpoint readLimited (n : nat) (body : string) : string :=
  match n, body with
  | S n', String a rest => String a (readLimited n' rest)
  | _, _ => ""
  end.

Section Exchange.
(** The libraries and the network: URL parsing and printing, the validity
    check of [http.NewRequestWithContext], the round trip, and the JSON
    codec for the two payloads. *)
Variable url_Parse : string → result URL.t.
Variable URL_String : URL.t → string.
Variable Quote : string → string.
Variable http_NewRequest : string → string → option error.
Variable httpClient_Do : Client.t → Request.t → result Response.t.
Variable decodeTools : string → result (list ToolDefinition.t).
Variable decodeResult : string → result CallResult.t.
Variable json_Marshal : string → object → result string.

(** [ListTools]: the requests sent, in order, and the outcome. *)
Definition ListTools (c : Client.t) (server : option ServerInfo.t)
    : list Request.t * result (list ToolDefinition.t) :=
  match server with
  | None => ([], Err (Fresh "nil server"))
  | Some _ =>
      match buildURL url_Parse URL_String Quote server "/tools/list" with
      | Err err => ([], Err err)
      | Ok endpoint =>
          match http_NewRequest "GET" endpoint with
          | Some err => ([], Err (Wrap ("build request: " +:+ Error err) err))
          | None =>
              let req := Request.mk "GET" endpoint "" None in
              match httpClient_Do c req with
              | Err err => ([req], Err (Wrap ("list tools: " +:+ Error err) err))
              | Ok resp =>
                  if decide (Response.StatusCode resp ≠ StatusOK)
                  then ([req],
                        Err (Fresh ("list tools failed: " +:+ Response.Status resp +:+ " (" +:+
                                    TrimSpace (readLimited 1024 (Response.Body resp)) +:+ ")")))
                  else match decodeTools (Response.Body resp) with
                       | Err err => ([req], Err (Wrap ("decode tools: " +:+ Error err) err))
                       | Ok tools => ([req], Ok tools)
                       end
              end
          end
      end
  end.

(** [CallTool]: the requests sent, in order, and the outcome. *)
Definition CallTool (c : Client.t) (server : option ServerInfo.t) (tool : string)
    (arguments : object) : list Request.t * result CallResult.t :=
  match server with
  | None => ([], Err (Fresh "nil server"))
  | Some _ =>
      if decide (TrimSpace tool = "") then ([], Err (Fresh "tool name is required"))
      else
        match buildURL url_Parse URL_String Quote server "/tools/call" with
        | Err err => ([], Err err)
        | Ok endpoint =>
            match json_Marshal tool arguments with
            | Err err => ([], Err (Wrap ("encode request: " +:+ Error err) err))
            | Ok buf =>
                match http_NewRequest "POST" endpoint with
                | Some err => ([], Err (Wrap ("build request: " +:+ Error err) err))
                | None =>
                    let req := Request.mk "POST" endpoint "application/json" (Some buf) in
                    match httpClient_Do c req with
                    | Err err => ([req], Err (Wrap ("call tool: " +:+ Error err) err))
                    | Ok resp =>
                        if decide (Response.StatusCode resp ≠ StatusOK)
                        then ([req],
                              Err (Fresh ("call tool failed: " +:+ Response.Status resp +:+
                                          " (" +:+
                                          TrimSpace (readLimited 2048 (Response.Body resp)) +:+
                                          ")")))
                        else match decodeResult (Response.Body resp) with
                             | Err err =>
                                 ([req], Err (Wrap ("decode response: " +:+ Error err) err))
                             | Ok result => ([req], Ok result)
                             end
                    end
                end
            end
        end
  end.

End Exchange.

End mcpclient.

(** ** Package [config] (flags and environment) *)
Module config.

Definition RoleOrchestrator : string := "orchestrator".
Definition RoleAgentWrapper : string := "agent-wrapper".

Module Config.
Record t : Type := mk {
  Port : Z;
  BackendModel : string;
  APIModel : string;
  BaseURL : string;
  APIKey : string;
  Advertise : bool;
  Instance : string;
  Role : string;
  Description : string
}.
End Config.

Definition defaultPort : Z := 8080.
Definition defaultAPIModel : string := "go-agent-1".
Definition defaultBaseURL : string := "http://ollama:11434/v1".
Definition defaultAPIKey : string := "ollama".

Module loadDefaults.
Record t : Type := mk { role : string; advertise : bool }.
End loadDefaults.

(** What the command line gives for each flag; [None] is a flag that was
    not passed, which then holds its default. *)
Module Flags.
Record t : Type := mk {
  model : option string;
  apiModel : option string;
  port : option Z;
  baseURL : option string;
  advertise : option bool;
  instance : option string;
  role : option string;
  description : option string;
  apiKey : option string
}.
End Flags.

(** [strconv.ParseBool]; [None] is its error. *)
Definition ParseBool (str : string) : option bool :=
  if bool_decide (str ∈ ["1"; "t"; "T"; "TRUE"; "true"; "True"]) then Some true
  else if bool_decide (str ∈ ["0"; "f"; "F"; "FALSE"; "false"; "False"]) then Some false
  else None.

(** [strings.TrimRight(s, "/")]. *)
Fixpoint TrimRightSlash (s : string) : string :=
  match s with
  | EmptyString => EmptyString
  | String a s' =>
      match TrimRightSlash s' with
      | EmptyString => if decide (a = "/"%char) then EmptyString else String a EmptyString
      | r => String a r
      end
  end.

Fixpoint firstNonEmpty (values : list string) : string :=
  match values with
  | [] => ""
  | v :: rest => if decide (TrimSpace v ≠ "") then TrimSpace v else firstNonEmpty rest
  end.

(** The configuration of a stand-alone tool server. *)

Module ToolConfig.
Record t : Type := mk { Port : Z; Advertise : bool; Instance : string; Role : string }.
End ToolConfig.

Definition defaultToolRole : string := "tool".

Module ToolFlags.
Record t : Type := mk {
  port : option Z;
  advertise : option bool;
  instance : option string;
  role : option string
}.
End ToolFlags.

Section Environment.
(** The process environment, the host name and [strconv.Atoi]. *)
Variable Getenv : string → string.
Variable os_Hostname : result string.
Variable Atoi : string → result Z.

Definition resolvePort (flagValue : Z) (envValue : string) (fallback : Z) : Z :=
  if decide (0 < flagValue) then flagValue
  else
    let fromEnv :=
      if decide (envValue ≠ "") then
        match Atoi envValue with
        | Ok port => if decide (0 < port) then Some port else None
        | Err _ => None
        end
      else None in
    match fromEnv with
    | Some port => port
    | None => if decide (0 < fallback) then fallback else defaultPort
    end.

Definition deriveHostname : string :=
  match os_Hostname with
  | Ok hostname => if decide (TrimSpace hostname ≠ "") then hostname else "mcp-agent"
  | Err _ => "mcp-agent"
  end.

(** [load]; [args] is what parsing the command line gave. *)
Definition load (defaults : loadDefaults.t) (args : result Flags.t) : result Config.t :=
  let agentModelDefault := TrimSpace (Getenv "AGENT_MODEL") in
  let defaultAPIModelValue :=
    if decide (TrimSpace (Getenv "API_MODEL") ≠ "") then TrimSpace (Getenv "API_MODEL")
    else defaultAPIModel in
  let defaultBaseURLValue :=
    if decide (TrimSpace (Getenv "BASE_URL") ≠ "") then TrimSpace (Getenv "BASE_URL")
    else if decide (TrimSpace (Getenv "OLLAMA_HOST") ≠ "")
    then TrimSpace (Getenv "OLLAMA_HOST")
    else defaultBaseURL in
  let defaultAPIKeyValue := TrimSpace (Getenv "API_KEY") in
  let defaultAPIKeyValue :=
    if decide (defaultAPIKeyValue = "") then TrimSpace (Getenv "OPENAI_API_KEY")
    else defaultAPIKeyValue in
  let defaultAPIKeyValue :=
    if decide (defaultAPIKeyValue = "") then defaultAPIKey else defaultAPIKeyValue in
  let defaultRole :=
    if decide (TrimSpace (Getenv "ROLE") ≠ "") then TrimSpace (Getenv "ROLE")
    else loadDefaults.role defaults in
  let defaultRole := if decide (defaultRole = "") then RoleOrchestrator else defaultRole in
  let defaultAdvertise :=
    if decide (TrimSpace (Getenv "ADVERTISE") ≠ "") then
      match ParseBool (TrimSpace (Getenv "ADVERTISE")) with
      | Some val => val
      | None => loadDefaults.advertise defaults
      end
    else loadDefaults.advertise defaults in
  let defaultInstance :=
    if decide (TrimSpace (Getenv "INSTANCE_NAME") ≠ "")
    then TrimSpace (Getenv "INSTANCE_NAME")
    else deriveHostname in
  let defaultDescription := TrimSpace (Getenv "DESCRIPTION") in
  match args with
  | Err err => Err err
  | Ok flags =>
      let modelFlag := default agentModelDefault (Flags.model flags) in
      let apiModelFlag := default defaultAPIModelValue (Flags.apiModel flags) in
      let portFlag := default 0 (Flags.port flags) in
      let baseURLFlag := default defaultBaseURLValue (Flags.baseURL flags) in
      let advertiseFlag := default defaultAdvertise (Flags.advertise flags) in
      let instanceFlag := default defaultInstance (Flags.instance flags) in
      let roleFlag := default defaultRole (Flags.role flags) in
      let descriptionFlag := default defaultDescription (Flags.description flags) in
      let apiKeyFlag := default defaultAPIKeyValue (Flags.apiKey flags) in
      let backendModel := firstNonEmpty [modelFlag; agentModelDefault] in
      if decide (backendModel = "")
      then Err (Fresh "base model is required (pass --model or set AGENT_MODEL)")
      else
        let apiModel := TrimSpace apiModelFlag in
        let apiModel := if decide (apiModel = "") then defaultAPIModel else apiModel in
        let port := resolvePort portFlag (Getenv "PORT") defaultPort in
        let baseURL := TrimRightSlash (TrimSpace baseURLFlag) in
        let baseURL := if decide (baseURL = "") then defaultBaseURL else baseURL in
        let instance := TrimSpace instanceFlag in
        let instance := if decide (instance = "") then deriveHostname else instance in
        let role := TrimSpace roleFlag in
        let role := if decide (role = "") then defaultRole else role in
        let apiKey := TrimSpace apiKeyFlag in
        let apiKey := if decide (apiKey = "") then defaultAPIKey else apiKey in
        Ok (Config.mk port backendModel apiModel baseURL apiKey advertiseFlag instance
              role (TrimSpace descriptionFlag))
  end.

Definition LoadOrchestrator (args : result Flags.t) : result Config.t :=
  load (loadDefaults.mk RoleOrchestrator false) args.

Definition LoadWrapper (args : result Flags.t) : result Config.t :=
  load (loadDefaults.mk RoleAgentWrapper true) args.

(** [LoadToolServer]; [args] is what parsing the command line gave. *)
Definition LoadToolServer (args : result ToolFlags.t) : result ToolConfig.t :=
  let defaultAdvertise :=
    if decide (TrimSpace (Getenv "ADVERTISE") ≠ "") then
      match ParseBool (TrimSpace (Getenv "ADVERTISE")) with
      | Some val => val
      | None => true
      end
    else true in
  let defaultInstance :=
    if decide (TrimSpace (Getenv "INSTANCE_NAME") ≠ "")
    then TrimSpace (Getenv "INSTANCE_NAME")
    else deriveHostname in
  let defaultRole :=
    if decide (TrimSpace (Getenv "ROLE") ≠ "") then TrimSpace (Getenv "ROLE")
    else defaultToolRole in
  match args with
  | Err err => Err err
  | Ok flags =>
      let portFlag := default 0 (ToolFlags.port flags) in
      let advertiseFlag := default defaultAdvertise (ToolFlags.advertise flags) in
      let instanceFlag := default defaultInstance (ToolFlags.instance flags) in
      let roleFlag := default defaultRole (ToolFlags.role flags) in
      let instance := TrimSpace instanceFlag in
      let instance := if decide (instance = "") then deriveHostname else instance in
      let role := TrimSpace roleFlag in
      let role := if decide (role = "") then defaultToolRole else role in
      Ok (ToolConfig.mk (resolvePort portFlag (Getenv "PORT") defaultPort) advertiseFlag
            instance role)
  end.

End Environment.

End config.

(** ** The agent wrapper's tool server (command [agent-child]) *)
Module agentchild.

Module agentToolCallRequest.
Record t : Type := mk { Prompt : string; Messages : list types.ChatMessage.t }.
End agentToolCallRequest.

Module agentToolServer.
Record t : Type := mk {
  cfg : config.Config.t;
  toolName : string;
  description : string;
  parameters : object
}.
End agentToolServer.

Definition replacer : Replacer := [(" ", "_"); ("-", "_"); (".", "_")]%char.

Definition sanitizeToolName (instance : string) : string :=
  let s := ToLower (TrimSpace instance) in
  if decide (s = "") then "agent_wrapper"
  else "agent_" +:+ Replace replacer s.

Definition newAgentToolServer (cfg : config.Config.t) : agentToolServer.t :=
  agentToolServer.mk cfg (sanitizeToolName (config.Config.Instance cfg))
    (TrimSpace (config.Config.Description cfg))
    (Some
       [("type", JString "object");
        ("properties",
          JObject
            [("prompt",
               JObject [("type", JString "string");
                        ("description",
                          JString "Primary user prompt to send to the agent.")]);
             ("messages",
               JObject
                 [("type", JString "array");
                  ("description",
                    JString "Optional chat history as an array of {role, content}.");
                  ("items",
                    JObject
                      [("type", JString "object");
                       ("properties",
                         JObject
                           [("role",
                              JObject
                                [("type", JString "string");
                                 ("description",
                                   JString "Role of the message (system, user, assistant).")]);
                            ("content",
                              JObject [("type", JString "string");
                                       ("description", JString "Message text.")])]);
                       ("required", JArray [JString "role"; JString "content"])])])]);
        ("required", JArray [JString "prompt"])]).

Definition convertChatMessage (msg : types.ChatMessage.t) : openai.MessageParam :=
  let role := ToLower (types.ChatMessage.Role msg) in
  let content := types.ChatMessage.Content msg in
  if decide (role = "system") then openai.SystemMessage content
  else if decide (role = "assistant") then openai.AssistantMessage content []
  else if decide (role = "user") then openai.UserMessage content
  else openai.UserMessage content.

Definition convertChatMessages (msgs : list types.ChatMessage.t) : list openai.MessageParam :=
  convertChatMessage <$> msgs.

Definition buildAgentToolMessages (description : string)
    (history : list types.ChatMessage.t) (prompt : string) : list openai.MessageParam :=
  let result :=
    if decide (TrimSpace description ≠ "") then [openai.SystemMessage description]
    else [] in
  let result := result ++ convertChatMessages history in
  if decide (TrimSpace prompt ≠ "") then result ++ [openai.UserMessage prompt]
  else result.

(** The [result] object of a successful call. *)
Module callResult.
Record t : Type := mk {
  content : string;
  model : string;
  prompt_tokens : Z;
  completion_tokens : Z;
  total_tokens : Z;
  messages_submitted : Z
}.
End callResult.

(** The payload a handler writes. *)
Inductive payload : Type :=
| errorBody (message : string) (code : Z)
| statusBody (status : string)
| toolsBody (tools : list mcp.ToolDefinition.t)
| callBody (tool : string) (result : callResult.t).

Module Response.
Record t : Type := mk { Status : Z; Body : payload }.
End Response.

Definition writeJSON (body : payload) (status : Z) : Response.t := Response.mk status body.

Definition writeError (status : Z) (err : error) : Response.t :=
  writeJSON (errorBody (Error err) status) status.

Definition handleHealthz : Response.t := writeJSON (statusBody "ok") StatusOK.

Definition handleListTools (s : agentToolServer.t) : Response.t :=
  writeJSON
    (toolsBody
       [mcp.ToolDefinition.mk (agentToolServer.toolName s) (agentToolServer.description s)
          (agentToolServer.parameters s)])
    StatusOK.

Section Upstream.
(** The provider behind the agent. *)
Variable Completions_New :
  openai.ChatCompletionNewParams.t → result (option openai.ChatCompletion.t).

(** [handleCallTool]: the requests submitted to the provider and the
    response written; [body] is what decoding the request body gave. *)
Definition handleCallTool (s : agentToolServer.t) (body : result agentToolCallRequest.t)
    : list openai.ChatCompletionNewParams.t * Response.t :=
  match body with
  | Err err => ([], writeError StatusBadRequest err)
  | Ok req =>
      if decide (TrimSpace (agentToolCallRequest.Prompt req) = "" ∧
                 length (agentToolCallRequest.Messages req) = 0%nat)
      then ([], writeError StatusBadRequest (Fresh "prompt or messages are required"))
      else
        let backend := config.Config.BackendModel (agentToolServer.cfg s) in
        let params :=
          openai.ChatCompletionNewParams.mk backend
            (buildAgentToolMessages (agentToolServer.description s)
               (agentToolCallRequest.Messages req) (agentToolCallRequest.Prompt req))
            None in
        match Completions_New params with
        | Err err => ([params], writeError StatusInternalServerError err)
        | Ok None =>
            ([params],
             writeError StatusInternalServerError (Fresh "empty response from provider"))
        | Ok (Some resp) =>
            match openai.ChatCompletion.Choices resp with
            | [] =>
                ([params],
                 writeError StatusInternalServerError (Fresh "empty response from provider"))
            | choice :: _ =>
                let usage := openai.ChatCompletion.Usage resp in
                ([params],
                 writeJSON
                   (callBody (agentToolServer.toolName s)
                      (callResult.mk
                         (openai.ChatCompletionMessage.Content (openai.Choice.Message choice))
                         backend
                         (openai.CompletionUsage.PromptTokens usage)
                         (openai.CompletionUsage.CompletionTokens usage)
                         (openai.CompletionUsage.TotalTokens usage)
                         (int_wrap
                            (Z.of_nat (length (agentToolCallRequest.Messages req)) + 1))))
                   StatusOK)
            end
        end
  end.

End Upstream.

End agentchild.

(** ** Package [api]: the listing endpoints *)
Module apilist.
Import discovery mediator.

Module modelDescriptor.
Record t : Type := mk { ID : string; Object : string; OwnedBy : string }.
End modelDescriptor.

(** What the listing handlers write. *)
Inductive payload : Type :=
| openAIError (err : api.openAIErrorDetails.t)
| modelsResponse (object : string) (data : list modelDescriptor.t)
| toolsResponse (object : string) (data : list ToolDescriptor.t).

Module Response.
Record t : Type := mk { Status : Z; Body : payload }.
End Response.

Definition writeError (status : Z) (err : error) : Response.t :=
  Response.mk status
    (openAIError (api.openAIErrorDetails.mk (Error err) (StatusText status))).

Definition handleModels (med : Mediator.t) : Response.t :=
  Response.mk StatusOK
    (modelsResponse "list"
       ((λ m, modelDescriptor.mk m "model" "go-agent") <$> SupportedModels med)).

Section Tools.
Variable ListTools : mcp.Client.t → ServerInfo.t → result (list mcp.ToolDefinition.t).

(** [handleTools]; [None] is a name search cut off by its bound. *)
Definition handleTools (med : Mediator.t) (servers : list ServerInfo.t)
    : option Response.t :=
  match ListToolDescriptors ListTools med servers with
  | None => None
  | Some (_, Some err) => Some (writeError StatusInternalServerError err)
  | Some (tools, None) => Some (Response.mk StatusOK (toolsResponse "list" tools))
  end.

End Tools.

End apilist.

(** ** Predicates used to state properties of the roster *)
Module rosterSpec.
Import discovery mediator.

Section Peers.
Variable ListTools : mcp.Client.t → ServerInfo.t → result (list mcp.ToolDefinition.t).

(** The peer passes the two filters of [collectTools]: its kind is allowed
    and it hosts tools. *)
Definition eligible (m : Mediator.t) (srv : ServerInfo.t) : bool :=
  negb (bool_decide ((0 < size (Mediator.allowedKinds m))%nat ∧
                     ToLower (TrimSpace (ServerInfo.Kind srv)) ∉ Mediator.allowedKinds m))
  && isToolHost srv.

(** The error of an eligible peer whose tool listing fails. *)
Definition failure (m : Mediator.t) (srv : ServerInfo.t) : option error :=
  if eligible m srv then
    match Mediator.toolClient m with
    | Some client =>
        match ListTools client srv with
        | Err err => Some err
        | Ok _ => None
        end
    | None => None
    end
  else None.

(** An eligible peer whose tool listing succeeds. *)
Definition contributes (m : Mediator.t) (srv : ServerInfo.t) : bool :=
  eligible m srv && bool_decide (failure m srv = None).

(** The failure of the last failing peer, in visiting order. *)
Definition lastFailure (m : Mediator.t) (servers : list ServerInfo.t) : option error :=
  foldl (λ acc srv, match failure m srv with Some err => Some err | None => acc end)
    None servers.

End Peers.

(** A descriptor of the tool endpoint describes a function offered to the
    model: same name, description and parameters, and the roster resolves the
    name to the descriptor's original tool name on the descriptor's server. *)
Definition describes (meta : gmap string toolMeta.t)
    (p : openai.ChatCompletionToolParam.t) (d : ToolDescriptor.t) : Prop :=
  paramName p = ToolDescriptor.Name d
  ∧ openai.FunctionDefinitionParam.Description (openai.ChatCompletionToolParam.Function p)
    = ToolDescriptor.Description d
  ∧ openai.FunctionDefinitionParam.Parameters (openai.ChatCompletionToolParam.Function p)
    = ToolDescriptor.Parameters d
  ∧ ∃ entry,
      meta !! ToolDescriptor.Name d = Some entry
      ∧ toolMeta.ToolName entry = ToolDescriptor.Original d
      ∧ toolMeta.Description entry = ToolDescriptor.Description d
      ∧ ServerInfo.Instance (toolMeta.Server entry)
        = ToolServerRef.Instance (ToolDescriptor.Server d)
      ∧ ServerInfo.Address (toolMeta.Server entry)
        = ToolServerRef.Address (ToolDescriptor.Server d).

End rosterSpec.

(** ** Predicates used to state properties of the turn loop *)
Module turnSpec.
Import discovery mediator.

Section Callable.
Variable CallTool :
  mcp.Client.t → ServerInfo.t → string → object → result mcp.CallResult.t.
Variable json_Unmarshal : string → result object.

(** What it takes for a tool call to go through: the roster knows the
    function, the arguments decode, and the peer answers. *)
Definition callable (m : Mediator.t) (meta : gmap string toolMeta.t)
    (call : openai.ToolCall.t) : Prop :=
  ∃ entry client args result,
    meta !! openai.ToolCallFunction.Name (openai.ToolCall.Function call) = Some entry
    ∧ Mediator.toolClient m = Some client
    ∧ (if decide (openai.ToolCallFunction.Arguments (openai.ToolCall.Function call) ≠ "")
       then json_Unmarshal
              (openai.ToolCallFunction.Arguments (openai.ToolCall.Function call))
       else Ok None) = Ok args
    ∧ CallTool client (toolMeta.Server entry) (toolMeta.ToolName entry) args = Ok result.

End Callable.

End turnSpec.

(** ** Samples used by the examples on the mediator *)
Module ChatSamples.
Import discovery mediator.

(** A request whose second message has no role. *)
Definition request_missing_role : types.ChatCompletionRequest.t :=
  types.ChatCompletionRequest.mk "go-agent-1"
    [types.ChatMessage.mk "user" "hi" ""; types.ChatMessage.mk "" "again" ""]
    None false None None [] "".

(** The roster entry of the tool [ping] of [peer_alpha], and a conversation
    with one call of it. *)
Definition meta_ping : gmap string toolMeta.t :=
  {[ "alpha__ping" := toolMeta.mk peer_alpha "ping" "Replies pong." "ping" ]}.

Definition call_ping : openai.ToolCall.t :=
  openai.ToolCall.mk "call-7" (openai.ToolCallFunction.mk "alpha__ping" "").

(** An upstream that asks for [alpha__ping] every time. *)
Definition completion_ping : openai.ChatCompletion.t :=
  openai.ChatCompletion.mk "cmpl-9" "chat.completion" 1700000009 "llama3:8b"
    [openai.Choice.mk 0 "tool_calls"
       (openai.ChatCompletionMessage.mk "assistant" "" [call_ping])]
    (openai.CompletionUsage.mk 1 1 2).

Definition looping_Completions (n : nat) (params : openai.ChatCompletionNewParams.t)
    : result (option openai.ChatCompletion.t) :=
  Ok (Some completion_ping).

(** A snapshot with a tool peer that does not answer, the agent wrapper
    [beta], and an orchestrator. *)
Definition peer_gamma : ServerInfo.t :=
  ServerInfo.mk "gamma" "gamma.local." 8082 "10.0.0.8:8082" "tool" 0 ∅.
Definition peer_orchestrator : ServerInfo.t :=
  ServerInfo.mk "boss" "boss.local." 8080 "10.0.0.9:8080" "orchestrator" 0 ∅.

Definition flaky_servers : list ServerInfo.t := [peer_gamma; peer_beta; peer_orchestrator].

(** A peer that answers every request with 503 and a long body. *)
Definition busy_body : string :=
  "  upstream busy  " +:+ String.concat "" (replicate 300 "0123456789").

Definition busy_Do (c : mcp.Client.t) (req : mcpclient.Request.t)
    : result mcpclient.Response.t :=
  Ok (mcpclient.Response.mk 503 "503 Service Unavailable" busy_body).

Definition sample_decodeTools (body : string) : result (list mcp.ToolDefinition.t) :=
  Ok [ping].
Definition sample_decodeResult (body : string) : result mcp.CallResult.t :=
  Ok (mcp.CallResult.mk "ping" None).
Definition sample_encodeCall (tool : string) (arguments : object) : result string :=
  Ok ("{name:" +:+ tool +:+ "}").

(** An environment that sets the model and a port that is not a number, on
    a host without a name; a command line that passes a base URL only. *)
Definition sample_Getenv (name : string) : string :=
  if decide (name = "AGENT_MODEL") then " llama3 "
  else if decide (name = "PORT") then "http"
  else if decide (name = "ROLE") then "  "
  else "".

Definition sample_Hostname : result string := Err (Fresh "hostname: not set").

Definition sample_Atoi (str : string) : result Z :=
  if decide (str = "9090") then Ok 9090
  else Err (Fresh "strconv.Atoi: invalid syntax").

Definition sample_flags : config.Flags.t :=
  config.Flags.mk None None None (Some " http://10.0.0.2:11434/v1// ") None None None None
    None.

Definition sample_tool_flags : config.ToolFlags.t :=
  config.ToolFlags.mk (Some (-1)) None (Some "  ") None.

(** An agent wrapper with a description, and a call with a prompt and one
    message of history. *)
Definition sample_agent : agentchild.agentToolServer.t :=
  agentchild.newAgentToolServer
    (config.Config.mk 8080 "llama3" "go-agent-1" "http://ollama:11434/v1" "ollama" true
       "Planner-1.local" "agent-wrapper" " Plans trips. ").

Definition sample_agent_call : agentchild.agentToolCallRequest.t :=
  agentchild.agentToolCallRequest.mk "Plan a trip."
    [types.ChatMessage.mk "user" "I like trains." ""].

Definition agent_Completions (params : openai.ChatCompletionNewParams.t)
    : result (option openai.ChatCompletion.t) :=
  Ok (Some completion_hello).

End ChatSamples.
Import ChatSamples.

(** * Properties *)

(** ** Facts on the string functions *)
Module StringFacts.

Lemma string_app_empty_l (s : string) : "" +:+ s = s.
Proof. done. Qed.

Lemma string_app_cons (c : ascii) (s t : string) : String c s +:+ t = String c (s +:+ t).
Proof. done. Qed.

Lemma string_app_empty_r (s : string) : s +:+ "" = s.
Proof. induction s as [|c s IH]; [done|]. by rewrite string_app_cons, IH. Qed.

Lemma string_app_assoc (s t u : string) : (s +:+ t) +:+ u = s +:+ t +:+ u.
Proof. induction s as [|c s IH]; [done|]. by rewrite !string_app_cons, IH. Qed.

Lemma string_length_app (s t : string) :
  String.length (s +:+ t) = (String.length s + String.length t)%nat.
Proof. induction s as [|c s IH]; [done|]. rewrite string_app_cons. simpl. by rewrite IH. Qed.

Lemma Map_Map f g s : Map f (Map g s) = Map (λ a, f (g a)) s.
Proof. induction s as [|a s IH]; simpl; [done|]. by rewrite IH. Qed.

Lemma Map_ext f g s : (∀ a, f a = g a) → Map f s = Map g s.
Proof. intros E. induction s as [|a s IH]; simpl; [done|]. by rewrite E, IH. Qed.

Lemma Map_empty f s : Map f s = EmptyString ↔ s = EmptyString.
Proof. by destruct s. Qed.

Lemma TrimLeftSpace_lead_ok s : lead_ok (TrimLeftSpace s) = true.
Proof.
  induction s as [|a s IH]; simpl; [done|].
  destruct (isSpace a) eqn:E; [done|]. simpl. by rewrite E.
Qed.

Lemma lead_ok_TrimLeftSpace s : lead_ok s = true → TrimLeftSpace s = s.
Proof. destruct s as [|a s]; simpl; [done|]. by destruct (isSpace a). Qed.

Lemma TrimRightSpace_idem s : TrimRightSpace (TrimRightSpace s) = TrimRightSpace s.
Proof.
  induction s as [|a s IH]; simpl; [done|].
  destruct (TrimRightSpace s) as [|b t] eqn:E.
  - destruct (isSpace a) eqn:Ea; simpl; [done|]. by rewrite Ea.
  - simpl in *. by rewrite IH.
Qed.

Lemma TrimRightSpace_lead_ok s :
  lead_ok s = true → lead_ok (TrimRightSpace s) = true.
Proof.
  destruct s as [|a s]; simpl; [done|]. intros Ha.
  destruct (TrimRightSpace s); simpl; [|done].
  destruct (isSpace a) eqn:E; simpl in *; [done|]. by rewrite E.
Qed.

(** A byte mapping that never produces white space out of a non-space byte
    keeps a trimmed string trimmed. *)
Lemma lead_ok_Map f s :
  (∀ a, isSpace a = false → isSpace (f a) = false) →
  lead_ok s = true → lead_ok (Map f s) = true.
Proof.
  intros Hf. destruct s as [|a s]; simpl; [done|].
  destruct (isSpace a) eqn:E; [done|]. by rewrite (Hf _ E).
Qed.

Lemma TrimRightSpace_Map f s :
  (∀ a, isSpace a = false → isSpace (f a) = false) →
  TrimRightSpace s = s → TrimRightSpace (Map f s) = Map f s.
Proof.
  intros Hf. induction s as [|a s IH]; simpl; [done|].
  destruct (TrimRightSpace s) as [|b t] eqn:E.
  - destruct (isSpace a) eqn:Ea; [done|].
    intros [= <-]. simpl. by rewrite (Hf _ Ea).
  - intros [= Hs]. rewrite Hs in IH. specialize (IH eq_refl).
    rewrite IH. rewrite <- Hs. done.
Qed.

Lemma TrimSpace_fixed s :
  lead_ok s = true → TrimRightSpace s = s → TrimSpace s = s.
Proof. intros H1 H2. unfold TrimSpace. by rewrite lead_ok_TrimLeftSpace. Qed.

Lemma TrimSpace_lead_ok s : lead_ok (TrimSpace s) = true.
Proof. apply TrimRightSpace_lead_ok, TrimLeftSpace_lead_ok. Qed.

Lemma TrimSpace_trail_ok s : TrimRightSpace (TrimSpace s) = TrimSpace s.
Proof. apply TrimRightSpace_idem. Qed.

Lemma TrimSpace_idem s : TrimSpace (TrimSpace s) = TrimSpace s.
Proof. apply TrimSpace_fixed; [apply TrimSpace_lead_ok|apply TrimSpace_trail_ok]. Qed.

Lemma lower_byte_space a : isSpace a = false → isSpace (lower_byte a) = false.
Proof. by destruct a as [[] [] [] [] [] [] [] []]. Qed.

Lemma lower_byte_idem a : lower_byte (lower_byte a) = lower_byte a.
Proof. by destruct a as [[] [] [] [] [] [] [] []]. Qed.

Lemma ToLower_idem s : ToLower (ToLower s) = ToLower s.
Proof. unfold ToLower. rewrite Map_Map. apply Map_ext, lower_byte_idem. Qed.

Lemma TrimSpace_empty : TrimSpace "" = "".
Proof. done. Qed.

Lemma ContainsByte_app (s t : string) (c : ascii) :
  ContainsByte (s +:+ t) c = ContainsByte s c || ContainsByte t c.
Proof.
  induction s as [|a s IH]; [done|].
  rewrite string_app_cons. simpl. by destruct (decide (a = c)).
Qed.

End StringFacts.

(** ** The registry's reading of TXT metadata *)
Module DiscoveryFacts.
Import discovery StringFacts.

Lemma parseTxtRecord_encode (k v : string) :
  ContainsByte k "=" = false →
  parseTxtRecord (k +:+ "=" +:+ v) = [k; v].
Proof.
  induction k as [|c k IH]; simpl; intros Hk.
  - done.
  - destruct (decide (c = "="%char)); [done|].
    by rewrite IH.
Qed.

Lemma classifyKind_eq (text : gmap string string) :
  classifyKind text =
    let role := ToLower (TrimSpace (default "" (text !! "role"))) in
    if decide (role = "") then "tool" else role.
Proof.
  unfold classifyKind, ServerKindTool, ServerKindAgentWrapper,
    ServerKindOrchestrator. simpl.
  repeat case_decide; congruence.
Qed.

Lemma textMap_singleton (k v : string) :
  ContainsByte k "=" = false →
  textMap [k +:+ "=" +:+ v] = {[ k := v ]}.
Proof.
  intros Hk. unfold textMap. simpl.
  rewrite parseTxtRecord_encode by done. by rewrite insert_empty.
Qed.

(** C3, as the code has it: the kind of an observed peer is the TXT value of
    [role], trimmed and lowercased; an empty or absent role gives [tool], and
    every other role, known or not, is kept as the kind. *)
Theorem observed_kind_is_role (now : Z) (entry : ServiceEntry.t) :
  let text := textMap (ServiceEntry.Text entry) in
  let role := ToLower (TrimSpace (default "" (text !! "role"))) in
  ServerInfo.Kind (observe now entry) = (if decide (role = "") then "tool" else role)
  ∧ classifyKind text = ServerInfo.Kind (observe now entry).
Proof.
  simpl. split; [|done]. apply classifyKind_eq.
Qed.

(** C3, the claim as stated fails: a peer announcing the role [Gateway] is
    classified as [gateway], not as [unknown]. *)
Lemma other_role_is_not_unknown :
  ServerInfo.Kind
    (observe 0 (ServiceEntry.mk "gw" "gw.local." 9000 ["10.0.0.9"] [] ["role= Gateway "]))
  = "gateway"
  ∧ ServerKindUnknown = "unknown".
Proof. split; [vm_compute; reflexivity|reflexivity]. Qed.

Lemma announceThenObserve_singleton (k v : string) :
  TrimSpace k ≠ "" →
  ContainsByte (TrimSpace k) "=" = false →
  announceThenObserve {[ k := v ]} = {[ TrimSpace k := TrimSpace v ]}.
Proof.
  intros Hne Heq. unfold announceThenObserve.
  rewrite map_to_list_singleton. simpl.
  rewrite decide_False by done.
  by apply textMap_singleton.
Qed.

(** C7, as the code has it: a pair whose trimmed key is not empty and holds
    no ['='] comes back from the wire with key and value trimmed (hence
    unchanged when neither carries white space at its ends). *)
Theorem txt_round_trip_trimmed (k v : string) :
  TrimSpace k ≠ "" →
  ContainsByte (TrimSpace k) "=" = false →
  announceThenObserve {[ k := v ]} = {[ TrimSpace k := TrimSpace v ]}
  ∧ (TrimSpace k = k → TrimSpace v = v → announceThenObserve {[ k := v ]} = {[ k := v ]}).
Proof.
  intros Hne Heq. rewrite announceThenObserve_singleton by done.
  split; [done|]. by intros -> ->.
Qed.

Lemma txt_round_trip_trimmed_witness :
  announceThenObserve {[ "role" := "agent-wrapper" ]} = {[ "role" := "agent-wrapper" ]}.
Proof.
  exact (proj2 (txt_round_trip_trimmed "role" "agent-wrapper"
                  ltac:(discriminate) ltac:(reflexivity))
           ltac:(reflexivity) ltac:(reflexivity)).
Defined.

(** C7, the claim as stated fails: a value with white space around it comes
    back trimmed, and a key that holds ['='] is split inside the key. *)
Lemma txt_round_trip_changes_pair :
  announceThenObserve {[ "description" := " http tools " ]}
    = {[ "description" := "http tools" ]}
  ∧ announceThenObserve {[ "a=b" := "c" ]} = {[ "a" := "b=c" ]}.
Proof.
  split.
  - exact (announceThenObserve_singleton "description" " http tools "
             ltac:(discriminate) ltac:(reflexivity)).
  - unfold announceThenObserve. rewrite map_to_list_singleton. reflexivity.
Qed.

End DiscoveryFacts.

(** ** The peer client's URL *)
Module McpFacts.
Import discovery mcp StringFacts.

Section BuildURLFacts.
Variable url_Parse : string → result URL.t.
Variable URL_String : URL.t → string.
Variable Quote : string → string.

Lemma buildURL_constructed (server : ServerInfo.t) (path : string) :
  TrimSpace (default "" (ServerInfo.Text server !! "url")) = "" →
  TrimSpace (endpointAddress server) ≠ "" →
  buildURL url_Parse URL_String Quote (Some server) path
  = Ok (endpointScheme server +:+ "://" +:+ endpointAddress server +:+ endpointPath path).
Proof.
  intros Hurl Haddr. unfold buildURL.
  rewrite decide_False by (by intros []).
  fold (endpointAddress server). rewrite decide_False by done.
  reflexivity.
Qed.

Lemma buildURL_override (server : ServerInfo.t) (path : string) (base : URL.t) :
  TrimSpace (default "" (ServerInfo.Text server !! "url")) ≠ "" →
  url_Parse (default "" (ServerInfo.Text server !! "url")) = Ok base →
  buildURL url_Parse URL_String Quote (Some server) path
  = Ok (URL_String (URL.with_Path base (endpointPath path))).
Proof.
  intros Hurl Hparse. unfold buildURL.
  rewrite decide_True by done. by rewrite Hparse.
Qed.


End BuildURLFacts.



End McpFacts.

(** ** The mediator *)
Module MediatorFacts.
Import discovery mediator StringFacts.

Lemma slug_byte_space (a : ascii) :
  isSpace a = false → isSpace (replace_byte replacer (lower_byte a)) = false.
Proof. by destruct a as [[] [] [] [] [] [] [] []]. Qed.

Lemma slug_byte_lower (a : ascii) :
  lower_byte (replace_byte replacer (lower_byte a)) = replace_byte replacer (lower_byte a).
Proof. by destruct a as [[] [] [] [] [] [] [] []]. Qed.

Lemma slug_byte_replace (a : ascii) :
  replace_byte replacer (replace_byte replacer (lower_byte a))
  = replace_byte replacer (lower_byte a).
Proof. by destruct a as [[] [] [] [] [] [] [] []]. Qed.

(** The slug of a non-blank input, as one byte mapping over the trimmed input. *)
Lemma slugify_nonblank (x : string) :
  ToLower (TrimSpace x) ≠ "" →
  slugify x = Map (λ a, replace_byte replacer (lower_byte a)) (TrimSpace x).
Proof.
  intros Hne. unfold slugify. rewrite decide_False by done.
  unfold Replace, ToLower. apply Map_Map.
Qed.


(** *** The name search of [buildFunctionName] *)

Lemma int_wrap_small (z : Z) : - 2 ^ 63 ≤ z < 2 ^ 63 → int_wrap z = z.
Proof. intros Hz. unfold int_wrap. rewrite Z.mod_small; lia. Qed.

Lemma candidate_S (base : string) (k : nat) :
  candidate base (S k) = base +:+ "__" +:+ itoa (Z.of_nat k + 2).
Proof. unfold candidate. do 3 f_equal. lia. Qed.

Lemma candidate_inj (base : string) : Inj (=) (=) (candidate base).
Proof.
  intros [|i] [|j] E; [done| | |].
  - exfalso. apply (f_equal String.length) in E. rewrite candidate_S in E.
    simpl in E. rewrite !string_length_app in E. simpl in E. lia.
  - exfalso. apply (f_equal String.length) in E. rewrite candidate_S in E.
    simpl in E. rewrite !string_length_app in E. simpl in E. lia.
  - rewrite !candidate_S in E.
    apply (inj (String.app base)), (inj (String.app "__")) in E.
    apply (inj pretty) in E. f_equal. lia.
Qed.

Local Existing Instance candidate_inj.

Lemma loop_found (fuel : nat) (base : string) (existing : gmap string toolMeta.t) :
  ∀ (k : nat) (name : string),
    Z.of_nat k + 2 + Z.of_nat fuel < 2 ^ 63 →
    buildFunctionName_loop fuel base (candidate base k) (Z.of_nat k + 2) existing
      = Some name →
    ∃ j, (k ≤ j ≤ k + fuel)%nat ∧ name = candidate base j ∧ existing !! name = None
         ∧ ∀ i, (k ≤ i < j)%nat → is_Some (existing !! candidate base i).
Proof.
  induction fuel as [|fuel IH]; intros k name Hb; simpl;
    destruct (existing !! candidate base k) eqn:Hk.
  - done.
  - intros [= <-]. exists k. repeat split; [lia..|done|intros; lia].
  - rewrite int_wrap_small by lia.
    replace (Z.of_nat k + 2 + 1) with (Z.of_nat (S k) + 2) by lia.
    rewrite <- candidate_S. intros Hl.
    apply IH in Hl as (j & Hj & -> & Hn & Hlow); [|lia].
    exists j. repeat split; [lia..|done|].
    intros i Hi. destruct (decide (i = k)) as [->|]; [by rewrite Hk|].
    apply Hlow. lia.
  - intros [= <-]. exists k. repeat split; [lia..|done|intros; lia].
Qed.

Lemma loop_exhausted (fuel : nat) (base : string) (existing : gmap string toolMeta.t) :
  ∀ (k : nat),
    Z.of_nat k + 2 + Z.of_nat fuel < 2 ^ 63 →
    buildFunctionName_loop fuel base (candidate base k) (Z.of_nat k + 2) existing = None →
    ∀ i, (k ≤ i ≤ k + fuel)%nat → is_Some (existing !! candidate base i).
Proof.
  induction fuel as [|fuel IH]; intros k Hb; simpl;
    destruct (existing !! candidate base k) eqn:Hk; try done.
  - intros _ i Hi. replace i with k by lia. by rewrite Hk.
  - rewrite int_wrap_small by lia.
    replace (Z.of_nat k + 2 + 1) with (Z.of_nat (S k) + 2) by lia.
    rewrite <- candidate_S. intros Hl i Hi.
    destruct (decide (i = k)) as [->|]; [by rewrite Hk|].
    apply (IH (S k)); [lia|done|lia].
Qed.

(** A map of [n] names cannot hold [n + 1] distinct candidates. *)
Lemma candidates_not_all_taken (base : string) (existing : gmap string toolMeta.t) :
  (∀ i, (i ≤ size existing)%nat → is_Some (existing !! candidate base i)) → False.
Proof.
  intros Hall.
  set (l := candidate base <$> seq 0 (S (size existing))).
  assert (Hnd : NoDup l) by (apply (NoDup_fmap_2 _), NoDup_seq).
  assert (Hsub : list_to_set l ⊆ dom existing).
  { intros x [i [-> Hi%elem_of_seq]]%elem_of_list_to_set%list_elem_of_fmap.
    apply elem_of_dom, Hall. lia. }
  apply subseteq_size in Hsub.
  rewrite size_list_to_set, size_dom in Hsub by done.
  unfold l in Hsub. rewrite length_fmap, length_seq in Hsub. lia.
Qed.

(** The search returns: it finds the first free candidate among the base and
    its suffixed forms. *)
Lemma buildFunctionName_returns (instance toolName : string)
    (existing : gmap string toolMeta.t) :
  Z.of_nat (size existing) + 2 < 2 ^ 63 →
  ∃ k, buildFunctionName instance toolName existing
         = Some (candidate (functionBase instance toolName) k)
       ∧ existing !! candidate (functionBase instance toolName) k = None
       ∧ ∀ i, (i < k)%nat →
           is_Some (existing !! candidate (functionBase instance toolName) i).
Proof.
  intros Hb. unfold buildFunctionName. fold (functionBase instance toolName).
  set (base := functionBase instance toolName).
  change (buildFunctionName_loop (size existing) base base 2 existing)
    with (buildFunctionName_loop (size existing) base (candidate base 0)
            (Z.of_nat 0 + 2) existing).
  destruct (buildFunctionName_loop _ _ _ _ _) as [name|] eqn:Hl.
  - apply loop_found in Hl as (j & Hj & -> & Hn & Hlow); [|lia].
    exists j. repeat split; [done|]. intros i Hi. apply Hlow. lia.
  - exfalso. apply (candidates_not_all_taken base existing).
    intros i Hi. eapply (loop_exhausted _ _ _ 0%nat); [|exact Hl|]; lia.
Qed.

(** *** The roster under construction *)
Section AggregationFacts.
Variable ListTools : mcp.Client.t → ServerInfo.t → result (list mcp.ToolDefinition.t).

Lemma namespaced_mono (m : Mediator.t) (servers : list ServerInfo.t)
    (names names' : list string) (name : string) :
  (∀ x, x ∈ names → x ∈ names') →
  namespaced ListTools m servers names name →
  namespaced ListTools m servers names' name.
Proof.
  intros Hsub (srv & tool & k & ? & ? & ? & Hlow).
  exists srv, tool, k. repeat split; [done..|]. intros i Hi. by apply Hsub, Hlow.
Qed.

Lemma rosterInv_empty (m : Mediator.t) (servers : list ServerInfo.t) :
  rosterInv ListTools m servers (roster.mk [] ∅ [] None).
Proof.
  split; [constructor|]. split; [|split; [done|]]; simpl.
  - intros name. rewrite lookup_empty. split; [by intros ?%elem_of_nil|by intros [? ?]].
  - by intros name ?%elem_of_nil.
Qed.

Lemma addTool_inv (m : Mediator.t) (servers : list ServerInfo.t) (st : roster.t)
    (srv : ServerInfo.t) (tool : mcp.ToolDefinition.t) :
  rosterInv ListTools m servers st →
  srv ∈ servers → tool ∈ offered ListTools m srv →
  Z.of_nat (size (roster.meta st)) + 2 < 2 ^ 63 →
  ∃ st', addTool srv st tool = Some st'
         ∧ rosterInv ListTools m servers st'
         ∧ size (roster.meta st') = S (size (roster.meta st))
         ∧ roster.lastErr st' = roster.lastErr st.
Proof.
  intros (Hnd & Hiff & Hlen & Hns) Hsrv Htool Hb.
  destruct (buildFunctionName_returns (ServerInfo.Instance srv)
              (mcp.ToolDefinition.Name tool) (roster.meta st) Hb)
    as (k & Hbuild & Hfree & Hlow).
  unfold addTool. rewrite Hbuild.
  set (name := candidate _ k) in *.
  eexists. split; [reflexivity|]. simpl.
  assert (Hnew : name ∉ functionNames (roster.toolParams st)).
  { intros Hin%Hiff. rewrite Hfree in Hin. by destruct Hin. }
  unfold rosterInv, functionNames. simpl. rewrite fmap_app. simpl.
  fold (functionNames (roster.toolParams st)).
  change (paramName _) with name.
  split; [split; [|split; [|split]]|split; [|done]].
  - apply NoDup_app. repeat split; [done| |apply NoDup_singleton].
    intros x Hx ->%list_elem_of_singleton. done.
  - intros x. rewrite elem_of_app, list_elem_of_singleton, lookup_insert_is_Some, Hiff.
    destruct (decide (name = x)) as [->|Hne]; [split; intros _; [by left|by right]|].
    split; [intros [?|?]; [by right|congruence]|intros [?|[_ ?]]; [congruence|by left]].
  - rewrite length_app, map_size_insert_None by done. simpl. lia.
  - intros x [Hin| ->%list_elem_of_singleton]%elem_of_app.
    + eapply namespaced_mono; [|by apply Hns]. intros y Hy. apply elem_of_app. by left.
    + exists srv, tool, k. repeat split; [done..|].
      intros i Hi. apply elem_of_app. left. by apply Hiff, Hlow.
  - by apply map_size_insert_None.
Qed.

Lemma addTools_inv (m : Mediator.t) (servers : list ServerInfo.t)
    (srv : ServerInfo.t) (tools : list mcp.ToolDefinition.t) :
  ∀ st,
    rosterInv ListTools m servers st →
    srv ∈ servers → (∀ tool, tool ∈ tools → tool ∈ offered ListTools m srv) →
    Z.of_nat (size (roster.meta st) + length tools) + 1 < 2 ^ 63 →
    ∃ st', addTools srv st tools = Some st'
           ∧ rosterInv ListTools m servers st'
           ∧ size (roster.meta st') = (size (roster.meta st) + length tools)%nat
           ∧ roster.lastErr st' = roster.lastErr st.
Proof.
  induction tools as [|tool rest IH]; intros st Hinv Hsrv Hoff Hb; simpl.
  - exists st. split; [done|]. split; [done|]. split; [lia|done].
  - destruct (addTool_inv m servers st srv tool Hinv Hsrv) as (st1 & -> & Hinv1 & Hsz & Herr).
    { apply Hoff. by left. }
    { simpl in Hb. lia. }
    destruct (IH st1 Hinv1 Hsrv) as (st2 & -> & Hinv2 & Hsz2 & Herr2).
    { intros t Ht. apply Hoff. by right. }
    { simpl in Hb. lia. }
    exists st2. split; [done|]. split; [done|]. split; [simpl; lia|congruence].
Qed.

Lemma visitServer_inv (m : Mediator.t) (client : mcp.Client.t)
    (servers : list ServerInfo.t) (st : roster.t) (srv : ServerInfo.t) :
  Mediator.toolClient m = Some client →
  rosterInv ListTools m servers st →
  srv ∈ servers →
  Z.of_nat (size (roster.meta st) + length (offered ListTools m srv)) + 1 < 2 ^ 63 →
  ∃ st', visitServer ListTools m client st srv = Some st'
         ∧ rosterInv ListTools m servers st'
         ∧ (size (roster.meta st')
            ≤ size (roster.meta st) + length (offered ListTools m srv))%nat.
Proof.
  intros Hclient Hinv Hsrv Hb. unfold visitServer.
  destruct (decide _); [exists st; split; [done|]; split; [done|lia]|].
  destruct (isToolHost srv); simpl; [|exists st; split; [done|]; split; [done|lia]].
  unfold offered in *. rewrite Hclient in *.
  destruct (ListTools client srv) as [err|tools] eqn:Hlist.
  - eexists. split; [reflexivity|]. split; [exact Hinv|simpl; lia].
  - destruct (addTools_inv m servers srv tools st Hinv Hsrv)
      as (st' & -> & Hinv' & Hsz & _); [|done|].
    { intros tool Ht. unfold offered. by rewrite Hclient, Hlist. }
    exists st'. split; [done|]. split; [done|lia].
Qed.

Lemma toolCount_cons (m : Mediator.t) (srv : ServerInfo.t) (rest : list ServerInfo.t) :
  toolCount ListTools m (srv :: rest)
  = (length (offered ListTools m srv) + toolCount ListTools m rest)%nat.
Proof. reflexivity. Qed.

Lemma visitServers_inv (m : Mediator.t) (client : mcp.Client.t)
    (servers rest : list ServerInfo.t) :
  Mediator.toolClient m = Some client →
  ∀ st,
    rosterInv ListTools m servers st →
    (∀ srv, srv ∈ rest → srv ∈ servers) →
    Z.of_nat (size (roster.meta st) + toolCount ListTools m rest) + 1 < 2 ^ 63 →
    ∃ st', visitServers ListTools m client st rest = Some st'
           ∧ rosterInv ListTools m servers st'.
Proof.
  intros Hclient.
  induction rest as [|srv rest IH]; intros st Hinv Hsub Hb; simpl.
  - by exists st.
  - rewrite toolCount_cons in Hb.
    destruct (visitServer_inv m client servers st srv Hclient Hinv)
      as (st1 & -> & Hinv1 & Hsz).
    { apply Hsub. by left. }
    { lia. }
    apply IH; [done| |lia]. intros s Hs. apply Hsub. by right.
Qed.

Lemma key_le_trans {A : Type} (key : A → string) : Transitive (key_le key).
Proof. intros x y z. unfold key_le. apply transitivity. Qed.

Lemma key_le_total {A : Type} (key : A → string) : Total (key_le key).
Proof. intros x y. unfold key_le. apply String.le_total. Qed.

Local Existing Instances key_le_trans key_le_total.

Lemma string_le_ne_lt (a b : string) : String.le a b → a ≠ b → string_lt a b.
Proof.
  unfold String.le, string_lt, String.leb, String.ltb. intros Hle Hne.
  destruct (String.compare a b) eqn:E; [|done|done].
  by apply String.compare_eq_iff in E.
Qed.

Lemma StronglySorted_strict (l : list string) :
  StronglySorted String.le l → NoDup l → StronglySorted string_lt l.
Proof.
  induction 1 as [|x l Hs IH Hall]; intros Hnd; [constructor|].
  apply NoDup_cons in Hnd as [Hx Hnd]. constructor; [by apply IH|].
  apply Forall_forall. intros y Hy. apply string_le_ne_lt.
  - by eapply Forall_forall in Hall.
  - by intros ->.
Qed.

Lemma sortByKey_names_sorted {A : Type} (key : A → string) (l : list A) :
  NoDup (key <$> l) →
  key <$> sortByKey key l ≡ₚ key <$> l
  ∧ NoDup (key <$> sortByKey key l)
  ∧ StronglySorted string_lt (key <$> sortByKey key l).
Proof.
  intros Hnd.
  assert (Hp : key <$> sortByKey key l ≡ₚ key <$> l).
  { apply fmap_Permutation, merge_sort_Permutation. }
  assert (Hnd' : NoDup (key <$> sortByKey key l)) by (by rewrite Hp).
  split; [done|]. split; [done|].
  apply StronglySorted_strict; [|done].
  apply (StronglySorted_fmap key (key_le key) String.le); [done|].
  apply (StronglySorted_merge_sort (key_le key)).
Qed.

Lemma NoDup_fmap_elem_inj {A B : Type} (f : A → B) (l : list A) (x y : A) :
  NoDup (f <$> l) → x ∈ l → y ∈ l → f x = f y → x = y.
Proof.
  revert x y. induction l as [|a l IH]; intros x y; [by intros _ ?%elem_of_nil|].
  rewrite fmap_cons.
  intros [Ha Hnd]%NoDup_cons Hx%elem_of_cons Hy%elem_of_cons E.
  destruct Hx as [->|Hx], Hy as [->|Hy]; [done| | |by apply IH].
  - exfalso. apply Ha. rewrite E. by apply list_elem_of_fmap_2.
  - exfalso. apply Ha. rewrite <- E. by apply list_elem_of_fmap_2.
Qed.

(** With pairwise distinct keys there is one sorted arrangement: whatever
    algorithm [sort.Slice] runs, its result is [sortByKey]. *)
Lemma sorted_arrangement_unique {A : Type} (key : A → string) (l l' : list A) :
  NoDup (key <$> l) → l' ≡ₚ l → Sorted (key_le key) l' → l' = sortByKey key l.
Proof.
  intros Hnd Hp Hs.
  apply (Sorted_unique_strong (key_le key)); [|done|apply Sorted_merge_sort, _|].
  - intros x1 x2 H1 H2 H12 H21.
    unfold sortByKey in H2. rewrite merge_sort_Permutation, <- Hp in H2.
    apply (NoDup_fmap_elem_inj key l' x1 x2); [by rewrite Hp|exact H1|exact H2|].
    by apply (anti_symm String.le).
  - rewrite Hp. symmetry. apply merge_sort_Permutation.
Qed.

(** C4: the roster [collectTools] builds has pairwise distinct function
    names in strictly increasing byte order, and every name is
    [slug(instance) ++ "__" ++ slug(tool)] of a tool a peer of the snapshot
    offers, bare or with the suffix [__k] for the least [k >= 2] below which
    all names are taken within the roster.  The bound on the number of
    offered tools keeps the Go [int] counter of the suffix from wrapping. *)
Theorem collectTools_names_unique_sorted (m : Mediator.t) (servers : list ServerInfo.t) :
  Z.of_nat (toolCount ListTools m servers) + 1 < 2 ^ 63 →
  ∃ toolParams meta descriptors err,
    collectTools ListTools m servers = Some (toolParams, meta, descriptors, err)
    ∧ NoDup (functionNames toolParams)
    ∧ StronglySorted string_lt (functionNames toolParams)
    ∧ Forall (namespaced ListTools m servers (functionNames toolParams))
        (functionNames toolParams).
Proof.
  intros Hb. unfold collectTools.
  destruct (decide (length servers = 0%nat)).
  { exists [], ∅, [], None. repeat split; constructor. }
  destruct (Mediator.toolClient m) as [client|] eqn:Hclient.
  2:{ eexists [], ∅, [], _. repeat split; constructor. }
  destruct (visitServers_inv m client servers servers Hclient
              (roster.mk [] ∅ [] None) (rosterInv_empty m servers))
    as (st & -> & Hnd & Hiff & Hlen & Hns); [done|simpl; rewrite map_size_empty; lia|].
  destruct (decide _).
  { eexists [], _, _, _. repeat split; constructor. }
  eexists _, _, _, _. split; [reflexivity|].
  destruct (sortByKey_names_sorted paramName (roster.toolParams st) Hnd)
    as (Hp & Hnd' & Hsorted).
  fold (functionNames (sortByKey paramName (roster.toolParams st))) in *.
  fold (functionNames (roster.toolParams st)) in Hp.
  split; [done|]. split; [done|].
  apply Forall_forall. intros name Hin.
  eapply namespaced_mono; [|apply Hns; by rewrite <- Hp].
  intros x Hx. by rewrite Hp.
Qed.

End AggregationFacts.

(** C4 on the sample snapshot: the two [ping]s of [alpha] and the [ping] of
    [Alpha ] share one base and get the suffixes [__2] and [__3]. *)
Lemma collectTools_names_unique_sorted_witness :
  ∃ toolParams meta descriptors err,
    collectTools sample_ListTools sample_mediator sample_servers
      = Some (toolParams, meta, descriptors, err)
    ∧ NoDup (functionNames toolParams)
    ∧ StronglySorted string_lt (functionNames toolParams)
    ∧ Forall (namespaced sample_ListTools sample_mediator sample_servers
                (functionNames toolParams))
        (functionNames toolParams).
Proof.
  exact (collectTools_names_unique_sorted sample_ListTools sample_mediator
           sample_servers ltac:(vm_compute; reflexivity)).
Defined.

Example collectTools_sample_names :
  (λ r, functionNames r.1.1.1) <$>
    collectTools sample_ListTools sample_mediator sample_servers
  = Some ["alpha__ping"; "alpha__ping__2"; "alpha__ping__3"; "alpha__run"; "beta__run"].
Proof. vm_compute. reflexivity. Qed.

(** *** Admission and the turn loop *)
Section TurnFacts.
Variable ListTools : mcp.Client.t → ServerInfo.t → result (list mcp.ToolDefinition.t).
Variable CallTool :
  mcp.Client.t → ServerInfo.t → string → object → result mcp.CallResult.t.
Variable Completions_New :
  nat → openai.ChatCompletionNewParams.t → result (option openai.ChatCompletion.t).
Variable json_Unmarshal : string → result object.
Variable json_Marshal : toolPayload.t → string.

Local Abbreviation HandleChat :=
  (mediator.HandleChat ListTools CallTool Completions_New json_Unmarshal json_Marshal).
Local Abbreviation turnLoop :=
  (mediator.turnLoop CallTool Completions_New json_Unmarshal json_Marshal).
Local Abbreviation dispatchToolCalls :=
  (mediator.dispatchToolCalls CallTool json_Unmarshal json_Marshal).

Lemma HandleChat_rejected (fuel : nat) (m : Mediator.t) (servers : list ServerInfo.t)
    (req : types.ChatCompletionRequest.t) (err : error) :
  admission m req = Some err →
  HandleChat fuel m servers req = ([], Done (Err err)).
Proof.
  unfold admission, mediator.HandleChat.
  destruct (types.Validate req); [by intros [= <-]|].
  destruct (types.ChatCompletionRequest.Stream req); [by intros [= <-]|].
  destruct (_ && _); [by intros [= <-]|].
  destruct (Mediator.openaiClient m); [done|by intros [= <-]].
Qed.

Lemma HandleChat_admitted (fuel : nat) (m : Mediator.t) (servers : list ServerInfo.t)
    (req : types.ChatCompletionRequest.t) :
  admission m req = None →
  HandleChat fuel m servers req =
    match collectTools ListTools m servers with
    | None => ([], OutOfFuel)
    | Some (toolParams, meta, _, err) =>
        turnLoop fuel m toolParams meta 0
          (match err with
           | Some err =>
               convertMessages (types.ChatCompletionRequest.Messages req) ++
                 [openai.SystemMessage ("Warning: tool discovery error: " +:+ Error err)]
           | None => convertMessages (types.ChatCompletionRequest.Messages req)
           end)
    end.
Proof.
  unfold admission, mediator.HandleChat.
  destruct (types.Validate req); [done|].
  destruct (types.ChatCompletionRequest.Stream req); [done|].
  destruct (_ && _); [done|].
  destruct (Mediator.openaiClient m); [|done]. intros _.
  destruct (collectTools ListTools m servers) as [[[[tp meta] d] [e|]]|]; reflexivity.
Qed.

Lemma collectTools_empty (m : Mediator.t) :
  collectTools ListTools m [] = Some ([], ∅, [], None).
Proof. reflexivity. Qed.

(** C5, as the code has it: a request with an empty model is rejected by the
    shape validation with [model is required], whatever its other fields; no
    completion is requested, and the model check that skips an empty model is
    never reached. *)
Theorem empty_model_is_rejected (fuel : nat) (m : Mediator.t)
    (servers : list ServerInfo.t) (messages : list types.ChatMessage.t)
    (temperature : option string) (stream : bool) (topP : option string)
    (maxTokens : option Z) (tools : list types.Tool.t) (user : string) :
  HandleChat fuel m servers
    (types.ChatCompletionRequest.mk "" messages temperature stream topP maxTokens tools user)
  = ([], Done (Err (Fresh "model is required"))).
Proof.
  unfold mediator.HandleChat, types.Validate. simpl. reflexivity.
Qed.

(** With an empty snapshot no tool can be dispatched: one completion ends
    the turn. *)
Lemma turnLoop_no_tools (fuel : nat) (m : Mediator.t)
    (conversation : list openai.MessageParam) :
  turnLoop (S fuel) m [] ∅ 0 conversation = turnLoop 1 m [] ∅ 0 conversation
  ∧ (turnLoop 1 m [] ∅ 0 conversation).1
    = [openai.ChatCompletionNewParams.mk (providerModelOrDefault m) conversation None]
  ∧ (turnLoop 1 m [] ∅ 0 conversation).2 ≠ OutOfFuel.
Proof.
  simpl. unfold completionParams. simpl.
  destruct (Completions_New 0 _) as [err|[resp|]]; [done| |done].
  destruct (openai.ChatCompletion.Choices resp) as [|choice rest] eqn:Hc; [done|].
  destruct (decide _).
  - unfold buildOpenAIResponse. rewrite Hc. done.
  - destruct (openai.ChatCompletionMessage.ToolCalls (openai.Choice.Message choice))
      as [|call calls]; [done|]. simpl. rewrite lookup_empty. done.
Qed.

(** C9: with an empty snapshot [collectTools] returns the empty roster and
    no error; an admitted request makes [HandleChat] submit exactly one
    completion request, made of the converted messages alone and with the
    tools field unset, and the turn ends within that one request; a rejected
    request submits none. *)
Theorem empty_snapshot_no_tools_field (fuel : nat) (m : Mediator.t)
    (req : types.ChatCompletionRequest.t) :
  collectTools ListTools m [] = Some ([], ∅, [], None)
  ∧ (HandleChat (S fuel) m [] req).1
    = match admission m req with
      | Some _ => []
      | None =>
          [openai.ChatCompletionNewParams.mk (providerModelOrDefault m)
             (convertMessages (types.ChatCompletionRequest.Messages req)) None]
      end
  ∧ Forall (λ params, openai.ChatCompletionNewParams.Tools params = None)
      (HandleChat (S fuel) m [] req).1
  ∧ HandleChat (S fuel) m [] req = HandleChat 1 m [] req
  ∧ (HandleChat (S fuel) m [] req).2 ≠ OutOfFuel.
Proof.
  split; [reflexivity|].
  destruct (admission m req) as [err|] eqn:Ha.
  - rewrite !(HandleChat_rejected _ _ _ _ _ Ha). simpl.
    repeat split; [constructor|done].
  - rewrite !(HandleChat_admitted _ _ _ _ Ha), collectTools_empty. cbv beta iota.
    destruct (turnLoop_no_tools fuel m
                (convertMessages (types.ChatCompletionRequest.Messages req)))
      as (Hfuel & Htrace & Hout).
    rewrite Hfuel, Htrace. repeat split; [|done].
    by repeat constructor.
Qed.

Lemma turnLoop_success (fuel : nat) (m : Mediator.t)
    (toolParams : list openai.ChatCompletionToolParam.t) (meta : gmap string toolMeta.t) :
  ∀ (n : nat) (conversation : list openai.MessageParam)
    (trace : list openai.ChatCompletionNewParams.t) (resp : types.ChatCompletionResponse.t),
    turnLoop fuel m toolParams meta n conversation = (trace, Done (Ok resp)) →
    ∃ k params completion choice rest,
      trace !! k = Some params ∧ length trace = S k
      ∧ Completions_New (n + k) params = Ok (Some completion)
      ∧ openai.ChatCompletion.Choices completion = choice :: rest
      ∧ openai.ChatCompletionMessage.ToolCalls (openai.Choice.Message choice) = []
      ∧ buildOpenAIResponse (Mediator.modelName m) completion = Some resp.
Proof.
  induction fuel as [|fuel IH]; intros n conversation trace resp; simpl; [done|].
  set (params := completionParams m toolParams conversation).
  destruct (Completions_New n params) as [err|[completion|]] eqn:Hnew; [done| |done].
  destruct (openai.ChatCompletion.Choices completion) as [|choice rest] eqn:Hc; [done|].
  destruct (decide _) as [Hlen|Hlen].
  - destruct (buildOpenAIResponse _ completion) as [r|] eqn:Hb; [|done].
    intros [= <- <-]. exists 0%nat, params, completion, choice, rest.
    rewrite Nat.add_0_r. repeat split; [done..| |done].
    by apply nil_length_inv.
  - destruct (dispatchToolCalls m meta _ _) as [[err|conversation']| |]; [done| |done|done].
    destruct (turnLoop fuel m toolParams meta (S n) conversation') as [trace' out] eqn:Hl.
    intros [= <- ->].
    apply IH in Hl as (k & p & c & ch & r & Hk & Hlen' & Hn & Hch & Hcalls & Hb).
    exists (S k), p, c, ch, r. simpl.
    replace (n + S k)%nat with (S n + k)%nat by lia.
    repeat split; [done|by rewrite Hlen'|done..].
Qed.

(** C10: a turn that succeeds answers with exactly one choice, built from
    the first choice of the last completion the upstream returned (further
    choices are dropped), under the role [assistant], and with the
    mediator's own model name in place of the upstream's label. *)
Theorem successful_turn_single_choice (fuel : nat) (m : Mediator.t)
    (servers : list ServerInfo.t) (req : types.ChatCompletionRequest.t)
    (trace : list openai.ChatCompletionNewParams.t)
    (resp : types.ChatCompletionResponse.t) :
  HandleChat fuel m servers req = (trace, Done (Ok resp)) →
  ∃ n params completion choice rest,
    trace !! n = Some params ∧ length trace = S n
    ∧ Completions_New n params = Ok (Some completion)
    ∧ openai.ChatCompletion.Choices completion = choice :: rest
    ∧ types.ChatCompletionResponse.Choices resp
      = [types.Choice.mk (openai.Choice.Index choice) (openai.Choice.FinishReason choice)
           (types.AssistantMessage.mk "assistant"
              (openai.ChatCompletionMessage.Content (openai.Choice.Message choice)))]
    ∧ types.ChatCompletionResponse.Model resp = Mediator.modelName m.
Proof.
  intros Hrun.
  destruct (admission m req) as [err|] eqn:Ha.
  { rewrite (HandleChat_rejected _ _ _ _ _ Ha) in Hrun. done. }
  rewrite (HandleChat_admitted _ _ _ _ Ha) in Hrun.
  destruct (collectTools ListTools m servers) as [[[[tp meta] d] e]|]; [|done].
  apply turnLoop_success in Hrun
    as (k & params & completion & choice & rest & Hk & Hlen & Hn & Hc & _ & Hb).
  exists k, params, completion, choice, rest.
  unfold buildOpenAIResponse in Hb. rewrite Hc in Hb. injection Hb as <-.
  by repeat split.
Qed.

End TurnFacts.

(** C10 on the sample turn: the upstream's last completion carries two
    choices and the label [llama3:8b]; the answer keeps the first choice and
    is labelled [go-agent-1]. *)
Lemma successful_turn_single_choice_witness :
  ∃ n params completion choice rest,
    sample_turn.1 !! n = Some params ∧ length sample_turn.1 = S n
    ∧ sample_Completions n params = Ok (Some completion)
    ∧ openai.ChatCompletion.Choices completion = choice :: rest
    ∧ types.ChatCompletionResponse.Choices sample_response
      = [types.Choice.mk (openai.Choice.Index choice) (openai.Choice.FinishReason choice)
           (types.AssistantMessage.mk "assistant"
              (openai.ChatCompletionMessage.Content (openai.Choice.Message choice)))]
    ∧ types.ChatCompletionResponse.Model sample_response
      = Mediator.modelName sample_mediator.
Proof.
  exact (successful_turn_single_choice sample_ListTools sample_CallTool
           sample_Completions sample_Unmarshal sample_Marshal 5 sample_mediator
           sample_servers request_hi sample_turn.1 sample_response
           ltac:(vm_compute; reflexivity)).
Defined.

(** C5, the claim as stated fails: a request that is well-formed but for its
    empty model is rejected, whatever the peers and the upstream would
    answer. *)
Lemma empty_model_does_not_bypass :
  types.Validate request_no_model = Some (Fresh "model is required")
  ∧ admission sample_mediator request_no_model = Some (Fresh "model is required")
  ∧ ∀ ListTools CallTool Completions_New json_Unmarshal json_Marshal fuel servers,
      mediator.HandleChat ListTools CallTool Completions_New json_Unmarshal json_Marshal
        fuel sample_mediator servers request_no_model
      = ([], Done (Err (Fresh "model is required"))).
Proof. repeat split. Qed.

End MediatorFacts.

(** ** The external chat adapter *)
Module ApiFacts.
Import discovery mediator api.

Lemma validateMessages_Fresh (msgs : list types.ChatMessage.t) :
  ∀ (i : Z) (err : error),
    types.validateMessages i msgs = Some err → ∃ msg, err = Fresh msg.
Proof.
  induction msgs as [|msg rest IH]; intros i err; simpl; [done|].
  destruct (decide _); [intros [= <-]; by eexists|apply IH].
Qed.

Lemma Validate_Fresh (req : types.ChatCompletionRequest.t) (err : error) :
  types.Validate req = Some err → ∃ msg, err = Fresh msg.
Proof.
  unfold types.Validate.
  destruct (decide _); [intros [= <-]; by eexists|].
  destruct (decide _); [intros [= <-]; by eexists|].
  apply validateMessages_Fresh.
Qed.

Section ServerFacts.
Variable ListTools : mcp.Client.t → ServerInfo.t → result (list mcp.ToolDefinition.t).
Variable CallTool :
  mcp.Client.t → ServerInfo.t → string → object → result mcp.CallResult.t.
Variable Completions_New :
  nat → openai.ChatCompletionNewParams.t → result (option openai.ChatCompletion.t).
Variable json_Unmarshal : string → result object.
Variable json_Marshal : toolPayload.t → string.

(** C1, what the code does: a request that fails the shape validation is
    answered with status 500, as its error is none of the two errors the
    handler tells apart. *)
Theorem validation_failure_status_500 (fuel : nat) (med : Mediator.t)
    (servers : list ServerInfo.t) (req : types.ChatCompletionRequest.t) (err : error) :
  types.Validate req = Some err →
  handleChatCompletions ListTools CallTool Completions_New json_Unmarshal json_Marshal
    fuel med servers (Ok req)
  = Done (Response.mk 500
            (openAIError (openAIErrorDetails.mk (Error err) "Internal Server Error"))).
Proof.
  intros Hv. destruct (Validate_Fresh req err Hv) as [msg ->].
  unfold handleChatCompletions, mediator.HandleChat. rewrite Hv. reflexivity.
Qed.

(** The branches the handler does tell apart. *)
Lemma decode_failure_status_400 (fuel : nat) (med : Mediator.t)
    (servers : list ServerInfo.t) (err : error) :
  handleChatCompletions ListTools CallTool Completions_New json_Unmarshal json_Marshal
    fuel med servers (Err err)
  = Done (writeError 400 err).
Proof. reflexivity. Qed.

Lemma streaming_status_400 (fuel : nat) (med : Mediator.t)
    (servers : list ServerInfo.t) (req : types.ChatCompletionRequest.t) :
  admission med req = Some ErrStreamingUnsupported →
  handleChatCompletions ListTools CallTool Completions_New json_Unmarshal json_Marshal
    fuel med servers (Ok req)
  = Done (writeError 400 ErrStreamingUnsupported).
Proof.
  intros Ha. unfold handleChatCompletions.
  by rewrite (MediatorFacts.HandleChat_rejected _ _ _ _ _ _ _ _ _ _ Ha).
Qed.

Lemma unsupported_model_status_404 (fuel : nat) (med : Mediator.t)
    (servers : list ServerInfo.t) (req : types.ChatCompletionRequest.t) (msg : string) :
  admission med req = Some (Wrap msg ErrModelUnsupported) →
  handleChatCompletions ListTools CallTool Completions_New json_Unmarshal json_Marshal
    fuel med servers (Ok req)
  = Done (writeError 404 (Wrap msg ErrModelUnsupported)).
Proof.
  intros Ha. unfold handleChatCompletions.
  by rewrite (MediatorFacts.HandleChat_rejected _ _ _ _ _ _ _ _ _ _ Ha).
Qed.

End ServerFacts.

Lemma validation_failure_status_500_witness :
  handleChatCompletions sample_ListTools sample_CallTool sample_Completions
    sample_Unmarshal sample_Marshal 5 sample_mediator sample_servers (Ok request_no_model)
  = Done (Response.mk 500
            (openAIError (openAIErrorDetails.mk "model is required" "Internal Server Error"))).
Proof.
  exact (validation_failure_status_500 sample_ListTools sample_CallTool
           sample_Completions sample_Unmarshal sample_Marshal 5 sample_mediator
           sample_servers request_no_model (Fresh "model is required")
           ltac:(reflexivity)).
Defined.

End ApiFacts.

(** ** The HTTP-methods tool server *)
Module HttpToolsFacts.
Import httptools.

Section HandlerFacts.
Variable url_ParseRequestURI : string → option error.
Variable http_NewRequest : string → string → option error.
Variable httpClient_Do :
  string → string → list (string * string) → option string → result httpToolResult.t.
Variable Quote : string → string.

Lemma lookupIn_None (tools : list toolDefinition.t) (name : string) :
  name ∉ toolDefinition.Name <$> tools → lookupIn tools name = None.
Proof.
  induction tools as [|tool rest IH]; simpl; [done|]. intros Hn.
  rewrite decide_False.
  - apply IH. intros Hin. apply Hn. by right.
  - intros E. apply Hn. rewrite <- E. by left.
Qed.

(** C2, as the code has it: a call that names no registered tool is answered
    with status 404 (and the [not found] error), whatever its arguments;
    400 is kept for a body that does not decode and for bad arguments. *)
Theorem unknown_tool_status_404 (s : toolServer.t) (req : toolCallRequest.t) :
  toolCallRequest.Name req ∉ toolNames s →
  handleCallTool url_ParseRequestURI http_NewRequest httpClient_Do Quote s (Ok req)
  = Response.mk StatusNotFound
      (errorBody ("tool " +:+ Quote (toolCallRequest.Name req) +:+ " not found")
         StatusNotFound).
Proof.
  intros Hn. unfold handleCallTool, lookupTool.
  by rewrite (lookupIn_None _ _ Hn).
Qed.

End HandlerFacts.

Lemma http_head_not_registered :
  toolCallRequest.Name call_http_head ∉ toolNames newToolServer.
Proof. apply (bool_decide_unpack _). vm_compute. exact I. Qed.

Lemma unknown_tool_status_404_witness :
  handleCallTool sample_ParseRequestURI sample_NewRequest sample_Do sample_Quote
    newToolServer (Ok call_http_head)
  = Response.mk 404 (errorBody "tool 'http_head' not found" 404).
Proof.
  exact (unknown_tool_status_404 sample_ParseRequestURI sample_NewRequest sample_Do
           sample_Quote newToolServer call_http_head
           http_head_not_registered).
Defined.

(** C2, the claim as stated fails: the server registers the five tools
    [http_get] to [http_delete]; a call of [http_head] with a good [url]
    argument is answered with 404, not 400, whatever the libraries do. *)
Lemma unknown_tool_is_not_400 :
  toolNames newToolServer = ["http_get"; "http_post"; "http_put"; "http_patch"; "http_delete"]
  ∧ ∀ url_ParseRequestURI http_NewRequest httpClient_Do Quote,
      Response.Status
        (handleCallTool url_ParseRequestURI http_NewRequest httpClient_Do Quote
           newToolServer (Ok call_http_head))
      = 404.
Proof. split; reflexivity. Qed.

End HttpToolsFacts.

(** ** The end-to-end scenarios of the specification, on the samples *)
Module Scenarios.
Import discovery mediator api.

(** No tools: the answer carries the upstream content and usage under the
    mediator's model name, and the one request sent has no tools. *)
Example scenario_no_tools :
  HandleChat sample_ListTools sample_CallTool hello_Completions sample_Unmarshal
    sample_Marshal 5 sample_mediator [] request_hi
  = ([openai.ChatCompletionNewParams.mk "llama3" [openai.UserMessage "hi"] None],
     Done (Ok (types.ChatCompletionResponse.mk "cmpl-0" "chat.completion" 1700000000
                 "go-agent-1"
                 [types.Choice.mk 0 "stop" (types.AssistantMessage.mk "assistant" "hello")]
                 (types.Usage.mk 1 1 2)))).
Proof. vm_compute. reflexivity. Qed.

(** One tool invoked: the second request carries the user message, the
    assistant's tool call and the tool result, and the turn ends with the
    second completion. *)
Example scenario_one_tool :
  openai.ChatCompletionNewParams.Messages <$> sample_turn.1 !! 1%nat
  = Some [openai.UserMessage "hi";
          openai.AssistantMessage ""
            [openai.ToolCall.mk "call-1" (openai.ToolCallFunction.mk "alpha__ping__2" "")];
          openai.ToolMessage "{tool:ping,server:alpha}" "call-1"]
  ∧ sample_turn.2 = Done (Ok sample_response).
Proof. split; vm_compute; reflexivity. Qed.

(** Another model is answered with 404 and a streaming request with 400. *)
Example scenario_unsupported_model :
  handleChatCompletions sample_ListTools sample_CallTool sample_Completions
    sample_Unmarshal sample_Marshal 5 sample_mediator sample_servers
    (Ok request_other_model)
  = Done (Response.mk 404
            (openAIError (openAIErrorDetails.mk "model not supported: other" "Not Found"))).
Proof. vm_compute. reflexivity. Qed.

Example scenario_streaming_refused :
  handleChatCompletions sample_ListTools sample_CallTool sample_Completions
    sample_Unmarshal sample_Marshal 5 sample_mediator sample_servers
    (Ok request_stream)
  = Done (Response.mk 400
            (openAIError (openAIErrorDetails.mk "streaming is not supported" "Bad Request"))).
Proof. vm_compute. reflexivity. Qed.

Example slugify_samples :
  slugify "  My-Server.local:8080 " = "my_server_local_8080"
  ∧ slugify "   " = "tool"
  ∧ slugify "http/GET v2" = "http_get_v2".
Proof. repeat split. Qed.

End Scenarios.

(** ** The registry: snapshot, pruning and event delivery *)
Module RegistryFacts.
Import discovery registry.

Lemma trySend_cap (evt : Event.t) (c : Chan.t) : Chan.cap (trySend evt c) = Chan.cap c.
Proof. unfold trySend. by destruct (decide _). Qed.

Lemma trySend_room (evt : Event.t) (c : Chan.t) :
  (length (Chan.queue c) < Chan.cap c)%nat →
  trySend evt c = Chan.mk (Chan.cap c) (Chan.queue c ++ [evt]).
Proof. intros Hr. unfold trySend. by rewrite decide_True. Qed.

Lemma broadcast_lookup (evt : Event.t) (info : ServerInfo.t)
    (subs : gmap positive Chan.t) (ch : positive) :
  Event.Server evt = Some info →
  broadcast evt subs !! ch = trySend evt <$> subs !! ch.
Proof. intros Hs. unfold broadcast. rewrite Hs. apply lookup_fmap. Qed.

Lemma handleEvent_insert (state : gmap string ServerInfo.t) (ty : string)
    (info : ServerInfo.t) :
  ty = EventAdded ∨ ty = EventUpdated →
  handleEvent state (Event.mk ty (Some info)) = <[ServerInfo.Instance info := info]> state.
Proof.
  intros Hty. unfold handleEvent, handleAgentWrapperEvent, handleToolEvent,
    handleGenericEvent. simpl.
  destruct Hty as [-> | ->]; repeat case_decide; done.
Qed.

Lemma handleEvent_removed (state : gmap string ServerInfo.t) (info : ServerInfo.t) :
  handleEvent state (Event.mk EventRemoved (Some info))
  = delete (ServerInfo.Instance info) state.
Proof.
  unfold handleEvent, handleAgentWrapperEvent, handleToolEvent, handleGenericEvent.
  simpl. repeat case_decide; done.
Qed.

Lemma observe_Instance (now : Z) (entry : ServiceEntry.t) :
  ServerInfo.Instance (observe now entry) = ServiceEntry.Instance entry.
Proof. reflexivity. Qed.

(** *** The prune loop *)

Lemma pruneLoop_clone (threshold : Z) (entries : list (string * ServerInfo.t)) :
  ∀ clone subs,
    (pruneLoop threshold entries clone subs).1
    = foldl (λ c kv, delete kv.1 c) clone
        (filter (λ kv, ServerInfo.LastSeen kv.2 < threshold) entries).
Proof.
  induction entries as [|[key info] rest IH]; intros clone subs; simpl; [done|].
  rewrite filter_cons. simpl.
  destruct (decide (ServerInfo.LastSeen info < threshold)); simpl; apply IH.
Qed.

Lemma pruneLoop_subscribers (threshold : Z) (entries : list (string * ServerInfo.t)) :
  ∀ clone subs,
    (pruneLoop threshold entries clone subs).2
    = foldl (λ s kv, broadcast (Event.mk EventRemoved (Some kv.2)) s) subs
        (filter (λ kv, ServerInfo.LastSeen kv.2 < threshold) entries).
Proof.
  induction entries as [|[key info] rest IH]; intros clone subs; simpl; [done|].
  rewrite filter_cons. simpl.
  destruct (decide (ServerInfo.LastSeen info < threshold)); simpl; apply IH.
Qed.

Lemma foldl_delete_lookup (l : list (string * ServerInfo.t)) :
  ∀ (m : gmap string ServerInfo.t) (k : string),
    foldl (λ c kv, delete kv.1 c) m l !! k
    = if decide (k ∈ l.*1) then None else m !! k.
Proof.
  induction l as [|[key info] rest IH]; intros m k.
  - destruct (decide (k ∈ ([] : list (string * ServerInfo.t)).*1)) as [Hin|_]; [|done].
    by apply elem_of_nil in Hin.
  - change (foldl (λ c kv, delete kv.1 c) m ((key, info) :: rest))
      with (foldl (λ c kv, delete kv.1 c) (delete key m) rest).
    rewrite IH, fmap_cons. simpl.
    destruct (decide (k ∈ rest.*1)) as [Hin|Hnin];
      destruct (decide (k ∈ key :: rest.*1)) as [Hin'|Hnin']; try done.
    + exfalso. apply Hnin'. by right.
    + apply elem_of_cons in Hin' as [->|?]; [|done]. apply lookup_delete_eq.
    + apply lookup_delete_ne. intros ->. apply Hnin'. by left.
Qed.

Lemma pruneStale_snapshot_lookup (now : Z) (d : Discovery.t) (k : string) :
  Discovery.snapshot (pruneStale now d) !! k
  = match Discovery.snapshot d !! k with
    | Some info =>
        if decide (ServerInfo.LastSeen info < now - Options.EntryTTL (Discovery.opts d))
        then None else Some info
    | None => None
    end.
Proof.
  unfold pruneStale.
  destruct (decide (size (Discovery.snapshot d) = 0%nat)) as [He|Hne].
  { apply map_size_empty_iff in He. rewrite He, lookup_empty. done. }
  destruct (pruneLoop _ _ _ _) as [clone subs] eqn:Hl. simpl.
  apply (f_equal fst) in Hl. rewrite pruneLoop_clone in Hl. simpl in Hl. subst clone.
  rewrite foldl_delete_lookup.
  set (thr := now - Options.EntryTTL (Discovery.opts d)).
  destruct (Discovery.snapshot d !! k) as [info|] eqn:Hk.
  - destruct (decide (ServerInfo.LastSeen info < thr)) as [Hs|Hs].
    + rewrite decide_True; [done|].
      apply list_elem_of_fmap. exists (k, info). split; [done|].
      apply list_elem_of_filter. split; [done|]. by apply elem_of_map_to_list.
    + rewrite decide_False; [done|].
      intros [[k' info'] [-> [Hst Hin%elem_of_map_to_list]%list_elem_of_filter]]%list_elem_of_fmap.
      simpl in *. congruence.
  - by destruct (decide _).
Qed.

Lemma pruneStale_keeps_fresh_lookup (now : Z) (d : Discovery.t) (key : string)
    (info : ServerInfo.t) :
  Discovery.snapshot (pruneStale now d) !! key = Some info →
  Discovery.snapshot d !! key = Some info.
Proof.
  rewrite pruneStale_snapshot_lookup.
  destruct (Discovery.snapshot d !! key) as [info'|]; [|done].
  by destruct (decide _).
Qed.

(** Pruning at [now] keeps exactly the records seen within the TTL, and
    keeps them unchanged: afterwards every record of the snapshot satisfies
    [now - ttl <= last_seen]. *)
Theorem pruneStale_keeps_fresh (now : Z) (d : Discovery.t) (key : string)
    (info : ServerInfo.t) :
  Discovery.snapshot (pruneStale now d) !! key = Some info
  ↔ Discovery.snapshot d !! key = Some info
    ∧ now - Options.EntryTTL (Discovery.opts d) ≤ ServerInfo.LastSeen info.
Proof.
  rewrite pruneStale_snapshot_lookup.
  destruct (Discovery.snapshot d !! key) as [info'|]; [|by split; [|intros [? _]]].
  destruct (decide _); split.
  - done.
  - intros [[= ->] ?]. lia.
  - intros [= ->]. split; [done|lia].
  - by intros [? _].
Qed.

Lemma pruneStale_snapshot_eq (now : Z) (d : Discovery.t) :
  Discovery.snapshot (pruneStale now d)
  = foldl (λ c kv, delete kv.1 c) (Discovery.snapshot d)
      (staleEntries (now - Options.EntryTTL (Discovery.opts d)) (Discovery.snapshot d)).
Proof.
  unfold pruneStale, staleEntries.
  destruct (decide (size (Discovery.snapshot d) = 0%nat)) as [He|Hne].
  { apply map_size_empty_iff in He. rewrite He, map_to_list_empty. done. }
  destruct (pruneLoop _ _ _ _) as [clone subs] eqn:Hl. simpl.
  apply (f_equal fst) in Hl. by rewrite pruneLoop_clone in Hl.
Qed.

Lemma pruneStale_subscribers_eq (now : Z) (d : Discovery.t) :
  Discovery.subscribers (pruneStale now d)
  = foldl (λ s kv, broadcast (Event.mk EventRemoved (Some kv.2)) s)
      (Discovery.subscribers d)
      (staleEntries (now - Options.EntryTTL (Discovery.opts d)) (Discovery.snapshot d)).
Proof.
  unfold pruneStale, staleEntries.
  destruct (decide (size (Discovery.snapshot d) = 0%nat)) as [He|Hne].
  { apply map_size_empty_iff in He. rewrite He, map_to_list_empty. done. }
  destruct (pruneLoop _ _ _ _) as [clone subs] eqn:Hl. simpl.
  apply (f_equal snd) in Hl. by rewrite pruneLoop_subscribers in Hl.
Qed.

(** *** Invariants of every reachable registry *)

Lemma broadcast_inv (evt : Event.t) (subs : gmap positive Chan.t) :
  eventOk evt →
  (∀ ch c, subs !! ch = Some c →
     (1 ≤ Chan.cap c)%nat ∧ (length (Chan.queue c) ≤ Chan.cap c)%nat
     ∧ Forall eventOk (Chan.queue c)) →
  ∀ ch c, broadcast evt subs !! ch = Some c →
    (1 ≤ Chan.cap c)%nat ∧ (length (Chan.queue c) ≤ Chan.cap c)%nat
    ∧ Forall eventOk (Chan.queue c).
Proof.
  intros Hok Hinv ch c. destruct Hok as [[info Hs] Hty].
  rewrite (broadcast_lookup _ info) by done.
  destruct (subs !! ch) as [c0|] eqn:Hc; simpl; [|done]. intros [= <-].
  destruct (Hinv ch c0 Hc) as (Hcap & Hlen & Hq).
  unfold trySend. destruct (decide _); simpl; [|done].
  split; [done|]. split; [rewrite length_app; simpl; lia|].
  apply Forall_app. split; [done|]. constructor; [|done]. split; [by eexists|done].
Qed.

Lemma foldl_broadcast_inv (l : list (string * ServerInfo.t)) :
  ∀ subs,
    (∀ ch c, subs !! ch = Some c →
       (1 ≤ Chan.cap c)%nat ∧ (length (Chan.queue c) ≤ Chan.cap c)%nat
       ∧ Forall eventOk (Chan.queue c)) →
    ∀ ch c,
      foldl (λ s kv, broadcast (Event.mk EventRemoved (Some kv.2)) s) subs l !! ch = Some c →
      (1 ≤ Chan.cap c)%nat ∧ (length (Chan.queue c) ≤ Chan.cap c)%nat
      ∧ Forall eventOk (Chan.queue c).
Proof.
  induction l as [|kv rest IH]; intros subs Hinv; simpl; [done|].
  apply IH. apply broadcast_inv; [|done].
  split; [by eexists|]. right. by right.
Qed.

Lemma registryInv_New (opts : Options.t) : registryInv (New opts).
Proof.
  split.
  - intros key info. simpl. by rewrite lookup_empty.
  - intros ch c. simpl. by rewrite lookup_empty.
Qed.

Lemma step_inv (d : Discovery.t) (a : action) : registryInv d → registryInv (step d a).
Proof.
  intros [Hkeys Hsubs]. destruct a as [now [entry|]|now|buffer|ch]; simpl; [|done|..].
  - split; simpl.
    + intros key info.
      destruct (decide (key = ServiceEntry.Instance entry)) as [->|Hne].
      * rewrite lookup_insert_eq. by intros [= <-].
      * rewrite lookup_insert_ne by done. apply Hkeys.
    + destruct (Discovery.snapshot d !! ServiceEntry.Instance entry);
        (apply broadcast_inv; [|done]); (split; [by eexists|]); [right; by left|by left].
  - split.
    + intros key info Hk. apply pruneStale_keeps_fresh_lookup in Hk. by apply Hkeys.
    + rewrite pruneStale_subscribers_eq. by apply foldl_broadcast_inv.
  - split; [done|]. simpl. intros ch c.
    destruct (decide (ch = fresh (dom (Discovery.subscribers d)))) as [->|Hne].
    + rewrite lookup_insert_eq. intros [= <-]. simpl.
      split; [destruct (decide (buffer ≤ 0)); lia|]. split; [lia|constructor].
    + rewrite lookup_insert_ne by done. apply Hsubs.
  - split; [done|]. simpl. intros ch' c Hc.
    apply lookup_delete_Some in Hc as [_ Hc]. by eapply Hsubs.
Qed.

(** From a new registry, whatever is observed, pruned, subscribed and
    unsubscribed: every record is stored under its own instance name, every
    subscriber channel has at least one slot and never holds more events than
    slots, and every queued event carries a record and one of the types
    [added], [updated], [removed]. *)
Theorem registry_invariants (opts : Options.t) (actions : list action) :
  registryInv (steps (New opts) actions).
Proof.
  unfold steps. generalize (registryInv_New opts). generalize (New opts).
  induction actions as [|a rest IH]; intros d Hinv; simpl; [done|].
  apply IH. by apply step_inv.
Qed.

(** *** A subscriber that keeps up *)

Lemma foldl_broadcast_room (l : list (string * ServerInfo.t)) :
  ∀ (subs : gmap positive Chan.t) (ch : positive) (c : Chan.t),
    subs !! ch = Some c →
    (length (Chan.queue c) + length l ≤ Chan.cap c)%nat →
    foldl (λ s kv, broadcast (Event.mk EventRemoved (Some kv.2)) s) subs l !! ch
    = Some (Chan.mk (Chan.cap c)
              (Chan.queue c ++ ((λ kv, Event.mk EventRemoved (Some kv.2)) <$> l))).
Proof.
  induction l as [|kv rest IH]; intros subs ch c Hc Hroom; simpl.
  - rewrite app_nil_r. by destruct c.
  - simpl in Hroom.
    rewrite (IH _ ch (Chan.mk (Chan.cap c)
                        (Chan.queue c ++ [Event.mk EventRemoved (Some kv.2)]))).
    + simpl. by rewrite <- app_assoc.
    + rewrite (broadcast_lookup _ kv.2) by done. rewrite Hc. simpl.
      by rewrite trySend_room by lia.
    + simpl. rewrite length_app. simpl. lia.
Qed.

Lemma foldl_handleEvent_removed (l : list (string * ServerInfo.t)) :
  ∀ (state : gmap string ServerInfo.t),
    (∀ kv, kv ∈ l → ServerInfo.Instance kv.2 = kv.1) →
    foldl handleEvent state ((λ kv, Event.mk EventRemoved (Some kv.2)) <$> l)
    = foldl (λ c kv, delete kv.1 c) state l.
Proof.
  induction l as [|kv rest IH]; intros state Hk; [done|].
  rewrite fmap_cons. simpl. rewrite handleEvent_removed, (Hk kv) by (by left).
  apply IH. intros kv' Hin. apply Hk. by right.
Qed.

(** A subscriber whose channel has room for the events of an action, and
    whose state is the snapshot once it has handled the events queued so far,
    is in the same position after the action: handling every event it was
    sent rebuilds the new snapshot. *)
Theorem subscriber_stays_synced (d : Discovery.t) (a : action) (ch : positive)
    (state : gmap string ServerInfo.t) :
  registryInv d →
  synced d ch state →
  a ≠ DoUnsubscribe ch →
  (∀ c, Discovery.subscribers d !! ch = Some c →
     (length (Chan.queue c) + emitted d a ≤ Chan.cap c)%nat) →
  synced (step d a) ch state.
Proof.
  intros [Hkeys _] (c & Hc & Hsync) Hna Hroom. specialize (Hroom c Hc).
  destruct a as [now [entry|]|now|buffer|ch']; simpl in *.
  - set (srv := observe now entry).
    exists (Chan.mk (Chan.cap c)
              (Chan.queue c ++
                 [Event.mk (match Discovery.snapshot d !! ServiceEntry.Instance entry with
                            | Some _ => EventUpdated | None => EventAdded end)
                    (Some srv)])).
    split; simpl.
    + destruct (Discovery.snapshot d !! ServiceEntry.Instance entry);
        rewrite (broadcast_lookup _ srv) by done; rewrite Hc; simpl;
        by rewrite trySend_room by lia.
    + rewrite foldl_app, Hsync. simpl.
      rewrite handleEvent_insert; [done|].
      destruct (Discovery.snapshot d !! ServiceEntry.Instance entry); [by right|by left].
  - by exists c.
  - eexists. split.
    + rewrite pruneStale_subscribers_eq. by apply foldl_broadcast_room.
    + simpl. rewrite foldl_app, Hsync, pruneStale_snapshot_eq.
      apply foldl_handleEvent_removed.
      intros [k info] [_ Hin%elem_of_map_to_list]%list_elem_of_filter. simpl.
      by apply Hkeys.
  - exists c. split; [|done]. simpl. rewrite lookup_insert_ne; [done|].
    intros <-. apply (is_fresh (dom (Discovery.subscribers d))).
    apply elem_of_dom. by eexists.
  - exists c. split; [|done]. simpl. rewrite lookup_delete_ne; [done|]. congruence.
Qed.

Lemma subscriber_stays_synced_witness :
  synced (step registry_one_subscriber (Observe 100 (Some entry_alpha))) channel_one ∅.
Proof.
  apply (subscriber_stays_synced registry_one_subscriber
           (Observe 100 (Some entry_alpha)) channel_one ∅).
  - apply (step_inv _ (DoSubscribe 2)), registryInv_New.
  - eexists. split; [by vm_compute|reflexivity].
  - discriminate.
  - intros c Hc. vm_compute in Hc. injection Hc as <-. simpl. lia.
Defined.

End RegistryFacts.

(** ** TXT metadata: parsing, announcing, classifying *)
Module TxtFacts.
Import discovery registry StringFacts.

Lemma TrimLeftSpace_hasNonSpace (s : string) :
  hasNonSpace (TrimLeftSpace s) = hasNonSpace s.
Proof.
  induction s as [|a s IH]; simpl; [done|].
  destruct (isSpace a) eqn:E; simpl; [done|]. by rewrite E.
Qed.

Lemma TrimRightSpace_nonempty (s : string) :
  hasNonSpace s = true → TrimRightSpace s ≠ "".
Proof.
  induction s as [|a s IH]; simpl; [done|]. intros H.
  destruct (TrimRightSpace s) eqn:E; [|done].
  destruct (isSpace a) eqn:Ea; [|done]. simpl in H.
  destruct (hasNonSpace s); [by apply IH|done].
Qed.

Lemma TrimSpace_nonempty (s : string) : hasNonSpace s = true → TrimSpace s ≠ "".
Proof.
  intros H. apply TrimRightSpace_nonempty. by rewrite TrimLeftSpace_hasNonSpace.
Qed.

Lemma TrimSpace_blank (s : string) : hasNonSpace s = false → TrimSpace s = "".
Proof.
  unfold TrimSpace. induction s as [|a s IH]; simpl; [done|].
  destruct (isSpace a); simpl; [done|discriminate].
Qed.

Lemma hasNonSpace_ContainsByte (s : string) (c : ascii) :
  isSpace c = false → ContainsByte s c = true → hasNonSpace s = true.
Proof.
  intros Hc. induction s as [|a s IH]; simpl; [done|].
  destruct (decide (a = c)) as [->|]; [by rewrite Hc|].
  intros H. rewrite IH by done. apply orb_true_r.
Qed.

Lemma ContainsByte_app_r (s t : string) (c : ascii) :
  ContainsByte t c = true → ContainsByte (s +:+ t) c = true.
Proof. intros H. rewrite ContainsByte_app, H. apply orb_true_r. Qed.

Lemma parseTxtRecord_cases (txt : string) :
  (ContainsByte txt "=" = false ∧ parseTxtRecord txt = [])
  ∨ (∃ k v, parseTxtRecord txt = [k; v] ∧ txt = k +:+ "=" +:+ v
            ∧ ContainsByte k "=" = false).
Proof.
  induction txt as [|c rest IH]; simpl; [by left|].
  destruct (decide (c = "="%char)) as [->|Hne].
  - right. by exists "", rest.
  - destruct IH as [[Hn ->]|(k & v & -> & -> & Hk)]; [by left|].
    right. exists (String c k), v. repeat split. simpl. by rewrite decide_False.
Qed.

(** [parseTxtRecord] undoes the wire format: it gives nothing exactly when
    the record holds no ['='], and otherwise the two parts around the first
    ['='], so that joining them with ['='] gives the record back. *)
Theorem parseTxtRecord_splits_at_first_equals (txt : string) :
  (ContainsByte txt "=" = false ∧ parseTxtRecord txt = [])
  ∨ (∃ k v, parseTxtRecord txt = [k; v] ∧ txt = k +:+ "=" +:+ v
            ∧ ContainsByte k "=" = false).
Proof.
  induction txt as [|c rest IH]; simpl; [by left|].
  destruct (decide (c = "="%char)) as [->|Hne].
  - right. by exists "", rest.
  - destruct IH as [[Hn ->]|(k & v & -> & -> & Hk)]; [by left|].
    right. exists (String c k), v. repeat split. simpl. by rewrite decide_False.
Qed.

(** Records without ['='] are dropped: they leave no trace in the text map. *)
Theorem textMap_drops_malformed (records : list string) :
  textMap records = textMap (filter (λ r, ContainsByte r "=" = true) records).
Proof.
  unfold textMap. generalize (∅ : gmap string string).
  induction records as [|r rest IH]; intros m; [done|].
  rewrite filter_cons. simpl.
  destruct (parseTxtRecord_cases r)
    as [[Hn ->]|(k & v & Hp & Hr & Hk)].
  - rewrite decide_False by (by rewrite Hn). apply IH.
  - rewrite decide_True.
    + simpl. rewrite Hp. apply IH.
    + rewrite Hr. by apply ContainsByte_app_r.
Qed.

Lemma textMap_foldl_app (m : gmap string string) (l1 l2 : list string) :
  foldl (λ m txt, match parseTxtRecord txt with [k; v] => <[k := v]> m | _ => m end)
    m (l1 ++ l2)
  = foldl (λ m txt, match parseTxtRecord txt with [k; v] => <[k := v]> m | _ => m end)
      (foldl (λ m txt, match parseTxtRecord txt with [k; v] => <[k := v]> m | _ => m end)
         m l1) l2.
Proof. apply foldl_app. Qed.

Lemma textMap_foldl_other (k : string) (later : list string) :
  Forall (λ r, ∀ v, parseTxtRecord r ≠ [k; v]) later →
  ∀ m : gmap string string,
    foldl (λ m txt, match parseTxtRecord txt with [k; v] => <[k := v]> m | _ => m end)
      m later !! k = m !! k.
Proof.
  induction 1 as [|r rest Hr _ IH]; intros m; simpl; [done|].
  rewrite IH.
  destruct (parseTxtRecord r) as [|k' [|v' [|]]] eqn:Hp; try done.
  apply lookup_insert_ne. intros ->. by apply (Hr v').
Qed.

(** When a key is announced more than once, the last record wins. *)
Theorem textMap_last_record_wins (earlier later : list string) (k v : string) :
  ContainsByte k "=" = false →
  Forall (λ r, ∀ v', parseTxtRecord r ≠ [k; v']) later →
  textMap (earlier ++ (k +:+ "=" +:+ v) :: later) !! k = Some v.
Proof.
  intros Hk Hlater. unfold textMap. rewrite textMap_foldl_app. simpl.
  rewrite DiscoveryFacts.parseTxtRecord_encode by done.
  rewrite textMap_foldl_other by done. apply lookup_insert_eq.
Qed.

Lemma textMap_last_record_wins_witness :
  textMap (["role=tool"; "model=a"] ++ ("role" +:+ "=" +:+ "agent-wrapper") :: ["model=b"])
    !! "role" = Some "agent-wrapper".
Proof.
  apply (textMap_last_record_wins ["role=tool"; "model=a"] ["model=b"]
           "role" "agent-wrapper"); [reflexivity|].
  repeat constructor. intros v'. discriminate.
Defined.

(** Every record the announcer registers holds an ['=']: the registry parses
    each of them and drops none; blank keys are left out. *)
Theorem txtRecords_all_parse (entries : list (string * string)) :
  Forall (λ r, length (parseTxtRecord r) = 2%nat) (txtRecords entries)
  ∧ (length (txtRecords entries) ≤ length entries)%nat.
Proof.
  induction entries as [|[k v] rest [IH1 IH2]]; simpl; [by split; [constructor|]|].
  destruct (decide (TrimSpace k = "")); [split; [done|lia]|].
  split; [|simpl; lia]. constructor; [|done].
  destruct (parseTxtRecord_cases (TrimSpace k +:+ "=" +:+ TrimSpace v))
    as [[Hn _]|(k' & v' & -> & _)]; [|done].
  rewrite ContainsByte_app in Hn. apply orb_false_iff in Hn as [_ Hn].
  by simpl in Hn.
Qed.

(** *** The round trip of a whole text map *)

Lemma txtRecords_wireSafe (entries : list (string * string)) :
  Forall (λ kv, wireSafe kv.1 kv.2) entries →
  txtRecords entries = (λ kv, kv.1 +:+ "=" +:+ kv.2) <$> entries.
Proof.
  induction 1 as [|[k v] rest (Hk & Hne & _ & Hv) _ IH]; [done|]. simpl in *.
  rewrite Hk, Hv, decide_False by done. by rewrite IH.
Qed.

Lemma textMap_encoded (entries : list (string * string)) :
  Forall (λ kv, wireSafe kv.1 kv.2) entries →
  ∀ m : gmap string string,
    foldl (λ m txt, match parseTxtRecord txt with [k; v] => <[k := v]> m | _ => m end)
      m ((λ kv, kv.1 +:+ "=" +:+ kv.2) <$> entries)
    = foldl (λ m kv, <[kv.1 := kv.2]> m) m entries.
Proof.
  induction 1 as [|[k v] rest (_ & _ & Hk & _) _ IH]; intros m; [done|].
  rewrite fmap_cons. simpl in *.
  rewrite DiscoveryFacts.parseTxtRecord_encode by done. apply IH.
Qed.

Lemma foldl_insert_notin (l : list (string * string)) :
  ∀ (m : gmap string string) (k : string),
    k ∉ l.*1 → foldl (λ m kv, <[kv.1 := kv.2]> m) m l !! k = m !! k.
Proof.
  induction l as [|[k' v'] rest IH]; intros m k Hn; [done|].
  rewrite fmap_cons in Hn. apply not_elem_of_cons in Hn as [Hne Hn].
  simpl. rewrite IH by done. by apply lookup_insert_ne.
Qed.

Lemma foldl_insert_in (l : list (string * string)) :
  NoDup (l.*1) →
  ∀ (m : gmap string string) (k v : string),
    (k, v) ∈ l → foldl (λ m kv, <[kv.1 := kv.2]> m) m l !! k = Some v.
Proof.
  induction l as [|[k' v'] rest IH]; intros Hnd m k v Hin; [by apply elem_of_nil in Hin|].
  rewrite fmap_cons in Hnd. apply NoDup_cons in Hnd as [Hk' Hnd].
  apply elem_of_cons in Hin as [[= -> ->]|Hin]; simpl.
  - rewrite foldl_insert_notin by done. apply lookup_insert_eq.
  - by apply IH.
Qed.

(** A text map whose pairs are all wire-safe comes back from the wire as it
    was, in whatever order the announcer's [range] visits its entries. *)
Theorem text_map_round_trip (text : gmap string string) (entries : list (string * string)) :
  entries ≡ₚ map_to_list text →
  map_Forall wireSafe text →
  textMap (txtRecords entries) = text.
Proof.
  intros Hp Hsafe.
  assert (Hall : Forall (λ kv, wireSafe kv.1 kv.2) entries).
  { apply Forall_forall. intros [k v] Hin. rewrite Hp in Hin.
    apply elem_of_map_to_list in Hin. by apply (Hsafe k v). }
  unfold textMap. rewrite txtRecords_wireSafe, textMap_encoded by done.
  assert (Hnd : NoDup (entries.*1)).
  { rewrite Hp. apply NoDup_fst_map_to_list. }
  apply map_eq. intros k. destruct (text !! k) as [v|] eqn:Hk.
  - apply foldl_insert_in; [done|]. rewrite Hp. by apply elem_of_map_to_list.
  - rewrite foldl_insert_notin; [apply lookup_empty|].
    intros [[k' v'] [-> Hin]]%list_elem_of_fmap. rewrite Hp in Hin.
    apply elem_of_map_to_list in Hin. simpl in *. congruence.
Qed.

Lemma text_map_round_trip_witness :
  textMap (txtRecords [("role", "agent-wrapper"); ("model", "llama3")])
  = {[ "model" := "llama3"; "role" := "agent-wrapper" ]}.
Proof.
  apply (text_map_round_trip {[ "model" := "llama3"; "role" := "agent-wrapper" ]}
           [("role", "agent-wrapper"); ("model", "llama3")]).
  - apply NoDup_Permutation.
    + apply NoDup_cons. split; [|apply NoDup_singleton].
      rewrite list_elem_of_singleton. discriminate.
    + apply NoDup_map_to_list.
    + intros [k v]. rewrite elem_of_map_to_list.
      rewrite !elem_of_cons, elem_of_nil.
      rewrite lookup_insert_Some, lookup_singleton_Some. split.
      * intros [[= -> ->]|[[= -> ->]|[]]]; [right|left]; by repeat split.
      * intros [[<- <-]|[_ [<- <-]]]; [right; left|left]; done.
  - intros k v. rewrite lookup_insert_Some, lookup_singleton_Some.
    intros [[<- <-]|[_ [<- <-]]]; by repeat split.
Defined.


End TxtFacts.

(** ** The mediator: construction, admission and tool dispatch *)
Module ChatFacts.
Import discovery mediator StringFacts.

Lemma kindSet_elem (kinds : list string) :
  ∀ (set0 : gset string) (k : string),
    k ∈ foldl (λ (set : gset string) k,
                 let k := ToLower (TrimSpace k) in
                 if decide (k ≠ "") then {[ k ]} ∪ set else set) set0 kinds
    ↔ k ∈ set0 ∨ (k ≠ "" ∧ ∃ raw, raw ∈ kinds ∧ k = ToLower (TrimSpace raw)).
Proof.
  induction kinds as [|raw rest IH]; intros set0 k; simpl.
  - split; [by left|]. intros [?|(_ & raw & Hin & _)]; [done|].
    by apply elem_of_nil in Hin.
  - rewrite IH. destruct (decide (ToLower (TrimSpace raw) ≠ "")) as [Hne|He].
    + rewrite elem_of_union, elem_of_singleton. split.
      * intros [[->|?]|(Hk & raw' & Hin & ->)].
        -- right. split; [done|]. exists raw. split; [left|done].
        -- by left.
        -- right. split; [done|]. exists raw'. split; [by right|done].
      * intros [?|(Hk & raw' & Hin & ->)]; [by left; right|].
        apply elem_of_cons in Hin as [->|Hin]; [by left; left|].
        right. split; [done|]. by exists raw'.
    + split.
      * intros [?|(Hk & raw' & Hin & ->)]; [by left|].
        right. split; [done|]. exists raw'. split; [by right|done].
      * intros [?|(Hk & raw' & Hin & ->)]; [by left|].
        apply elem_of_cons in Hin as [->|Hin]; [done|].
        right. split; [done|]. by exists raw'.
Qed.

(** A mediator built by [New] has a model name that is not empty and a tool
    client, and its allowed kinds are exactly the non-empty lower-cased and
    trimmed forms of the configured kinds. *)
Theorem New_normalises (opts : Options.t) :
  Mediator.modelName (New opts) ≠ ""
  ∧ is_Some (Mediator.toolClient (New opts))
  ∧ ∀ k, k ∈ Mediator.allowedKinds (New opts)
         ↔ k ≠ "" ∧ ∃ raw, raw ∈ Options.AllowedKinds opts ∧ k = ToLower (TrimSpace raw).
Proof.
  split; [|split].
  - simpl. by destruct (decide (Options.ModelName opts = "")).
  - by eexists.
  - intros k. simpl. rewrite kindSet_elem. split; [|by right].
    intros [Hin|?]; [|done]. by apply elem_of_empty in Hin.
Qed.

Lemma validateMessages_None (msgs : list types.ChatMessage.t) :
  ∀ i, types.validateMessages i msgs = None
       ↔ Forall (λ msg, types.ChatMessage.Role msg ≠ "") msgs.
Proof.
  induction msgs as [|msg rest IH]; intros i; simpl; [by split; [constructor|]|].
  destruct (decide (types.ChatMessage.Role msg = "")) as [He|Hne].
  - split; [done|]. by intros [? _]%Forall_cons.
  - rewrite IH. split; [by constructor|]. by intros [_ ?]%Forall_cons.
Qed.

Lemma validateMessages_first (msgs : list types.ChatMessage.t) :
  ∀ (i : Z) (n : nat) (msg : types.ChatMessage.t),
    msgs !! n = Some msg → types.ChatMessage.Role msg = "" →
    Forall (λ msg', types.ChatMessage.Role msg' ≠ "") (take n msgs) →
    types.validateMessages i msgs
    = Some (Fresh ("message " +:+ itoa (i + Z.of_nat n) +:+ " missing role")).
Proof.
  induction msgs as [|msg0 rest IH]; intros i n msg Hn Hrole Hbefore; [done|].
  destruct n as [|n].
  - simpl in *. injection Hn as ->. rewrite decide_True by done.
    by rewrite Z.add_0_r.
  - rewrite firstn_cons in Hbefore. apply Forall_cons in Hbefore as [Hne Hbefore].
    cbn [types.validateMessages]. rewrite decide_False by done.
    rewrite (IH (i + 1) n msg) by done.
    by replace (i + 1 + Z.of_nat n) with (i + Z.of_nat (S n)) by lia.
Qed.

(** [Validate] reports the first message without a role, by its index. *)
Theorem Validate_reports_first_missing_role (r : types.ChatCompletionRequest.t)
    (n : nat) (msg : types.ChatMessage.t) :
  types.ChatCompletionRequest.Model r ≠ "" →
  types.ChatCompletionRequest.Messages r !! n = Some msg →
  types.ChatMessage.Role msg = "" →
  Forall (λ msg', types.ChatMessage.Role msg' ≠ "")
    (take n (types.ChatCompletionRequest.Messages r)) →
  types.Validate r = Some (Fresh ("message " +:+ itoa (Z.of_nat n) +:+ " missing role")).
Proof.
  intros Hmodel Hn Hrole Hbefore. unfold types.Validate.
  rewrite decide_False by done.
  destruct (decide (length (types.ChatCompletionRequest.Messages r) = 0%nat)) as [He|_].
  - apply length_zero_iff_nil in He. by rewrite He in Hn.
  - by rewrite (validateMessages_first _ 0 n msg).
Qed.

Lemma Validate_reports_first_missing_role_witness :
  types.Validate request_missing_role = Some (Fresh "message 1 missing role").
Proof.
  apply (Validate_reports_first_missing_role request_missing_role 1
           (types.ChatMessage.mk "" "again" "")); [done|reflexivity|reflexivity|].
  repeat constructor. discriminate.
Defined.

Section Admission.
Variable ListTools : mcp.Client.t → ServerInfo.t → result (list mcp.ToolDefinition.t).
Variable CallTool :
  mcp.Client.t → ServerInfo.t → string → object → result mcp.CallResult.t.
Variable Completions_New :
  nat → openai.ChatCompletionNewParams.t → result (option openai.ChatCompletion.t).
Variable json_Unmarshal : string → result object.
Variable json_Marshal : toolPayload.t → string.

Lemma admission_None (m : Mediator.t) (req : types.ChatCompletionRequest.t) :
  admission m req = None
  ↔ types.ChatCompletionRequest.Model req = Mediator.modelName m
    ∧ types.ChatCompletionRequest.Model req ≠ ""
    ∧ types.ChatCompletionRequest.Messages req ≠ []
    ∧ Forall (λ msg, types.ChatMessage.Role msg ≠ "")
        (types.ChatCompletionRequest.Messages req)
    ∧ types.ChatCompletionRequest.Stream req = false
    ∧ is_Some (Mediator.openaiClient m).
Proof.
  unfold admission, types.Validate, supportsModel.
  destruct (decide (types.ChatCompletionRequest.Model req = "")) as [He|Hne].
  { split; [done|]. by intros (_ & ? & _). }
  destruct (decide (length (types.ChatCompletionRequest.Messages req) = 0%nat)) as [Hl|Hl].
  { split; [done|]. intros (_ & _ & Hm & _). by apply length_zero_iff_nil in Hl. }
  destruct (types.validateMessages 0 (types.ChatCompletionRequest.Messages req)) eqn:Hv.
  { split; [done|]. intros (_ & _ & _ & Hall & _).
    apply (validateMessages_None _ 0) in Hall. by rewrite Hall in Hv. }
  apply validateMessages_None in Hv.
  destruct (types.ChatCompletionRequest.Stream req).
  { split; [done|]. by intros (_ & _ & _ & _ & ? & _). }
  rewrite bool_decide_true by done. simpl.
  destruct (decide (types.ChatCompletionRequest.Model req = Mediator.modelName m)) as [Hm|Hm].
  - rewrite bool_decide_true by done. simpl.
    destruct (Mediator.openaiClient m).
    + split; [|done]. intros _. repeat split; try done.
      intros He. by rewrite He in Hl.
    + split; [done|]. intros (_ & _ & _ & _ & _ & [? ?]). done.
  - rewrite bool_decide_false by done. simpl. split; [done|]. by intros [? _].
Qed.

(** A request is admitted exactly when it names the mediator's model, has
    at least one message, every message has a role, it does not ask for a
    stream and the upstream client is configured; a request that is not
    admitted is answered with the error of the failed check and nothing is
    sent upstream. *)
Theorem admission_exactly (fuel : nat) (m : Mediator.t) (servers : list ServerInfo.t)
    (req : types.ChatCompletionRequest.t) :
  (admission m req = None
   ↔ types.ChatCompletionRequest.Model req = Mediator.modelName m
     ∧ types.ChatCompletionRequest.Model req ≠ ""
     ∧ types.ChatCompletionRequest.Messages req ≠ []
     ∧ Forall (λ msg, types.ChatMessage.Role msg ≠ "")
         (types.ChatCompletionRequest.Messages req)
     ∧ types.ChatCompletionRequest.Stream req = false
     ∧ is_Some (Mediator.openaiClient m))
  ∧ (∀ err, admission m req = Some err →
       HandleChat ListTools CallTool Completions_New json_Unmarshal json_Marshal
         fuel m servers req = ([], Done (Err err))).
Proof.
  split; [apply admission_None|].
  intros err. apply MediatorFacts.HandleChat_rejected.
Qed.

End Admission.

Section Dispatch.
Variable ListTools : mcp.Client.t → ServerInfo.t → result (list mcp.ToolDefinition.t).
Variable CallTool :
  mcp.Client.t → ServerInfo.t → string → object → result mcp.CallResult.t.
Variable Completions_New :
  nat → openai.ChatCompletionNewParams.t → result (option openai.ChatCompletion.t).
Variable json_Unmarshal : string → result object.
Variable json_Marshal : toolPayload.t → string.

Local Abbreviation HandleChat :=
  (mediator.HandleChat ListTools CallTool Completions_New json_Unmarshal json_Marshal).
Local Abbreviation turnLoop :=
  (mediator.turnLoop CallTool Completions_New json_Unmarshal json_Marshal).
Local Abbreviation dispatchToolCalls :=
  (mediator.dispatchToolCalls CallTool json_Unmarshal json_Marshal).

Lemma dispatch_shape (m : Mediator.t) (meta : gmap string toolMeta.t)
    (calls : list openai.ToolCall.t) :
  ∀ conversation conversation',
    dispatchToolCalls m meta conversation calls = Done (Ok conversation') →
    ∃ results,
      conversation' = conversation ++ results
      ∧ Forall2 (λ msg call,
           ∃ entry client args result,
             meta !! openai.ToolCallFunction.Name (openai.ToolCall.Function call)
               = Some entry
             ∧ Mediator.toolClient m = Some client
             ∧ CallTool client (toolMeta.Server entry) (toolMeta.ToolName entry) args
               = Ok result
             ∧ msg = openai.ToolMessage
                       (json_Marshal
                          (toolPayload.mk (toolMeta.ToolName entry)
                             (ServerInfo.Instance (toolMeta.Server entry))
                             (toolMeta.Description entry) (mcp.CallResult.Result result)))
                       (openai.ToolCall.ID call))
          results calls.
Proof.
  induction calls as [|call rest IH]; intros conv conv' H; simpl in H.
  - injection H as <-. exists []. split; [by rewrite app_nil_r|constructor].
  - destruct (meta !! _) as [entry|] eqn:Hentry; [|done].
    destruct (if decide _ then _ else _) as [err|args] eqn:Hargs; [done|].
    destruct (Mediator.toolClient m) as [client|] eqn:Hclient; [|done].
    destruct (CallTool client _ _ args) as [err|result] eqn:Hcall; [done|].
    apply IH in H as (results & -> & Hall).
    eexists (_ :: results). split; [by rewrite <- app_assoc|].
    constructor; [|done]. by exists entry, client, args, result.
Qed.

(** When the tool calls of a completion are all dispatched, the
    conversation grows by exactly one tool message per call, in the order of
    the calls; each message answers its call's id and carries the result of
    calling the original tool on the server that the roster records for the
    function name. *)
Theorem tool_calls_answered_in_order (m : Mediator.t) (meta : gmap string toolMeta.t)
    (calls : list openai.ToolCall.t) (conversation conversation' : list openai.MessageParam) :
  dispatchToolCalls m meta conversation calls = Done (Ok conversation') →
  ∃ results,
    conversation' = conversation ++ results
    ∧ Forall2 (λ msg call,
         ∃ entry client args result,
           meta !! openai.ToolCallFunction.Name (openai.ToolCall.Function call)
             = Some entry
           ∧ Mediator.toolClient m = Some client
           ∧ CallTool client (toolMeta.Server entry) (toolMeta.ToolName entry) args
             = Ok result
           ∧ msg = openai.ToolMessage
                     (json_Marshal
                        (toolPayload.mk (toolMeta.ToolName entry)
                           (ServerInfo.Instance (toolMeta.Server entry))
                           (toolMeta.Description entry) (mcp.CallResult.Result result)))
                     (openai.ToolCall.ID call))
        results calls.
Proof.
  revert conversation conversation'.
  induction calls as [|call rest IH]; intros conv conv' H; simpl in H.
  - injection H as <-. exists []. split; [by rewrite app_nil_r|constructor].
  - destruct (meta !! _) as [entry|] eqn:Hentry; [|done].
    destruct (if decide _ then _ else _) as [err|args] eqn:Hargs; [done|].
    destruct (Mediator.toolClient m) as [client|] eqn:Hclient; [|done].
    destruct (CallTool client _ _ args) as [err|result] eqn:Hcall; [done|].
    apply IH in H as (results & -> & Hall).
    eexists (_ :: results). split; [by rewrite <- app_assoc|].
    constructor; [|done]. by exists entry, client, args, result.
Qed.

Lemma dispatch_returns (m : Mediator.t) (meta : gmap string toolMeta.t)
    (calls : list openai.ToolCall.t) :
  is_Some (Mediator.toolClient m) →
  ∀ conversation, ∃ r, dispatchToolCalls m meta conversation calls = Done r.
Proof.
  intros [client Hclient]. induction calls as [|call rest IH]; intros conv; simpl.
  - by eexists.
  - destruct (meta !! _) as [entry|]; [|by eexists].
    destruct (if decide _ then _ else _) as [err|args]; [by eexists|].
    rewrite Hclient.
    destruct (CallTool client _ _ args) as [err|result]; [by eexists|]. apply IH.
Qed.

Lemma turnLoop_returns (m : Mediator.t) (toolParams : list openai.ChatCompletionToolParam.t)
    (meta : gmap string toolMeta.t) (fuel : nat) :
  is_Some (Mediator.toolClient m) →
  ∀ n conversation,
    (∃ r, (turnLoop fuel m toolParams meta n conversation).2 = Done r)
    ∨ (turnLoop fuel m toolParams meta n conversation).2 = OutOfFuel.
Proof.
  intros Hclient. induction fuel as [|fuel IH]; intros n conv; simpl; [by right|].
  destruct (Completions_New n _) as [err|[resp|]]; [left; by eexists| |left; by eexists].
  destruct (openai.ChatCompletion.Choices resp) as [|choice rest] eqn:Hchoices;
    [left; by eexists|].
  destruct (decide _) as [Hnone|Hcalls].
  - unfold buildOpenAIResponse. rewrite Hchoices. left. by eexists.
  - destruct (dispatch_returns m meta
                (openai.ChatCompletionMessage.ToolCalls (openai.Choice.Message choice))
                Hclient (conv ++ [openai.ToParam (openai.Choice.Message choice)]))
      as [[err|conv'] ->]; [left; by eexists|].
    specialize (IH (S n) conv'). by destruct (mediator.turnLoop _ _ _ _ _ _ _ _ _ _).
Qed.


Lemma turnLoop_trace (m : Mediator.t) (toolParams : list openai.ChatCompletionToolParam.t)
    (meta : gmap string toolMeta.t) (fuel : nat) :
  ∀ n conversation,
    (length (turnLoop fuel m toolParams meta n conversation).1 ≤ fuel)%nat
    ∧ (∀ p, (turnLoop fuel m toolParams meta n conversation).1 !! 0%nat = Some p →
         p = completionParams m toolParams conversation)
    ∧ (∀ i p q,
         (turnLoop fuel m toolParams meta n conversation).1 !! i = Some p →
         (turnLoop fuel m toolParams meta n conversation).1 !! S i = Some q →
         openai.ChatCompletionNewParams.Model q = openai.ChatCompletionNewParams.Model p
         ∧ openai.ChatCompletionNewParams.Tools q = openai.ChatCompletionNewParams.Tools p
         ∧ ∃ content calls results,
             openai.ChatCompletionNewParams.Messages q
             = openai.ChatCompletionNewParams.Messages p
               ++ openai.AssistantMessage content calls :: results
             ∧ calls ≠ []
             ∧ Forall2 (λ msg call,
                  ∃ payload, msg = openai.ToolMessage payload (openai.ToolCall.ID call))
                 results calls).
Proof.
  induction fuel as [|fuel IH]; intros n conv; simpl.
  { split; [done|]. split; by intros. }
  assert (Hone : ∀ out : run (result types.ChatCompletionResponse.t),
    (length ([completionParams m toolParams conv], out).1 ≤ S fuel)%nat
    ∧ (∀ p, ([completionParams m toolParams conv], out).1 !! 0%nat = Some p →
         p = completionParams m toolParams conv)
    ∧ (∀ i p q,
         ([completionParams m toolParams conv], out).1 !! i = Some p →
         ([completionParams m toolParams conv], out).1 !! S i = Some q →
         openai.ChatCompletionNewParams.Model q = openai.ChatCompletionNewParams.Model p
         ∧ openai.ChatCompletionNewParams.Tools q = openai.ChatCompletionNewParams.Tools p
         ∧ ∃ content calls results,
             openai.ChatCompletionNewParams.Messages q
             = openai.ChatCompletionNewParams.Messages p
               ++ openai.AssistantMessage content calls :: results
             ∧ calls ≠ []
             ∧ Forall2 (λ msg call,
                  ∃ payload, msg = openai.ToolMessage payload (openai.ToolCall.ID call))
                 results calls)).
  { intros out. simpl. split; [lia|]. split; [by intros p [= <-]|]. by intros. }
  destruct (Completions_New n _) as [err|[resp|]]; [apply Hone| |apply Hone].
  destruct (openai.ChatCompletion.Choices resp) as [|choice rest]; [apply Hone|].
  destruct (decide _) as [Hnone|Hcalls].
  { destruct (buildOpenAIResponse _ _); apply Hone. }
  destruct (dispatchToolCalls m meta _ _) as [[err|conv']| |] eqn:Hd; try apply Hone.
  apply dispatch_shape in Hd as (results & -> & Hall).
  specialize (IH (S n)
    ((conv ++ [openai.ToParam (openai.Choice.Message choice)]) ++ results)).
  destruct (mediator.turnLoop _ _ _ _ _ _ _ _ _ _) as [trace out].
  destruct IH as (Hlen & Hhead & Hnext). simpl in *.
  split; [lia|]. split; [by intros p [= <-]|].
  intros [|i] p q Hp Hq; simpl in *.
  - injection Hp as <-. apply Hhead in Hq as ->. simpl. split; [done|]. split; [done|].
    eexists _, _, results. split; [by rewrite <- app_assoc|]. split.
    + intros He. by rewrite He in Hcalls.
    + eapply Forall2_impl; [done|].
      intros msg call (entry & client & args & result & _ & _ & _ & ->). by eexists.
  - by apply (Hnext i).
Qed.

(** The requests of a turn: there are at most as many as the bound allows;
    the first one carries the converted messages of the request (followed at
    most by the discovery warning); each later one names the same model and
    the same tools as the one before and extends its conversation by the
    assistant message that asked for tool calls and one tool message per
    call, in order. *)
Theorem turn_requests_extend (fuel : nat) (m : Mediator.t) (servers : list ServerInfo.t)
    (req : types.ChatCompletionRequest.t) :
  (length (HandleChat fuel m servers req).1 ≤ fuel)%nat
  ∧ (∀ p, (HandleChat fuel m servers req).1 !! 0%nat = Some p →
       openai.ChatCompletionNewParams.Model p = providerModelOrDefault m
       ∧ convertMessages (types.ChatCompletionRequest.Messages req)
           `prefix_of` openai.ChatCompletionNewParams.Messages p)
  ∧ (∀ i p q,
       (HandleChat fuel m servers req).1 !! i = Some p →
       (HandleChat fuel m servers req).1 !! S i = Some q →
       openai.ChatCompletionNewParams.Model q = openai.ChatCompletionNewParams.Model p
       ∧ openai.ChatCompletionNewParams.Tools q = openai.ChatCompletionNewParams.Tools p
       ∧ ∃ content calls results,
           openai.ChatCompletionNewParams.Messages q
           = openai.ChatCompletionNewParams.Messages p
             ++ openai.AssistantMessage content calls :: results
           ∧ calls ≠ []
           ∧ Forall2 (λ msg call,
                ∃ payload, msg = openai.ToolMessage payload (openai.ToolCall.ID call))
               results calls).
Proof.
  destruct (admission m req) as [err|] eqn:Hadm.
  { rewrite (MediatorFacts.HandleChat_rejected _ _ _ _ _ _ _ _ _ _ Hadm). simpl.
    split; [lia|]. split; by intros. }
  rewrite (MediatorFacts.HandleChat_admitted _ _ _ _ _ _ _ _ _ Hadm).
  destruct (collectTools ListTools m servers) as [[[[tp meta] ds] err]|].
  2:{ simpl. split; [lia|]. split; by intros. }
  match goal with
  | |- context [mediator.turnLoop _ _ _ _ fuel m tp meta 0%nat ?c] =>
      destruct (turnLoop_trace m tp meta fuel 0 c) as (Hlen & Hhead & Hnext);
      assert (Hpre : convertMessages (types.ChatCompletionRequest.Messages req)
                       `prefix_of` c)
  end.
  { destruct err; [by eexists|done]. }
  split; [done|]. split; [|done].
  intros p Hp. apply Hhead in Hp as ->. by split.
Qed.

Local Abbreviation callable := (turnSpec.callable CallTool json_Unmarshal).

Lemma dispatch_callable (m : Mediator.t) (meta : gmap string toolMeta.t)
    (calls : list openai.ToolCall.t) :
  Forall (callable m meta) calls →
  ∀ conversation, ∃ conversation',
    dispatchToolCalls m meta conversation calls = Done (Ok conversation').
Proof.
  induction 1 as [|call rest (entry & client & args & result & He & Hc & Ha & Hr) _ IH];
    intros conv; simpl; [by eexists|].
  rewrite He, Ha, Hc, Hr. apply IH.
Qed.

Lemma turnLoop_unbounded (m : Mediator.t)
    (toolParams : list openai.ChatCompletionToolParam.t) (meta : gmap string toolMeta.t) :
  (∀ n params, ∃ resp choice rest,
     Completions_New n params = Ok (Some resp)
     ∧ openai.ChatCompletion.Choices resp = choice :: rest
     ∧ openai.ChatCompletionMessage.ToolCalls (openai.Choice.Message choice) ≠ []
     ∧ Forall (callable m meta)
         (openai.ChatCompletionMessage.ToolCalls (openai.Choice.Message choice))) →
  ∀ fuel n conversation, ∃ trace,
    turnLoop fuel m toolParams meta n conversation = (trace, OutOfFuel)
    ∧ length trace = fuel.
Proof.
  intros Hup. induction fuel as [|fuel IH]; intros n conv; simpl; [by eexists|].
  destruct (Hup n (completionParams m toolParams conv))
    as (resp & choice & rest & -> & -> & Hne & Hall).
  rewrite decide_False by (by intros ?%length_zero_iff_nil).
  destruct (dispatch_callable m meta _ Hall
              (conv ++ [openai.ToParam (openai.Choice.Message choice)])) as [conv' ->].
  destruct (IH (S n) conv') as (trace & -> & <-). by eexists.
Qed.

(** The turn loop has no cap of its own: as long as the upstream answers
    every request with tool calls that go through, an admitted turn keeps
    submitting requests, one per iteration, whatever bound it is given. *)
Theorem turn_has_no_iteration_cap (fuel : nat) (m : Mediator.t)
    (servers : list ServerInfo.t) (req : types.ChatCompletionRequest.t)
    (toolParams : list openai.ChatCompletionToolParam.t) (meta : gmap string toolMeta.t)
    (descriptors : list ToolDescriptor.t) (err : option error) :
  admission m req = None →
  collectTools ListTools m servers = Some (toolParams, meta, descriptors, err) →
  (∀ n params, ∃ resp choice rest,
     Completions_New n params = Ok (Some resp)
     ∧ openai.ChatCompletion.Choices resp = choice :: rest
     ∧ openai.ChatCompletionMessage.ToolCalls (openai.Choice.Message choice) ≠ []
     ∧ Forall (callable m meta)
         (openai.ChatCompletionMessage.ToolCalls (openai.Choice.Message choice))) →
  ∃ trace, HandleChat fuel m servers req = (trace, OutOfFuel) ∧ length trace = fuel.
Proof.
  intros Hadm Hroster Hup.
  rewrite (MediatorFacts.HandleChat_admitted _ _ _ _ _ _ _ _ _ Hadm), Hroster.
  by apply turnLoop_unbounded.
Qed.

End Dispatch.

Lemma tool_calls_answered_in_order_witness :
  ∃ results,
    [openai.ToolMessage "{tool:ping,server:alpha}" "call-7"] = [] ++ results
    ∧ Forall2 (λ msg call,
         ∃ entry client args result,
           meta_ping !! openai.ToolCallFunction.Name (openai.ToolCall.Function call)
             = Some entry
           ∧ Mediator.toolClient sample_mediator = Some client
           ∧ sample_CallTool client (toolMeta.Server entry) (toolMeta.ToolName entry) args
             = Ok result
           ∧ msg = openai.ToolMessage
                     (sample_Marshal
                        (toolPayload.mk (toolMeta.ToolName entry)
                           (ServerInfo.Instance (toolMeta.Server entry))
                           (toolMeta.Description entry) (mcp.CallResult.Result result)))
                     (openai.ToolCall.ID call))
        results [call_ping].
Proof.
  apply (tool_calls_answered_in_order sample_CallTool sample_Unmarshal sample_Marshal
           sample_mediator meta_ping [call_ping] []).
  reflexivity.
Defined.

Lemma turn_has_no_iteration_cap_witness :
  ∃ trace,
    mediator.HandleChat sample_ListTools sample_CallTool looping_Completions
      sample_Unmarshal sample_Marshal 7 sample_mediator sample_servers request_hi
    = (trace, OutOfFuel)
    ∧ length trace = 7%nat.
Proof.
  destruct (collectTools sample_ListTools sample_mediator sample_servers)
    as [[[[tp meta] ds] err]|] eqn:Hroster; [|by vm_compute in Hroster].
  apply (turn_has_no_iteration_cap sample_ListTools sample_CallTool looping_Completions
           sample_Unmarshal sample_Marshal 7 sample_mediator sample_servers request_hi
           tp meta ds err); [reflexivity|done|].
  intros n params. exists completion_ping. eexists _, _.
  split; [reflexivity|]. split; [reflexivity|]. split; [done|].
  repeat constructor.
  vm_compute in Hroster. injection Hroster as <- <- <- <-.
  eexists _, _, _, _. split; [reflexivity|]. split; [reflexivity|].
  split; reflexivity.
Defined.

End ChatFacts.

(** ** The roster: which peers shape it, and what the tool endpoint shows *)
Module RosterFacts.
Import discovery mediator rosterSpec StringFacts.

Local Existing Instances MediatorFacts.key_le_trans MediatorFacts.key_le_total.

Lemma sortByKey_nil {A : Type} (key : A → string) : sortByKey key [] = [].
Proof. reflexivity. Qed.

Lemma loop_fresh (fuel : nat) (base : string) (existing : gmap string toolMeta.t) :
  ∀ (name : string) (i : Z) (r : string),
    buildFunctionName_loop fuel base name i existing = Some r → existing !! r = None.
Proof.
  induction fuel as [|fuel IH]; intros name i r; simpl;
    destruct (existing !! name) eqn:Hn; try done; try (by intros [= <-]).
  apply IH.
Qed.

Lemma buildFunctionName_fresh (instance toolName : string)
    (existing : gmap string toolMeta.t) (r : string) :
  buildFunctionName instance toolName existing = Some r → existing !! r = None.
Proof. apply loop_fresh. Qed.

Section Peers.
Variable ListTools : mcp.Client.t → ServerInfo.t → result (list mcp.ToolDefinition.t).

Local Abbreviation eligible := (rosterSpec.eligible).
Local Abbreviation failure := (rosterSpec.failure ListTools).
Local Abbreviation contributes := (rosterSpec.contributes ListTools).
Local Abbreviation lastFailure := (rosterSpec.lastFailure ListTools).
Local Abbreviation collectTools := (mediator.collectTools ListTools).
Local Abbreviation visitServers := (mediator.visitServers ListTools).
Local Abbreviation visitServer := (mediator.visitServer ListTools).

Lemma addTool_congr (srv : ServerInfo.t) (tool : mcp.ToolDefinition.t) (st1 st2 : roster.t) :
  roster.toolParams st1 = roster.toolParams st2 →
  roster.meta st1 = roster.meta st2 →
  roster.descriptors st1 = roster.descriptors st2 →
  match addTool srv st1 tool, addTool srv st2 tool with
  | Some a, Some b =>
      roster.toolParams a = roster.toolParams b ∧ roster.meta a = roster.meta b
      ∧ roster.descriptors a = roster.descriptors b
      ∧ roster.lastErr a = roster.lastErr st1 ∧ roster.lastErr b = roster.lastErr st2
  | None, None => True
  | _, _ => False
  end.
Proof.
  destruct st1, st2. simpl. intros -> -> ->. unfold addTool. simpl.
  by destruct (buildFunctionName _ _ _).
Qed.

Lemma addTools_congr (srv : ServerInfo.t) (tools : list mcp.ToolDefinition.t) :
  ∀ st1 st2,
    roster.toolParams st1 = roster.toolParams st2 →
    roster.meta st1 = roster.meta st2 →
    roster.descriptors st1 = roster.descriptors st2 →
    match addTools srv st1 tools, addTools srv st2 tools with
    | Some a, Some b =>
        roster.toolParams a = roster.toolParams b ∧ roster.meta a = roster.meta b
        ∧ roster.descriptors a = roster.descriptors b
        ∧ roster.lastErr a = roster.lastErr st1 ∧ roster.lastErr b = roster.lastErr st2
    | None, None => True
    | _, _ => False
    end.
Proof.
  induction tools as [|tool rest IH]; intros st1 st2 H1 H2 H3; simpl; [done|].
  pose proof (addTool_congr srv tool st1 st2 H1 H2 H3) as Hstep.
  destruct (addTool srv st1 tool) as [a|], (addTool srv st2 tool) as [b|]; try done.
  destruct Hstep as (Ha & Hb & Hc & <- & <-). by apply IH.
Qed.

Lemma visitServer_skipped (m : Mediator.t) (client : mcp.Client.t) (st : roster.t)
    (srv : ServerInfo.t) :
  eligible m srv = false → visitServer m client st srv = Some st.
Proof.
  unfold rosterSpec.eligible, mediator.visitServer. intros H.
  destruct (decide _) as [Hk|Hk]; [done|].
  rewrite bool_decide_false in H by done. simpl in H. by rewrite H.
Qed.

Lemma visitServer_eligible (m : Mediator.t) (client : mcp.Client.t) (st : roster.t)
    (srv : ServerInfo.t) :
  eligible m srv = true →
  visitServer m client st srv
  = match ListTools client srv with
    | Err err =>
        Some (roster.mk (roster.toolParams st) (roster.meta st)
                (roster.descriptors st) (Some err))
    | Ok tools => addTools srv st tools
    end.
Proof.
  unfold rosterSpec.eligible, mediator.visitServer. intros H.
  apply andb_true_iff in H as [Hk Hhost].
  destruct (decide _) as [Hk'|Hk'].
  - by rewrite bool_decide_true in Hk.
  - by rewrite Hhost.
Qed.

Lemma visitServers_congr (m : Mediator.t) (client : mcp.Client.t)
    (servers : list ServerInfo.t) :
  Mediator.toolClient m = Some client →
  ∀ st1 st2,
    roster.toolParams st1 = roster.toolParams st2 →
    roster.meta st1 = roster.meta st2 →
    roster.descriptors st1 = roster.descriptors st2 →
    match visitServers m client st1 servers,
          visitServers m client st2 (filter (contributes m) servers) with
    | Some a, Some b =>
        roster.toolParams a = roster.toolParams b ∧ roster.meta a = roster.meta b
        ∧ roster.descriptors a = roster.descriptors b
        ∧ roster.lastErr a
          = foldl (λ acc srv,
                     match failure m srv with Some err => Some err | None => acc end)
              (roster.lastErr st1) servers
        ∧ roster.lastErr b = roster.lastErr st2
    | None, None => True
    | _, _ => False
    end.
Proof.
  intros Hclient. induction servers as [|srv rest IH]; intros st1 st2 H1 H2 H3; [done|].
  cbn [mediator.visitServers foldl].
  destruct (eligible m srv) eqn:Hel.
  - rewrite visitServer_eligible by done.
    unfold rosterSpec.failure at 2. rewrite Hel, Hclient.
    destruct (ListTools client srv) as [err|tools] eqn:Hlist.
    + rewrite filter_cons_False.
      2:{ unfold rosterSpec.contributes, rosterSpec.failure.
          rewrite Hel, Hclient, Hlist. simpl. by intros []. }
      by apply IH.
    + rewrite filter_cons_True.
      2:{ unfold rosterSpec.contributes, rosterSpec.failure.
          rewrite Hel, Hclient, Hlist. done. }
      cbn [mediator.visitServers]. rewrite visitServer_eligible, Hlist by done.
      pose proof (addTools_congr srv tools st1 st2 H1 H2 H3) as Hstep.
      destruct (addTools srv st1 tools) as [a|], (addTools srv st2 tools) as [b|];
        try done.
      destruct Hstep as (Ha & Hb & Hc & <- & <-). by apply IH.
  - rewrite visitServer_skipped by done.
    rewrite filter_cons_False.
    2:{ unfold rosterSpec.contributes. rewrite Hel. by intros []. }
    unfold rosterSpec.failure at 2. rewrite Hel. by apply IH.
Qed.

Lemma collectTools_visit (m : Mediator.t) (client : mcp.Client.t)
    (servers : list ServerInfo.t) :
  Mediator.toolClient m = Some client →
  collectTools m servers
  = (λ st, (sortByKey paramName (roster.toolParams st), roster.meta st,
            sortByKey ToolDescriptor.Name (roster.descriptors st), roster.lastErr st))
      <$> visitServers m client (roster.mk [] ∅ [] None) servers.
Proof.
  intros Hclient. unfold mediator.collectTools.
  destruct servers as [|srv rest]; [done|].
  rewrite decide_False by done. rewrite Hclient.
  destruct (mediator.visitServers _ _ _ _ _) as [st|]; [|done]. simpl.
  destruct (decide _) as [[Hlen _]|_]; [|done].
  apply length_zero_iff_nil in Hlen. by rewrite Hlen.
Qed.

Lemma collectTools_error (m : Mediator.t) (servers : list ServerInfo.t)
    (r : list openai.ChatCompletionToolParam.t * gmap string toolMeta.t *
         list ToolDescriptor.t * option error) :
  is_Some (Mediator.toolClient m) →
  collectTools m servers = Some r → r.2 = lastFailure m servers.
Proof.
  intros [client Hclient]. rewrite (collectTools_visit m client) by done.
  pose proof (visitServers_congr m client servers Hclient
                (roster.mk [] ∅ [] None) (roster.mk [] ∅ [] None) eq_refl eq_refl eq_refl)
    as Hc.
  destruct (mediator.visitServers _ m client _ servers) as [a|]; [|done].
  destruct (mediator.visitServers _ m client _ (filter _ servers)) as [b|]; [|done].
  destruct Hc as (_ & _ & _ & Herr & _). by intros [= <-].
Qed.


Lemma lastFailure_None (m : Mediator.t) (servers : list ServerInfo.t) :
  ∀ acc,
    foldl (λ acc srv, match failure m srv with Some err => Some err | None => acc end)
      acc servers = None
    ↔ acc = None ∧ Forall (λ srv, failure m srv = None) servers.
Proof.
  induction servers as [|srv rest IH]; intros acc; simpl.
  - split; [by split|by intros [? _]].
  - rewrite IH. destruct (failure m srv) as [err|] eqn:Hf.
    + split; [by intros [? _]|]. intros [_ [? _]%Forall_cons]. congruence.
    + split; [intros [? ?]; by split; [|constructor]|].
      intros [? [_ ?]%Forall_cons]. done.
Qed.


(** *** The descriptors of the tool endpoint and the functions offered *)

Lemma describes_insert (meta : gmap string toolMeta.t) (name : string)
    (entry : toolMeta.t) (p : openai.ChatCompletionToolParam.t) (d : ToolDescriptor.t) :
  meta !! name = None → describes meta p d → describes (<[name := entry]> meta) p d.
Proof.
  intros Hfresh (Hn & Hd & Hp & e & He & Hrest). split; [done|]. split; [done|].
  split; [done|]. exists e. split; [|done].
  rewrite lookup_insert_ne; [done|]. intros ->. congruence.
Qed.

(** What [collectTools] keeps between the three collections it fills. *)
Local Abbreviation aligned st :=
  (NoDup (functionNames (roster.toolParams st))
   ∧ Forall2 (describes (roster.meta st)) (roster.toolParams st) (roster.descriptors st)
   ∧ ∀ name, is_Some (roster.meta st !! name)
             ↔ name ∈ functionNames (roster.toolParams st)).

Lemma addTool_aligned (srv : ServerInfo.t) (tool : mcp.ToolDefinition.t)
    (st st' : roster.t) :
  aligned st → addTool srv st tool = Some st' → aligned st'.
Proof.
  intros (Hnd & Hall & Hnames). unfold addTool.
  destruct (buildFunctionName _ _ _) as [name|] eqn:Hname; [|done].
  apply buildFunctionName_fresh in Hname. intros [= <-]. simpl.
  unfold functionNames in *. rewrite fmap_app. simpl.
  split; [|split].
  - apply NoDup_app. split; [done|]. split; [|apply NoDup_singleton].
    intros x Hx Hx'. apply list_elem_of_singleton in Hx'. simpl in Hx'. subst x.
    apply Hnames in Hx as [? Hx]. unfold paramName in Hx. simpl in Hx. congruence.
  - apply Forall2_app.
    + eapply Forall2_impl; [done|]. intros p d. by apply describes_insert.
    + constructor; [|constructor]. split; [done|]. split; [done|]. split; [done|].
      eexists. split; [apply lookup_insert_eq|done].
  - intros x. rewrite elem_of_app, list_elem_of_singleton, lookup_insert_is_Some.
    rewrite <- Hnames. split.
    + intros [-> | [_ ?]]; [by right|by left].
    + intros [? | ->]; [|by left].
      destruct (decide (name = x)) as [->|]; [by left|by right].
Qed.

Lemma addTools_aligned (srv : ServerInfo.t) (tools : list mcp.ToolDefinition.t) :
  ∀ st st', aligned st → addTools srv st tools = Some st' → aligned st'.
Proof.
  induction tools as [|tool rest IH]; intros st st' Hst; simpl; [by intros [= <-]|].
  destruct (addTool srv st tool) as [st1|] eqn:H1; [|done].
  apply IH. by apply (addTool_aligned srv tool st).
Qed.

Lemma visitServers_aligned (m : Mediator.t) (client : mcp.Client.t)
    (servers : list ServerInfo.t) :
  ∀ st st', aligned st → visitServers m client st servers = Some st' → aligned st'.
Proof.
  induction servers as [|srv rest IH]; intros st st' Hst; simpl; [by intros [= <-]|].
  destruct (mediator.visitServer _ m client st srv) as [st1|] eqn:H1; [|done].
  apply IH. unfold mediator.visitServer in H1.
  destruct (decide _); [by injection H1 as <-|].
  destruct (negb _); [by injection H1 as <-|].
  destruct (ListTools client srv) as [err|tools].
  - by injection H1 as <-.
  - by apply (addTools_aligned srv tools st).
Qed.

End Peers.

Lemma Sorted_key_ext {A : Type} (k1 k2 : A → string) (l : list A) :
  Forall (λ x, k1 x = k2 x) l → Sorted (key_le k1) l → Sorted (key_le k2) l.
Proof.
  intros Hall Hs. induction Hs as [|x l Hs IH Hhd]; [constructor|].
  apply Forall_cons in Hall as [Hx Hall]. constructor; [by apply IH|].
  destruct Hhd as [|y l' Hxy]; constructor.
  apply Forall_cons in Hall as [Hy _]. unfold key_le in *. by rewrite <- Hx, <- Hy.
Qed.

Lemma Forall2_fst_snd {A B : Type} (R : A → B → Prop) (l : list (A * B)) :
  Forall (λ x, R x.1 x.2) l → Forall2 R (l.*1) (l.*2).
Proof. induction 1; constructor; done. Qed.

Lemma Forall_zip {A B : Type} (R : A → B → Prop) (la : list A) (lb : list B) :
  Forall2 R la lb → Forall (λ x, R x.1 x.2) (zip la lb).
Proof. induction 1; constructor; done. Qed.

(** Sorting two aligned lists by their common keys keeps them aligned. *)
Lemma sortByKey_aligned {A B : Type} (kA : A → string) (kB : B → string)
    (R : A → B → Prop) (la : list A) (lb : list B) :
  (∀ a b, R a b → kA a = kB b) →
  NoDup (kA <$> la) →
  Forall2 R la lb →
  Forall2 R (sortByKey kA la) (sortByKey kB lb).
Proof.
  intros Hkey Hnd Hall.
  pose proof (Forall2_length _ _ _ Hall) as Hlen.
  set (z := sortByKey (kA ∘ fst) (zip la lb)).
  assert (Hz : z ≡ₚ zip la lb) by apply merge_sort_Permutation.
  assert (HzR : Forall (λ x, R x.1 x.2) z).
  { rewrite Hz. by apply Forall_zip. }
  assert (Hsorted : Sorted (key_le (kA ∘ fst)) z) by apply Sorted_merge_sort, _.
  assert (Hfst : z.*1 = sortByKey kA la).
  { apply MediatorFacts.sorted_arrangement_unique; [done| |].
    - rewrite Hz, fst_zip; [done|lia].
    - by apply (Sorted_fmap fst (key_le (kA ∘ fst))). }
  assert (Hsnd : z.*2 = sortByKey kB lb).
  { apply MediatorFacts.sorted_arrangement_unique.
    - replace (kB <$> lb) with (kA <$> la); [done|].
      clear -Hall Hkey. induction Hall as [|a b la lb Hab _ IH]; [done|].
      csimpl. by rewrite IH, (Hkey a b).
    - rewrite Hz, snd_zip; [done|lia].
    - apply (Sorted_fmap snd (key_le (kB ∘ snd))); [done|].
      apply (Sorted_key_ext (kA ∘ fst)); [|done].
      eapply Forall_impl; [done|]. intros [a b] Hab. by apply Hkey. }
  rewrite <- Hfst, <- Hsnd. by apply Forall2_fst_snd.
Qed.





End RosterFacts.

(** ** The MCP client on the wire *)
Module ClientFacts.
Import discovery mcp mcpclient StringFacts.

Lemma hasNonSpace_app (s t : string) :
  hasNonSpace (s +:+ t) = hasNonSpace s || hasNonSpace t.
Proof.
  induction s as [|a s IH]; [done|].
  rewrite string_app_cons. simpl. by rewrite IH, orb_assoc.
Qed.

Lemma JoinHostPort_hasNonSpace (host port : string) :
  hasNonSpace (JoinHostPort host port) = true.
Proof.
  unfold JoinHostPort. destruct (ContainsByte host ":"); [done|].
  rewrite hasNonSpace_app. apply orb_true_r.
Qed.

Lemma observe_Address (now : Z) (entry : ServiceEntry.t) :
  hasNonSpace (ServerInfo.Address (observe now entry)) = true.
Proof.
  unfold observe. simpl.
  destruct (ServiceEntry.AddrIPv4 entry), (ServiceEntry.AddrIPv6 entry);
    apply JoinHostPort_hasNonSpace.
Qed.

Section OnTheWire.
Variable url_Parse : string → result URL.t.
Variable URL_String : URL.t → string.
Variable Quote : string → string.
Variable http_NewRequest : string → string → option error.
Variable httpClient_Do : Client.t → Request.t → result Response.t.
Variable decodeTools : string → result (list ToolDefinition.t).
Variable decodeResult : string → result CallResult.t.
Variable json_Marshal : string → object → result string.

Local Abbreviation buildURL := (mcp.buildURL url_Parse URL_String Quote).
Local Abbreviation ListTools :=
  (mcpclient.ListTools url_Parse URL_String Quote http_NewRequest httpClient_Do decodeTools).
Local Abbreviation CallTool :=
  (mcpclient.CallTool url_Parse URL_String Quote http_NewRequest httpClient_Do
     decodeResult json_Marshal).

(** A peer as the registry records it always has an address, so that,
    unless it advertises a [url], its endpoints are
    [scheme://address/path]: building the URL cannot fail. *)
Theorem observed_peer_is_reachable (now : Z) (entry : ServiceEntry.t) (path : string) :
  TrimSpace (default "" (textMap (ServiceEntry.Text entry) !! "url")) = "" →
  buildURL (Some (observe now entry)) path
  = Ok (endpointScheme (observe now entry) +:+ "://" +:+
        ServerInfo.Address (observe now entry) +:+ endpointPath path).
Proof.
  intros Hurl.
  pose proof (observe_Address now entry) as Haddr.
  assert (Hne : ServerInfo.Address (observe now entry) ≠ "").
  { intros He. by rewrite He in Haddr. }
  assert (Hep : endpointAddress (observe now entry)
                = ServerInfo.Address (observe now entry)).
  { unfold endpointAddress. by rewrite decide_False by (by intros [? _]). }
  rewrite McpFacts.buildURL_constructed; [by rewrite Hep|done|].
  rewrite Hep. by apply TxtFacts.TrimSpace_nonempty.
Qed.

(** The client sends at most one request per exchange, and it sends it to
    the endpoint that [buildURL] gives: a [GET] without a body for the tool
    listing, a [POST] of the marshalled call with a JSON content type for a
    tool call.  Nothing is sent for a nil server or a blank tool name. *)
Theorem client_requests (c : Client.t) (server : option ServerInfo.t) (tool : string)
    (arguments : object) :
  ((ListTools c server).1 = []
   ∨ ∃ endpoint,
       buildURL server "/tools/list" = Ok endpoint
       ∧ (ListTools c server).1 = [Request.mk "GET" endpoint "" None])
  ∧ ((CallTool c server tool arguments).1 = []
     ∨ ∃ endpoint buf,
         buildURL server "/tools/call" = Ok endpoint
         ∧ json_Marshal tool arguments = Ok buf
         ∧ TrimSpace tool ≠ ""
         ∧ (CallTool c server tool arguments).1
           = [Request.mk "POST" endpoint "application/json" (Some buf)])
  ∧ (ListTools c None).1 = []
  ∧ (CallTool c None tool arguments).1 = []
  ∧ (CallTool c server "" arguments).1 = [].
Proof.
  split; [|split; [|split; [done|split; [done|]]]].
  - unfold mcpclient.ListTools. destruct server as [srv|]; [|by left].
    destruct (mcp.buildURL _ _ _ _ _) as [err|endpoint]; [by left|].
    destruct (http_NewRequest _ _); [by left|]. right. exists endpoint. split; [done|].
    destruct (httpClient_Do _ _) as [err|resp]; [done|].
    destruct (decide _); [done|]. by destruct (decodeTools _).
  - unfold mcpclient.CallTool. destruct server as [srv|]; [|by left].
    destruct (decide (TrimSpace tool = "")); [by left|].
    destruct (mcp.buildURL _ _ _ _ _) as [err|endpoint]; [by left|].
    destruct (json_Marshal _ _) as [err|buf]; [by left|].
    destruct (http_NewRequest _ _); [by left|]. right. exists endpoint, buf.
    split; [done|]. split; [done|]. split; [done|].
    destruct (httpClient_Do _ _) as [err|resp]; [done|].
    destruct (decide _); [done|]. by destruct (decodeResult _).
  - unfold mcpclient.CallTool. by destruct server.
Qed.

Lemma length_readLimited (n : nat) (s : string) :
  (String.length (readLimited n s) ≤ n)%nat.
Proof.
  revert s. induction n as [|n IH]; intros [|a s]; simpl; try lia.
  specialize (IH s). lia.
Qed.

Lemma length_TrimLeftSpace (s : string) :
  (String.length (TrimLeftSpace s) ≤ String.length s)%nat.
Proof. induction s as [|a s IH]; simpl; [lia|]. destruct (isSpace a); simpl; lia. Qed.

Lemma length_TrimRightSpace (s : string) :
  (String.length (TrimRightSpace s) ≤ String.length s)%nat.
Proof.
  induction s as [|a s IH]; simpl; [lia|].
  destruct (TrimRightSpace s); [destruct (isSpace a)|]; simpl in *; lia.
Qed.

Lemma length_TrimSpace (s : string) : (String.length (TrimSpace s) ≤ String.length s)%nat.
Proof.
  unfold TrimSpace. etrans; [apply length_TrimRightSpace|apply length_TrimLeftSpace].
Qed.

Lemma length_failure (prefix status body : string) (k n : nat) :
  String.length prefix = k →
  (String.length (prefix +:+ status +:+ " (" +:+ TrimSpace (readLimited n body) +:+ ")")
   ≤ k + 3 + String.length status + n)%nat.
Proof.
  intros <-. rewrite !string_length_app.
  change (String.length " (") with 2%nat. change (String.length ")") with 1%nat.
  pose proof (length_TrimSpace (readLimited n body)).
  pose proof (length_readLimited n body). lia.
Qed.


End OnTheWire.

Lemma observed_peer_is_reachable_witness :
  mcp.buildURL sample_Parse sample_String sample_Quote (Some (observe 100 entry_alpha))
    "tools/list"
  = Ok "http://10.0.0.5:8080/tools/list".
Proof.
  exact (observed_peer_is_reachable sample_Parse sample_String sample_Quote 100
           entry_alpha "tools/list" ltac:(reflexivity)).
Defined.


End ClientFacts.

(** ** Configuration from flags and environment *)
Module ConfigFacts.
Import config StringFacts.

Lemma firstNonEmpty_trimmed (values : list string) :
  TrimSpace (firstNonEmpty values) = firstNonEmpty values.
Proof.
  induction values as [|v rest IH]; simpl; [done|].
  destruct (decide _); [apply TrimSpace_idem|done].
Qed.

Lemma firstNonEmpty_empty (values : list string) :
  firstNonEmpty values = "" ↔ Forall (λ v, TrimSpace v = "") values.
Proof.
  induction values as [|v rest IH]; simpl; [by split; [constructor|]|].
  destruct (decide (TrimSpace v ≠ "")) as [Hne|He].
  - split; [done|]. by intros [? _]%Forall_cons.
  - rewrite IH. split; [|by intros [_ ?]%Forall_cons].
    intros ?. constructor; [|done]. by destruct (decide (TrimSpace v = "")).
Qed.

Lemma TrimRightSlash_idem (s : string) :
  TrimRightSlash (TrimRightSlash s) = TrimRightSlash s.
Proof.
  induction s as [|a s IH]; simpl; [done|].
  destruct (TrimRightSlash s) as [|b r] eqn:E.
  - destruct (decide (a = "/"%char)); simpl; [done|]. by rewrite decide_False.
  - simpl in *. by rewrite IH.
Qed.

Section EnvironmentFacts.
Variable Getenv : string → string.
Variable os_Hostname : result string.
Variable Atoi : string → result Z.

Local Abbreviation resolvePort := (config.resolvePort Atoi).
Local Abbreviation deriveHostname := (config.deriveHostname os_Hostname).
Local Abbreviation load := (config.load Getenv os_Hostname Atoi).
Local Abbreviation LoadToolServer := (config.LoadToolServer Getenv os_Hostname Atoi).

Lemma resolvePort_pos (flagValue : Z) (envValue : string) (fallback : Z) :
  0 < resolvePort flagValue envValue fallback.
Proof.
  unfold config.resolvePort, defaultPort.
  destruct (decide (0 < flagValue)); [done|].
  destruct (decide (envValue ≠ "")).
  - destruct (Atoi envValue) as [err|port].
    + destruct (decide (0 < fallback)); lia.
    + destruct (decide (0 < port)); [done|]. destruct (decide (0 < fallback)); lia.
  - destruct (decide (0 < fallback)); lia.
Qed.

Lemma deriveHostname_nonblank : TrimSpace deriveHostname ≠ "".
Proof.
  unfold config.deriveHostname. destruct os_Hostname as [err|hostname]; [done|].
  by destruct (decide (TrimSpace hostname ≠ "")).
Qed.

(** The port is always positive, whatever flag, environment and fallback
    say: a positive flag wins; otherwise a [PORT] value that parses to a
    positive number; otherwise the fallback when positive, and 8080 when
    not. *)
Theorem resolvePort_positive (flagValue : Z) (envValue : string) (fallback : Z) :
  0 < resolvePort flagValue envValue fallback
  ∧ (0 < flagValue → resolvePort flagValue envValue fallback = flagValue)
  ∧ (∀ port, flagValue ≤ 0 → envValue ≠ "" → Atoi envValue = Ok port → 0 < port →
       resolvePort flagValue envValue fallback = port)
  ∧ (flagValue ≤ 0 →
     (envValue = "" ∨ (∃ err, Atoi envValue = Err err)
      ∨ ∃ port, Atoi envValue = Ok port ∧ port ≤ 0) →
     resolvePort flagValue envValue fallback
     = if decide (0 < fallback) then fallback else 8080).
Proof.
  split; [apply resolvePort_pos|]. unfold config.resolvePort, defaultPort.
  split; [|split].
  - intros ?. by rewrite decide_True.
  - intros port ? ? Hport ?. rewrite decide_False by lia.
    rewrite decide_True by done. rewrite Hport. by rewrite decide_True.
  - intros ? Henv. rewrite decide_False by lia.
    destruct (decide (envValue ≠ "")) as [Hne|_]; [|done].
    destruct Henv as [?|[[err Herr]|(port & Hport & ?)]]; [done| |].
    + by rewrite Herr.
    + rewrite Hport. by rewrite decide_False by lia.
Qed.

(** Whatever the environment and the command line hold, a configuration
    that [load] returns is complete: the port is positive; the backend model
    is trimmed and not empty; the API model, the base URL, the API key and the
    role are not empty; the base URL has no trailing slash; the instance is
    not blank; the description is trimmed.  When the flags parse, [load] fails
    only for want of a model, in the flag and in [AGENT_MODEL]. *)
Theorem load_complete (defaults : loadDefaults.t) (flags : Flags.t) :
  match load defaults (Ok flags) with
  | Ok cfg =>
      0 < Config.Port cfg
      ∧ Config.BackendModel cfg ≠ ""
      ∧ TrimSpace (Config.BackendModel cfg) = Config.BackendModel cfg
      ∧ Config.APIModel cfg ≠ ""
      ∧ Config.BaseURL cfg ≠ ""
      ∧ TrimRightSlash (Config.BaseURL cfg) = Config.BaseURL cfg
      ∧ Config.APIKey cfg ≠ ""
      ∧ TrimSpace (Config.Instance cfg) ≠ ""
      ∧ Config.Role cfg ≠ ""
      ∧ TrimSpace (Config.Description cfg) = Config.Description cfg
  | Err err =>
      err = Fresh "base model is required (pass --model or set AGENT_MODEL)"
      ∧ TrimSpace (default (TrimSpace (Getenv "AGENT_MODEL")) (Flags.model flags)) = ""
      ∧ TrimSpace (Getenv "AGENT_MODEL") = ""
  end.
Proof.
  unfold config.load. cbv zeta.
  destruct (decide (firstNonEmpty _ = "")) as [He|Hne].
  - split; [done|]. apply firstNonEmpty_empty in He.
    apply Forall_cons in He as [H1 [H2 _]%Forall_cons].
    split; [done|]. by rewrite TrimSpace_idem in H2.
  - cbn [Config.Port Config.BackendModel Config.APIModel Config.BaseURL Config.APIKey
         Config.Instance Config.Role Config.Description].
    split; [apply resolvePort_pos|]. split; [done|].
    split; [apply firstNonEmpty_trimmed|].
    split; [by destruct (decide (TrimSpace _ = ""))|].
    split; [by destruct (decide (TrimRightSlash _ = ""))|].
    split.
    { destruct (decide (TrimRightSlash _ = "")); [done|apply TrimRightSlash_idem]. }
    split; [by destruct (decide (TrimSpace _ = ""))|].
    split.
    { destruct (decide (TrimSpace _ = "")) as [|Hi]; [apply deriveHostname_nonblank|].
      by rewrite TrimSpace_idem. }
    split; [|apply TrimSpace_idem].
    destruct (decide (TrimSpace _ = "")) as [|Hr]; [|done].
    by destruct (decide ((if decide _ then _ else _) = "")).
Qed.

(** A tool server's configuration is complete as well, and loading it fails
    only when the flags do not parse: the port is positive (the flag itself
    when that is positive), the instance is not blank, and the role is not
    empty. *)
Theorem LoadToolServer_complete (flags : ToolFlags.t) :
  ∃ cfg,
    LoadToolServer (Ok flags) = Ok cfg
    ∧ 0 < ToolConfig.Port cfg
    ∧ TrimSpace (ToolConfig.Instance cfg) ≠ ""
    ∧ ToolConfig.Role cfg ≠ ""
    ∧ (0 < default 0 (ToolFlags.port flags) →
       ToolConfig.Port cfg = default 0 (ToolFlags.port flags)).
Proof.
  eexists. split; [reflexivity|]. simpl.
  split; [apply resolvePort_pos|]. split; [|split].
  - destruct (decide (TrimSpace _ = "")) as [|Hi]; [apply deriveHostname_nonblank|].
    by rewrite TrimSpace_idem.
  - by destruct (decide (TrimSpace _ = "")).
  - intros Hport. unfold config.resolvePort. by rewrite decide_True.
Qed.

End EnvironmentFacts.

End ConfigFacts.

(** ** The agent wrapper's tool server *)
Module AgentFacts.
Import agentchild StringFacts.

Lemma agent_byte_space (a : ascii) :
  isSpace a = false → isSpace (replace_byte replacer (lower_byte a)) = false.
Proof. by destruct a as [[] [] [] [] [] [] [] []]. Qed.

Lemma agent_byte_lower (a : ascii) :
  lower_byte (replace_byte replacer (lower_byte a)) = replace_byte replacer (lower_byte a).
Proof. by destruct a as [[] [] [] [] [] [] [] []]. Qed.

Lemma agent_byte_clean (a : ascii) :
  replace_byte replacer (lower_byte a) ≠ " "%char
  ∧ replace_byte replacer (lower_byte a) ≠ "-"%char
  ∧ replace_byte replacer (lower_byte a) ≠ "."%char.
Proof. by destruct a as [[] [] [] [] [] [] [] []]. Qed.

Lemma agent_byte_slug (a : ascii) :
  replace_byte mediator.replacer (lower_byte (replace_byte replacer (lower_byte a)))
  = replace_byte [("/", "_"); (":", "_")]%char (replace_byte replacer (lower_byte a)).
Proof. by destruct a as [[] [] [] [] [] [] [] []]. Qed.

Lemma ContainsByte_Map (f : ascii → ascii) (s : string) (c : ascii) :
  (∀ a, f a ≠ c) → ContainsByte (Map f s) c = false.
Proof.
  intros Hf. induction s as [|a s IH]; simpl; [done|].
  by rewrite decide_False by apply Hf.
Qed.

Lemma Map_app (f : ascii → ascii) (s t : string) :
  Map f (s +:+ t) = Map f s +:+ Map f t.
Proof.
  induction s as [|a s IH]; [done|].
  rewrite string_app_cons. simpl. by rewrite IH, string_app_cons.
Qed.

Lemma prefix_app (s t : string) : String.prefix s (s +:+ t) = true.
Proof.
  induction s as [|a s IH].
  - rewrite string_app_empty_l. by destruct t.
  - rewrite string_app_cons. simpl. by destruct (ascii_dec a a).
Qed.

Lemma TrimRightSpace_cons_fixed (a : ascii) (s : string) :
  isSpace a = false → TrimRightSpace s = s → TrimRightSpace (String a s) = String a s.
Proof. intros Ha Hs. simpl. rewrite Hs. destruct s; [by rewrite Ha|done]. Qed.

Lemma sanitizeToolName_nonblank (instance : string) :
  ToLower (TrimSpace instance) ≠ "" →
  sanitizeToolName instance
  = "agent_" +:+ Map (λ a, replace_byte replacer (lower_byte a)) (TrimSpace instance).
Proof.
  intros Hne. unfold sanitizeToolName. rewrite decide_False by done.
  unfold Replace, ToLower. by rewrite Map_Map.
Qed.


Section UpstreamFacts.
Variable Completions_New :
  openai.ChatCompletionNewParams.t → result (option openai.ChatCompletion.t).

Local Abbreviation handleCallTool := (agentchild.handleCallTool Completions_New).

Lemma buildAgentToolMessages_length (description : string)
    (history : list types.ChatMessage.t) (prompt : string) :
  length (buildAgentToolMessages description history prompt)
  = ((if decide (TrimSpace description ≠ "") then 1 else 0) + length history
     + (if decide (TrimSpace prompt ≠ "") then 1 else 0))%nat.
Proof.
  unfold buildAgentToolMessages, convertChatMessages.
  destruct (decide (TrimSpace description ≠ "")), (decide (TrimSpace prompt ≠ ""));
    rewrite ?length_app, ?length_fmap; simpl; rewrite ?length_fmap; lia.
Qed.

(** The agent's tool endpoint answers 200, 400 or 500.  It asks the
    provider at most once, never with an empty conversation, always for the
    backend model and without tools; a 400 means that the provider was not
    asked, a 200 or a 500 that it was asked once. *)
Theorem agent_call_asks_once (s : agentToolServer.t) (body : result agentToolCallRequest.t) :
  Forall (λ params,
            openai.ChatCompletionNewParams.Messages params ≠ []
            ∧ openai.ChatCompletionNewParams.Model params
              = config.Config.BackendModel (agentToolServer.cfg s)
            ∧ openai.ChatCompletionNewParams.Tools params = None)
    (handleCallTool s body).1
  ∧ ((Response.Status (handleCallTool s body).2 = StatusBadRequest
      ∧ (handleCallTool s body).1 = [])
     ∨ ((Response.Status (handleCallTool s body).2 = StatusOK
         ∨ Response.Status (handleCallTool s body).2 = StatusInternalServerError)
        ∧ length (handleCallTool s body).1 = 1%nat)).
Proof.
  unfold agentchild.handleCallTool. destruct body as [err|req].
  { split; [constructor|by left]. }
  destruct (decide _) as [|Hreq]; [split; [constructor|by left]|].
  assert (Hne : buildAgentToolMessages (agentToolServer.description s)
                  (agentToolCallRequest.Messages req) (agentToolCallRequest.Prompt req)
                ≠ []).
  { intros He. apply (f_equal length) in He.
    rewrite buildAgentToolMessages_length in He. simpl in He.
    destruct (decide (TrimSpace (agentToolCallRequest.Prompt req) ≠ "")) as [|Hp];
      [lia|]. apply Hreq. split; [|lia].
    by destruct (decide (TrimSpace (agentToolCallRequest.Prompt req) = "")). }
  destruct (Completions_New _) as [err|[resp|]]; simpl.
  - split; [by repeat constructor|]. right. split; [by right|done].
  - destruct (openai.ChatCompletion.Choices resp); simpl;
      (split; [by repeat constructor|]); right; (split; [|done]); [by right|by left].
  - split; [by repeat constructor|]. right. split; [by right|done].
Qed.

(** A successful call reports [messages_submitted] as the length of the
    history plus one, whereas the conversation submitted holds the history,
    the description when it is not blank and the prompt when it is not
    blank: the two agree exactly when one of description and prompt is
    blank and the other is not. *)
Theorem messages_submitted_counts_history (s : agentToolServer.t)
    (req : agentToolCallRequest.t) (params : openai.ChatCompletionNewParams.t)
    (tool : string) (result : callResult.t) :
  handleCallTool s (Ok req) = ([params], Response.mk StatusOK (callBody tool result)) →
  Z.of_nat (length (agentToolCallRequest.Messages req)) + 1 < 2 ^ 63 →
  callResult.messages_submitted result
  = Z.of_nat (length (agentToolCallRequest.Messages req)) + 1
  ∧ length (openai.ChatCompletionNewParams.Messages params)
    = ((if decide (TrimSpace (agentToolServer.description s) ≠ "") then 1 else 0)
       + length (agentToolCallRequest.Messages req)
       + (if decide (TrimSpace (agentToolCallRequest.Prompt req) ≠ "") then 1 else 0))%nat
  ∧ (callResult.messages_submitted result
     = Z.of_nat (length (openai.ChatCompletionNewParams.Messages params))
     ↔ (TrimSpace (agentToolServer.description s) = ""
        ↔ TrimSpace (agentToolCallRequest.Prompt req) ≠ "")).
Proof.
  unfold agentchild.handleCallTool. intros H Hlen.
  destruct (decide _) as [|Hreq]; [done|].
  destruct (Completions_New _) as [err|[resp|]]; [done| |done].
  destruct (openai.ChatCompletion.Choices resp) as [|choice rest]; [done|].
  injection H as <- _ <-. cbn [callResult.messages_submitted
    openai.ChatCompletionNewParams.Messages].
  rewrite MediatorFacts.int_wrap_small by lia.
  rewrite buildAgentToolMessages_length.
  split; [done|]. split; [done|].
  destruct (decide (TrimSpace (agentToolServer.description s) ≠ "")) as [Hd|Hd],
           (decide (TrimSpace (agentToolCallRequest.Prompt req) ≠ "")) as [Hp|Hp].
  - split; [lia|]. intros [_ Hx]. by destruct (Hd (Hx Hp)).
  - split; [intros _|lia].
    split; [intros He; by destruct (Hd He)|intros Hq; by destruct (Hp Hq)].
  - split; [intros _|lia]. split; [done|]. intros _.
    destruct (decide (TrimSpace (agentToolServer.description s) = "")); [done|].
    by destruct Hd.
  - split; [lia|]. intros [Hx _]. destruct Hp. apply Hx.
    destruct (decide (TrimSpace (agentToolServer.description s) = "")); [done|].
    by destruct Hd.
Qed.

End UpstreamFacts.

Lemma messages_submitted_counts_history_witness :
  callResult.messages_submitted (callResult.mk "hello" "llama3" 1 1 2 2)
  = Z.of_nat (length (agentToolCallRequest.Messages sample_agent_call)) + 1
  ∧ length (openai.ChatCompletionNewParams.Messages
              (openai.ChatCompletionNewParams.mk "llama3"
                 [openai.SystemMessage "Plans trips."; openai.UserMessage "I like trains.";
                  openai.UserMessage "Plan a trip."] None))
    = ((if decide (TrimSpace (agentToolServer.description sample_agent) ≠ "") then 1 else 0)
       + length (agentToolCallRequest.Messages sample_agent_call)
       + (if decide (TrimSpace (agentToolCallRequest.Prompt sample_agent_call) ≠ "")
          then 1 else 0))%nat
  ∧ (callResult.messages_submitted (callResult.mk "hello" "llama3" 1 1 2 2)
     = Z.of_nat (length (openai.ChatCompletionNewParams.Messages
                           (openai.ChatCompletionNewParams.mk "llama3"
                              [openai.SystemMessage "Plans trips.";
                               openai.UserMessage "I like trains.";
                               openai.UserMessage "Plan a trip."] None)))
     ↔ (TrimSpace (agentToolServer.description sample_agent) = ""
        ↔ TrimSpace (agentToolCallRequest.Prompt sample_agent_call) ≠ "")).
Proof.
  apply (messages_submitted_counts_history agent_Completions sample_agent
           sample_agent_call _ "agent_planner_1_local"); [reflexivity|done].
Defined.

End AgentFacts.

(** ** The reference tool server: what a call can answer *)
Module HttpCallFacts.
Import httptools.

Section HandlerFacts.
Variable url_ParseRequestURI : string → option error.
Variable http_NewRequest : string → string → option error.
Variable httpClient_Do :
  string → string → list (string * string) → option string → result httpToolResult.t.
Variable Quote : string → string.

Local Abbreviation handleCallTool :=
  (httptools.handleCallTool url_ParseRequestURI http_NewRequest httpClient_Do Quote).

(** A tool call is answered with 200, 404 or 400 and nothing else: 200
    with the result of the round trip when the tool is registered, the [url]
    argument is a non-blank string and the exchange with the target succeeds;
    404 exactly for a tool name that is not registered; 400 for a body that
    does not decode and for every failure of the arguments, the URL or the
    target. *)
Theorem call_status_200_404_400 (s : toolServer.t) (body : result toolCallRequest.t) :
  (∃ req def target res,
     body = Ok req
     ∧ lookupIn (toolServer.tools s) (toolCallRequest.Name req) = Some def
     ∧ extractString (toolCallRequest.Arguments req) "url" = Ok target
     ∧ TrimSpace target ≠ ""
     ∧ executeHTTPRequest url_ParseRequestURI http_NewRequest httpClient_Do
         (toolDefinition.Method def) target (toolCallRequest.Arguments req) = Ok res
     ∧ handleCallTool s body
       = Response.mk StatusOK (callBody (toolCallRequest.Name req) res))
  ∨ (∃ req,
       body = Ok req
       ∧ lookupIn (toolServer.tools s) (toolCallRequest.Name req) = None
       ∧ handleCallTool s body
         = Response.mk StatusNotFound
             (errorBody ("tool " +:+ Quote (toolCallRequest.Name req) +:+ " not found")
                StatusNotFound))
  ∨ (∃ message,
       handleCallTool s body
       = Response.mk StatusBadRequest (errorBody message StatusBadRequest)
       ∧ ∀ req, body = Ok req →
           is_Some (lookupIn (toolServer.tools s) (toolCallRequest.Name req))).
Proof.
  unfold httptools.handleCallTool, lookupTool. destruct body as [err|req].
  { right. right. by eexists. }
  destruct (lookupIn _ _) as [def|] eqn:Hdef.
  2:{ right. left. by exists req. }
  destruct (extractString _ _) as [err|target] eqn:Htarget.
  { right. right. eexists. split; [done|]. intros ? [= <-]. by rewrite Hdef. }
  destruct (executeHTTPRequest _ _ _ _ _ _) as [err|res] eqn:Hres.
  { right. right. eexists. split; [done|]. intros ? [= <-]. by rewrite Hdef. }
  left. exists req, def, target, res. repeat split; try done.
  unfold extractString in Htarget.
  destruct (toolCallRequest.Arguments req) as [members|]; [|done].
  destruct (lookupMember members "url") as [[]|]; try done.
  destruct (decide _); [done|]. by injection Htarget as <-.
Qed.

(** Whatever the arguments hold, a [GET] or [DELETE] is sent without a
    body: the answer to a call is the same when the transport drops the body of
    every such request. *)
Theorem get_and_delete_carry_no_body (s : toolServer.t) (body : result toolCallRequest.t) :
  handleCallTool s body
  = httptools.handleCallTool url_ParseRequestURI http_NewRequest
      (λ method target headers payload,
         httpClient_Do method target headers
           (if decide (method = MethodGet ∨ method = MethodDelete) then None else payload))
      Quote s body.
Proof.
  unfold httptools.handleCallTool. destruct body as [err|req]; [done|].
  destruct (lookupTool _ _ _) as [err|def]; [done|].
  destruct (extractString _ _) as [err|target]; [done|].
  unfold executeHTTPRequest.
  destruct (url_ParseRequestURI target); [done|].
  destruct (http_NewRequest _ _); [done|].
  destruct (decide (toolDefinition.Method def = MethodGet
                    ∨ toolDefinition.Method def = MethodDelete)) as [Hm|_]; [|done].
  rewrite decide_False; [done|]. intros (_ & ? & ?). by destruct Hm.
Qed.

End HandlerFacts.

End HttpCallFacts.
